(** * Outreach Plan Engine of the Lead Desk backend

    A shallow embedding of the outreach-plan code of [index.js]
    ([normalizeIntentForStage], the [/ai/outreach-plan] route with its
    [buildAndStoreSteps] and [handleStubResponse] closures, the
    [/outreach-steps/:stepId/status] route) and of the store functions of
    [db.js] ([getOutreachStepsForDeal], [createOutreachSteps],
    [updateOutreachStepStatus]), followed by the properties proved of them.

    The embedding also covers the code around the engine: the leads, deals
    and activities tables of [db.js] with [createLead],
    [deleteLeadAndRelated], [updateDealStage], [updateDealDetails],
    [createActivity], [getActivitiesForDeal], [getRecentActivitiesForDeal]
    and [getDealContextForMessageDraft], and the routes of [index.js] that
    call them.

    Conventions of the embedding:
    - JavaScript values that come from a request body or from the parsed
      reply of the content generator are terms of [JS.value]; a number is
      an integer or a decimal with a fraction;
    - a JavaScript exception (a [TypeError] on a property read of
      [null]/[undefined] or in [String] on a value without a primitive,
      the [RangeError] of [toISOString]) and a rejected promise are
      explicit error results;
    - a string holds the UTF-8 bytes of its text; [trim] takes off the
      white space and the line terminators of Unicode;
    - the SQLite connection is a record holding the [outreach_steps] table
      and the transaction state; the statements that node-sqlite3 queues on
      the connection are run by a FIFO machine that calls the JavaScript
      callbacks, which may queue further statements; a statement that
      fails with no callback to take the error ends the process;
    - the listing of the steps of a deal is ordered as SQLite orders
      [datetime(dueDate)] on the text that [toISOString] wrote: a date
      whose year is not written with four digits gives [NULL], which comes
      first;
    - the other three tables are lists of rows in the order of insertion;
      the function [datetime] of SQLite on the text of a date column is a
      parameter of the queries that order by it.

    What the embedding leaves out:
    - the rounding of double precision: a number is a decimal of at most
      14 significant digits within the range of a double, on which the
      comparisons of the code and the sum [getDate() + offsetDays] are
      exact; [NaN] and the infinities are outside it;
    - the lower case of the letters beyond ASCII: strings are lower-cased
      on their ASCII letters.  The normalizer returns the same intent
      either way, since it compares with ASCII names and the one other
      character whose lower case is an ASCII letter, the Kelvin sign for
      [k], can only make the default intent, the one name with a [k];
    - what the driver and SQLite make of a goal that is neither a string,
      nor falsy, nor [true], nor an integer of 32 bits when they store it
      in the TEXT column;
    - where a handler tests a field of the body for truth only, the field
      is a string or absent;
    - the clock is read once per request: the anchor [today] is also the
      time of the inserts;
    - a statement that fails is aborted alone, as SQLite does on a
      constraint violation; the engine never fails a [ROLLBACK], a
      [COMMIT], an [UPDATE], a [DELETE] or a [SELECT] for reasons of its
      own;
    - requests that overlap: a request is run from its first statement to
      its answer with no statement of another request in between.  Two
      plan requests that overlap would put the [BEGIN] of the second
      inside the transaction of the first, where it fails with no callback
      to take the error. *)

From Stdlib Require Import ZArith List String Ascii Bool Lia.
From Stdlib Require Import DecimalString DecimalNat.
From Stdlib Require Import Permutation Sorting.Sorted.
Import ListNotations.
Set Warnings "-register-all".
Open Scope string_scope.
Open Scope Z_scope.

(* ================================================================== *)
(** * Part I: the program *)
(* ================================================================== *)

(** ** JavaScript values *)

Module JS.

(** Values as [JSON.parse] and object literals produce them.  A number
    is a decimal, as JSON writes it: [Num n] is the integer [n] and
    [Dec m e] is [m / 10^e], which is how a number with a fractional part
    is written (one that happens to be an integer is handled as that
    integer).  The decimals meant are those of at most 14 significant
    digits: double precision holds them apart and in order.  An object is
    the list of its own properties in insertion order, with distinct
    keys. *)
Inductive value : Type :=
| Undefined
| Null
| Bool (b : bool)
| Num (n : Z)
| Dec (m : Z) (e : nat)
| Str (s : string)
| Arr (elems : list value)
| Obj (props : list (string * value)).

Definition pow10 (e : nat) : Z := 10 ^ Z.of_nat e.

(** [ToBoolean]: what [!v], [v || d] and [if (v)] test. *)
Definition truthy (v : value) : bool :=
  match v with
  | Undefined | Null => false
  | Bool b => b
  | Num n => negb (n =? 0)
  | Dec m _ => negb (m =? 0)
  | Str s => negb (s =? "")%string
  | Arr _ | Obj _ => true
  end.

(** [Number.isInteger(v)], with the integer. *)
Definition as_integer (v : value) : option Z :=
  match v with
  | Num n => Some n
  | Dec m e => if m mod pow10 e =? 0 then Some (m / pow10 e) else None
  | _ => None
  end.

(** [ToIntegerOrInfinity] of [m / 10^e]: the fraction is dropped. *)
Definition truncate (m : Z) (e : nat) : Z := Z.quot m (pow10 e).

(** [v || d]. *)
Definition or_else (v d : value) : value := if truthy v then v else d.

Definition string_of_Z (n : Z) : string := NilZero.string_of_int (Z.to_int n).
Definition string_of_nat (n : nat) : string := NilZero.string_of_uint (Nat.to_uint n).

(** The digits of a number without the zeros they end with. *)
Fixpoint strip_zeros (s : string) : string :=
  match s with
  | EmptyString => EmptyString
  | String c rest =>
      let rest' := strip_zeros rest in
      if (Ascii.eqb c "0" && (rest' =? "")%string)%bool then EmptyString
      else String c rest'
  end.

Fixpoint zeros (n : nat) : string :=
  match n with
  | O => EmptyString
  | S n' => String "0" (zeros n')
  end.

(** [Number::toString] of [m / 10^e] in radix 10: with [k] significant
    digits and the decimal point after the [n]-th of them, the number is
    written in full when [-6 < n <= 21] and with an exponent otherwise. *)
Definition number_text (m : Z) (e : nat) : string :=
  if m =? 0 then "0" else
  let all := string_of_Z (Z.abs m) in
  let digits := strip_zeros all in
  let k := String.length digits in
  let n := Z.of_nat (String.length all) - Z.of_nat e in
  let sign := if m <? 0 then "-" else "" in
  let body :=
    if ((-6 <? n) && (n <=? 21))%bool then
      if Z.of_nat k <=? n then digits ++ zeros (Z.to_nat n - k)
      else if 0 <? n
      then substring 0 (Z.to_nat n) digits ++ "."
           ++ substring (Z.to_nat n) (k - Z.to_nat n) digits
      else "0." ++ zeros (Z.to_nat (- n)) ++ digits
    else
      (if Nat.eqb k 1 then digits
       else substring 0 1 digits ++ "." ++ substring 1 (k - 1) digits)
      ++ "e" ++ (if n - 1 <? 0 then "-" else "+") ++ string_of_Z (Z.abs (n - 1)) in
  sign ++ body.

(** [String(v)]; [None] is the [TypeError] of a value that has no
    primitive: an object with an own property [toString], which a parsed
    reply cannot make callable, and an array that holds such an object.
    An array joins the strings of its elements with a comma, [null] and
    [undefined] elements giving the empty string. *)
Fixpoint to_string (v : value) : option string :=
  match v with
  | Undefined => Some "undefined"
  | Null => Some "null"
  | Bool true => Some "true"
  | Bool false => Some "false"
  | Num n => Some (number_text n 0)
  | Dec m e => Some (number_text m e)
  | Str s => Some s
  | Arr elems =>
      (fix join (l : list value) : option string :=
         match l with
         | [] => Some ""
         | x :: rest =>
             match (match x with
                    | Undefined | Null => Some ""
                    | _ => to_string x
                    end) with
             | None => None
             | Some first =>
                 match rest with
                 | [] => Some first
                 | _ :: _ =>
                     match join rest with
                     | None => None
                     | Some others => Some (first ++ "," ++ others)
                     end
                 end
             end
         end) elems
  | Obj props =>
      if existsb (fun kv => (fst kv =? "toString")%string) props
      then None
      else Some "[object Object]"
  end.

(** [typeof v]. *)
Definition typeof (v : value) : string :=
  match v with
  | Undefined => "undefined"
  | Null => "object"
  | Bool _ => "boolean"
  | Num _ | Dec _ _ => "number"
  | Str _ => "string"
  | Arr _ | Obj _ => "object"
  end.

Definition lower_ascii (c : ascii) : ascii :=
  let n := nat_of_ascii c in
  if (Nat.leb 65 n && Nat.leb n 90)%bool then ascii_of_nat (n + 32) else c.

(** [s.toLowerCase()] on the ASCII letters (the bytes of any other
    character are kept). *)
Fixpoint toLowerCase (s : string) : string :=
  match s with
  | EmptyString => EmptyString
  | String c rest => String (lower_ascii c) (toLowerCase rest)
  end.

(** Own-property lookup in a property list. *)
Fixpoint lookup (k : string) (props : list (string * value)) : option value :=
  match props with
  | [] => None
  | (k', v) :: rest => if (k =? k')%string then Some v else lookup k rest
  end.

(** [o[k] = v] on a property list: an existing key keeps its place. *)
Fixpoint set (k : string) (v : value) (props : list (string * value))
  : list (string * value) :=
  match props with
  | [] => [(k, v)]
  | (k', v') :: rest =>
      if (k =? k')%string then (k, v) :: rest else (k', v') :: set k v rest
  end.

(** [v.k] for the property names this program reads ([steps], [intent],
    [offsetDays], [channel], [goal]), none of which is on a prototype:
    [None] is the [TypeError] of a read on [null] or [undefined]. *)
Definition get (v : value) (k : string) : option value :=
  match v with
  | Undefined | Null => None
  | Obj props =>
      match lookup k props with
      | Some x => Some x
      | None => Some Undefined
      end
  | _ => Some Undefined
  end.

(** [v?.k]. *)
Definition get_opt (v : value) (k : string) : value :=
  match get v k with
  | Some x => x
  | None => Undefined
  end.

Fixpoint indexed {A : Type} (f : A -> value) (i : nat) (l : list A)
  : list (string * value) :=
  match l with
  | [] => []
  | x :: rest => (string_of_nat i, f x) :: indexed f (S i) rest
  end.

(** The own enumerable properties that [{...v}] copies. *)
Definition spread (v : value) : list (string * value) :=
  match v with
  | Obj props => props
  | Arr elems => indexed (fun x => x) 0 elems
  | Str s => indexed (fun c => Str (String c EmptyString)) 0 (list_ascii_of_string s)
  | _ => []
  end.

(** [xs.includes(v)] for an array [xs] of strings. *)
Definition includes (xs : list string) (v : value) : bool :=
  match v with
  | Str s => existsb (String.eqb s) xs
  | _ => false
  end.

End JS.

(** ** The intent normalizer ([index.js]) *)

Definition allowedIntents : list string :=
  [ "first_contact"; "post_call_summary"; "proposal_followup";
    "nurture_checkin"; "deal_recovery"; "meeting_confirmation";
    "meeting_reminder"; "invoice_gentle"; "invoice_firm"; "invoice_final" ].

Definition allowedChannels : list string :=
  [ "email"; "whatsapp"; "sms"; "call_script" ].

(** [allowedIntents.has(s)]. *)
Definition has (set : list string) (s : string) : bool :=
  existsb (String.eqb s) set.

(** [stage ? String(stage).toLowerCase() : ''], the [stageLower] of the
    normalizer; [None] when [String(stage)] throws. *)
Definition stage_lower (stage : JS.value) : option string :=
  if JS.truthy stage then option_map JS.toLowerCase (JS.to_string stage)
  else Some "".

(** What the normalizer returns once [intent] and [stageLower] are
    strings. *)
Definition intent_for (stageLower intent : string) (hasAnyContact : bool) : string :=
  let fallthrough :=
    if has allowedIntents intent then intent else "nurture_checkin" in
  if (intent =? "first_contact")%string then
    if (stageLower =? "new")%string then "first_contact"
    else if (stageLower =? "qualified")%string then "nurture_checkin"
    else if ((stageLower =? "proposal sent") || (stageLower =? "proposal_sent"))%string%bool
    then "proposal_followup"
    else if (stageLower =? "won")%string then "post_call_summary"
    else if (stageLower =? "lost")%string then "deal_recovery"
    else if hasAnyContact then "nurture_checkin"
    else fallthrough
  else fallthrough.

(** The normalizer; [None] is the [TypeError] of [String(originalIntent)]
    or of [String(stage)]. *)
Definition normalizeIntentForStage
  (stage originalIntent : JS.value) (hasAnyContact : bool) : option string :=
  if negb (JS.truthy originalIntent) then Some "nurture_checkin" else
  match JS.to_string originalIntent with
  | None => None
  | Some text =>
      let intent := JS.toLowerCase text in
      match stage_lower stage with
      | None => None
      | Some stageLower => Some (intent_for stageLower intent hasAnyContact)
      end
  end.

(** ** Dates ([Date] of ECMAScript, as far as the scheduler uses it)

    A time value is a number of milliseconds since the epoch, in UTC.  The
    calendar functions are those of the language definition (section
    "Date Objects"), on local time. *)

Module JSDate.

Definition msPerDay : Z := 86400000.
Definition msPerHour : Z := 3600000.
Definition msPerMinute : Z := 60000.
Definition msPerSecond : Z := 1000.

Definition Day (t : Z) : Z := t / msPerDay.
Definition TimeWithinDay (t : Z) : Z := t mod msPerDay.

Definition leap (y : Z) : bool :=
  ((y mod 4 =? 0) && (negb (y mod 100 =? 0) || (y mod 400 =? 0)))%bool.

Definition DaysInYear (y : Z) : Z := if leap y then 366 else 365.

Definition DayFromYear (y : Z) : Z :=
  365 * (y - 1970) + (y - 1969) / 4 - (y - 1901) / 100 + (y - 1601) / 400.

(** Downward search for the largest year that starts on or before day [d]. *)
Fixpoint year_search (fuel : nat) (y d : Z) : Z :=
  match fuel with
  | O => y
  | S fuel' => if DayFromYear y <=? d then y else year_search fuel' (y - 1) d
  end.

(** The largest [y] with [TimeFromYear y <= t].  The search starts from an
    upper estimate of the year, which is at most [|d| / 100000 + 1] years
    above it.  What is proved of the scheduler rests on the day
    arithmetic of [MakeDay] and [DateFromTime] alone, not on the year this
    search finds. *)
Definition YearFromTime (t : Z) : Z :=
  let d := Day t in
  let hi := 1970 + (if 0 <=? d then d / 365 else d / 366) in
  year_search (Z.to_nat (Z.abs d / 100000) + 2) hi d.

Definition InLeapYear (t : Z) : bool := leap (YearFromTime t).

Definition DayWithinYear (t : Z) : Z := Day t - DayFromYear (YearFromTime t).

(** Number of days of the year before month [m] (0 = January). *)
Definition month_start (m : Z) (lp : bool) : Z :=
  let l := if lp then 1 else 0 in
  if m =? 0 then 0
  else if m =? 1 then 31
  else if m =? 2 then 59 + l
  else if m =? 3 then 90 + l
  else if m =? 4 then 120 + l
  else if m =? 5 then 151 + l
  else if m =? 6 then 181 + l
  else if m =? 7 then 212 + l
  else if m =? 8 then 243 + l
  else if m =? 9 then 273 + l
  else if m =? 10 then 304 + l
  else 334 + l.

Definition MonthFromTime (t : Z) : Z :=
  let d := DayWithinYear t in
  let lp := InLeapYear t in
  if d <? month_start 1 lp then 0
  else if d <? month_start 2 lp then 1
  else if d <? month_start 3 lp then 2
  else if d <? month_start 4 lp then 3
  else if d <? month_start 5 lp then 4
  else if d <? month_start 6 lp then 5
  else if d <? month_start 7 lp then 6
  else if d <? month_start 8 lp then 7
  else if d <? month_start 9 lp then 8
  else if d <? month_start 10 lp then 9
  else if d <? month_start 11 lp then 10
  else 11.

Definition DateFromTime (t : Z) : Z :=
  DayWithinYear t - month_start (MonthFromTime t) (InLeapYear t) + 1.

Definition MakeTime (hour min sec ms : Z) : Z :=
  hour * msPerHour + min * msPerMinute + sec * msPerSecond + ms.

(** [MakeDay]: the day number of the first of month [month] of [year], plus
    [date - 1]. *)
Definition MakeDay (year month date : Z) : Z :=
  let ym := year + month / 12 in
  let mn := month mod 12 in
  DayFromYear ym + month_start mn (leap ym) + date - 1.

Definition MakeDate (day time : Z) : Z := day * msPerDay + time.

(** [TimeClip]: [None] is [NaN], the time value of an invalid date. *)
Definition TimeClip (t : Z) : option Z :=
  if Z.abs t >? 8640000000000000 then None else Some t.

(** The time zone of the process: local time of a UTC time value and back
    ([LocalTime] and [UTC] of the language definition). *)
Record zone : Type := { LocalTime : Z -> Z; UTC : Z -> Z }.

(** A zone at a fixed offset from UTC, in milliseconds. *)
Definition fixed_zone (offset : Z) : zone :=
  {| LocalTime := fun t => t + offset; UTC := fun t => t - offset |}.

(** [d.setHours(h, m, s, ms)] on the time value of [d]. *)
Definition setHours (z : zone) (hour min sec ms : Z) (tv : option Z) : option Z :=
  match tv with
  | None => None
  | Some u =>
      let t := LocalTime z u in
      TimeClip (UTC z (MakeDate (Day t) (MakeTime hour min sec ms)))
  end.

(** [d.getDate()]. *)
Definition getDate (z : zone) (tv : option Z) : option Z :=
  match tv with
  | None => None
  | Some u => Some (DateFromTime (LocalTime z u))
  end.

(** [d.setDate(dt)]. *)
Definition setDate (z : zone) (dt : option Z) (tv : option Z) : option Z :=
  match tv, dt with
  | Some u, Some dt =>
      let t := LocalTime z u in
      let newDate :=
        MakeDate (MakeDay (YearFromTime t) (MonthFromTime t) dt) (TimeWithinDay t) in
      TimeClip (UTC z newDate)
  | _, _ => None
  end.

(** [d.toISOString()]: the UTC rendering of a valid time value determines
    it, so the time value stands for the string; [None] is the [RangeError]
    thrown on an invalid date.  What SQLite reads in the string depends on
    how the year is written, which [fourDigitYear] tells. *)
Definition toISOString (tv : option Z) : option Z := tv.

(** The string of [toISOString] writes the year with four digits when it
    is one of the years 0 to 9999, that is from [TimeFromYear 0] to just
    before [TimeFromYear 10000]; the other years it writes in the expanded
    form, a sign and six digits. *)
Definition fourDigitYear (t : Z) : bool :=
  ((DayFromYear 0 * msPerDay <=? t) && (t <? DayFromYear 10000 * msPerDay))%bool.

End JSDate.

(** ** The store ([db.js]) *)

(** What the TEXT column [goal] holds.  The driver binds a string as
    text and [null] as NULL; it binds [true] as the integer 1 and an
    integer of 32 bits as that integer, which the affinity of the column
    turns into their decimal text.  What is stored for another value (a
    number with a fraction or beyond 32 bits, an array, an object) is the
    conversion of the driver and of SQLite, which is not part of this
    code: [GoalConverted v] stands for it. *)
Inductive goalColumn : Type :=
| GoalNull
| GoalText (s : string)
| GoalConverted (v : JS.value).

Definition bind_goal (v : JS.value) : goalColumn :=
  match v with
  | JS.Undefined | JS.Null => GoalNull
  | JS.Str s => GoalText s
  | JS.Bool b => GoalText (if b then "1" else "0")
  | JS.Num _ | JS.Dec _ _ =>
      match JS.as_integer v with
      | Some n =>
          if ((- 2 ^ 31 <=? n) && (n <? 2 ^ 31))%bool
          then GoalText (JS.number_text n 0)
          else GoalConverted v
      | None => GoalConverted v
      end
  | _ => GoalConverted v
  end.

(** A row of [outreach_steps].  [dueDate] is the time value of the ISO
    string the column holds, [createdAt] the second that
    [datetime('now')] gave at the insert, [completedAt] is [None] for SQL
    [NULL]. *)
Record row : Type := mkRow {
  id : string;
  dealId : string;
  dueDate : Z;
  channel : string;
  intent : string;
  goal : goalColumn;
  status : string;
  createdAt : Z;
  completedAt : option Z
}.

(** A step object as [createOutreachSteps] receives it.  An absent
    ([undefined] or [null]) property is [None]. *)
Record newStep : Type := mkStep {
  step_id : option string;
  step_dealId : option string;
  step_dueDate : option Z;
  step_channel : option string;
  step_intent : option string;
  step_goal : JS.value;
  step_status : option string
}.

(** The argument of [createOutreachSteps]: [Array.isArray] tells the two
    apart. *)
Inductive stepsArg : Type :=
| NotArray (v : JS.value)
| StepArray (steps : list newStep).

(** [s || d] on a string property that may be absent. *)
Definition str_or (s : option string) (d : string) : string :=
  match s with
  | Some x => if (x =? "")%string then d else x
  | None => d
  end.

Inductive sqlError : Type :=
| NotNullConstraint      (* NOT NULL constraint failed *)
| PrimaryKeyConstraint   (* UNIQUE constraint failed: outreach_steps.id *)
| StatementFault         (* the statement was forced to fail *)
| NestedTransaction      (* cannot start a transaction within a transaction *)
| NoTransaction.         (* cannot rollback/commit - no transaction is active *)

(** The values bound to the [INSERT] of [createOutreachSteps]. *)
Record insertParams : Type := mkParams {
  p_id : string;
  p_dealId : option string;
  p_dueDate : option Z;
  p_channel : option string;
  p_intent : option string;
  p_goal : JS.value;
  p_status : string;
  p_completedAt : option Z
}.

Inductive stmt : Type :=
| Begin
| Insert (p : insertParams)
| Rollback
| Commit.

(** The connection [db].  [table] is what a [SELECT] on the connection
    sees; [txn] holds, while a transaction is open, the table as it was at
    [BEGIN].  [faults] is a plan of failures forced on the [INSERT]s to
    come, as a test of the batch forces them: its head tells whether the
    next [INSERT] fails.  [log] is the trace of the connection: the
    statements of [createOutreachSteps] it ran, oldest first, each with
    its result. *)
Record conn : Type := mkConn {
  table : list row;
  txn : option (list row);
  faults : list bool;
  log : list (stmt * option sqlError)
}.

(** The row an [INSERT] writes, when the NOT NULL columns are bound;
    [createdAt] takes its default and [goal] holds what the column stores
    for the value bound to it. *)
Definition row_of_params (p : insertParams) (now : Z) : option row :=
  match p_dealId p, p_dueDate p, p_channel p, p_intent p with
  | Some d, Some due, Some ch, Some i =>
      Some (mkRow (p_id p) d due ch i (bind_goal (p_goal p)) (p_status p)
                  (now / 1000) (p_completedAt p))
  | _, _, _, _ => None
  end.

Definition has_id (k : string) (t : list row) : bool :=
  existsb (fun r => (id r =? k)%string) t.

(** The effect of one statement.  A failing statement is aborted alone: an
    open transaction stays open. *)
Definition run_stmt (now : Z) (s : stmt) (c : conn) : conn * option sqlError :=
  match s with
  | Begin =>
      match txn c with
      | None => (mkConn (table c) (Some (table c)) (faults c) (log c), None)
      | Some _ => (c, Some NestedTransaction)
      end
  | Insert p =>
      let forced := hd false (faults c) in
      let c' := mkConn (table c) (txn c) (tl (faults c)) (log c) in
      if forced then (c', Some StatementFault) else
      match row_of_params p now with
      | None => (c', Some NotNullConstraint)
      | Some r =>
          if has_id (id r) (table c) then (c', Some PrimaryKeyConstraint)
          else (mkConn (table c ++ [r])%list (txn c) (tl (faults c)) (log c), None)
      end
  | Rollback =>
      match txn c with
      | Some snapshot => (mkConn snapshot None (faults c) (log c), None)
      | None => (c, Some NoTransaction)
      end
  | Commit =>
      match txn c with
      | Some _ => (mkConn (table c) None (faults c) (log c), None)
      | None => (c, Some NoTransaction)
      end
  end.

(** [db.run(s)] when its turn comes: the statement runs and the trace
    records it. *)
Definition exec (now : Z) (s : stmt) (c : conn) : conn * option sqlError :=
  let (c', res) := run_stmt now s c in
  (mkConn (table c') (txn c') (faults c') (log c' ++ [(s, res)])%list, res).

(** *** [getOutreachStepsForDeal] *)

(** [datetime(dueDate)] on the string that [toISOString] gave: the second
    of the date, the milliseconds dropped, when the year has four digits;
    SQLite does not read a year in the expanded form, and [datetime] is
    then [NULL], here [None]. *)
Definition datetime_of_iso (t : Z) : option Z :=
  if JSDate.fourDigitYear t then Some (t / 1000) else None.

(** [ORDER BY datetime(dueDate) ASC, datetime(createdAt) ASC]. *)
Definition order_key (r : row) : option Z * Z :=
  (datetime_of_iso (dueDate r), createdAt r).

(** In ascending order [NULL] comes first. *)
Definition key_le (a b : option Z * Z) : bool :=
  match fst a, fst b with
  | None, None => snd a <=? snd b
  | None, Some _ => true
  | Some _, None => false
  | Some x, Some y => (x <? y) || ((x =? y) && (snd a <=? snd b))
  end.

Fixpoint insert_by_key (r : row) (l : list row) : list row :=
  match l with
  | [] => [r]
  | x :: rest =>
      if key_le (order_key r) (order_key x) then r :: l
      else x :: insert_by_key r rest
  end.

Fixpoint order_by_key (l : list row) : list row :=
  match l with
  | [] => []
  | x :: rest => insert_by_key x (order_by_key rest)
  end.

Definition getOutreachStepsForDeal (deal : string) (c : conn) : list row :=
  order_by_key (filter (fun r => (dealId r =? deal)%string) (table c)).

(** *** [createOutreachSteps] *)

(** The callbacks that [createOutreachSteps] hands to [db.run]. *)
Inductive callback : Type :=
| NoCallback                       (* db.run('BEGIN TRANSACTION') *)
| InsertCallback                   (* (err) => { ... } of the INSERT *)
| RollbackCallback (e : sqlError)  (* () => callback(err) *)
| CommitCallback.                  (* (commitErr) => { ... } *)

(** The variables the callbacks close over, and the calls made so far to
    the [callback] argument, oldest first ([None] is [callback(null)]). *)
Record closure : Type := mkClosure {
  hasErrored : bool;
  remaining : Z;
  calls : list (option sqlError)
}.

(** Running one callback on the result of its statement: the new closure
    and the statements it queues.  [NoCallback] is no callback at all:
    there is nothing to run after a [BEGIN] that succeeded, and a [BEGIN]
    that failed is [unhandled] below, which ends the run of the queue. *)
Definition run_callback (k : callback) (res : option sqlError) (cl : closure)
  : closure * list (stmt * callback) :=
  match k with
  | NoCallback => (cl, [])
  | InsertCallback =>
      match res with
      | Some e =>
          (mkClosure true (remaining cl) (calls cl), [(Rollback, RollbackCallback e)])
      | None =>
          let cl' := mkClosure (hasErrored cl) (remaining cl - 1) (calls cl) in
          if ((remaining cl' =? 0) && negb (hasErrored cl'))%bool
          then (cl', [(Commit, CommitCallback)])
          else (cl', [])
      end
  | RollbackCallback e =>
      (mkClosure (hasErrored cl) (remaining cl) (calls cl ++ [Some e])%list, [])
  | CommitCallback =>
      (mkClosure (hasErrored cl) (remaining cl) (calls cl ++ [res])%list, [])
  end.

(** A statement failed and [db.run] was given no callback to take the
    error: the driver raises an ['error'] event, to which this code has no
    listener. *)
Definition unhandled (k : callback) (res : option sqlError) : bool :=
  match k, res with
  | NoCallback, Some _ => true
  | _, _ => false
  end.

(** The connection runs its queue first in, first out; a statement queued
    by a callback goes to the back.  On an unhandled ['error'] event the
    process exits: the rest of the queue is not run and no further
    callback is called.  The queue is that of one call of
    [createOutreachSteps]: no statement of another request runs between
    its statements. *)
Fixpoint drain (fuel : nat) (now : Z) (queue : list (stmt * callback))
  (c : conn) (cl : closure) : conn * closure * list (stmt * callback) :=
  match fuel, queue with
  | S fuel', (s, k) :: rest =>
      let (c', res) := exec now s c in
      if unhandled k res then (c', cl, rest) else
      let (cl', more) := run_callback k res cl in
      drain fuel' now (rest ++ more)%list c' cl'
  | _, _ => (c, cl, queue)
  end.

(** The calls to [uuidv4()] are numbered; [uuid n] is what the [n]-th
    returns. *)
Definition uuidGen : Type := nat -> string.

(** The values the body of [steps.forEach] binds for one step, [n] calls
    of [uuidv4()] having been made. *)
Definition bind_step (uuid : uuidGen) (now : Z) (n : nat) (step : newStep)
  : insertParams * nat :=
  let statusValue := str_or (step_status step) "pending" in
  let completed := if (statusValue =? "pending")%string then None else Some now in
  let (ident, n') :=
    match step_id step with
    | Some x => if (x =? "")%string then (uuid n, S n) else (x, n)
    | None => (uuid n, S n)
    end in
  (mkParams ident (step_dealId step) (step_dueDate step)
            (step_channel step) (step_intent step)
            (JS.or_else (step_goal step) JS.Null)
            statusValue completed,
   n').

(** The body of [steps.forEach]: it runs before any callback does, so it
    sees the closure as it was initialised. *)
Definition queue_step (uuid : uuidGen) (now : Z) (cl : closure)
  (acc : list (stmt * callback) * nat) (step : newStep)
  : list (stmt * callback) * nat :=
  let (queue, n) := acc in
  if hasErrored cl then acc else
  let (p, n') := bind_step uuid now n step in
  ((queue ++ [(Insert p, InsertCallback)])%list, n').

(** [createOutreachSteps(steps, callback)]: the connection afterwards, the
    number of [uuidv4()] calls made so far, and the calls made to
    [callback]. *)
Definition createOutreachSteps (uuid : uuidGen) (now : Z) (arg : stepsArg)
  (c : conn) (n : nat) : conn * nat * list (option sqlError) :=
  match arg with
  | NotArray _ => (c, n, [None])
  | StepArray steps =>
      if Nat.eqb (List.length steps) 0 then (c, n, [None]) else
      let cl := mkClosure false (Z.of_nat (List.length steps)) [] in
      let (queue, n') :=
        fold_left (queue_step uuid now cl) steps ([(Begin, NoCallback)], n) in
      let '(c', cl', _) := drain (2 * List.length queue)%nat now queue c cl in
      (c', n', calls cl')
  end.

(** *** [updateOutreachStepStatus] *)

Record updateResult : Type := { notFound : bool }.

(** The [UPDATE ... WHERE id = ?] and its [this.changes].  The statement
    violates no constraint, so the [err] branch of the callback of
    [updateOutreachStepStatus], and the 500 of the route, have no run
    here. *)
Definition update_status (stepId st : string) (completed : option Z) (r : row) : row :=
  if (id r =? stepId)%string
  then mkRow (id r) (dealId r) (dueDate r) (channel r) (intent r) (goal r)
             st (createdAt r) completed
  else r.

Definition changes (stepId : string) (t : list row) : nat :=
  List.length (filter (fun r => (id r =? stepId)%string) t).

Definition updateOutreachStepStatus (now : Z) (stepId st : string) (c : conn)
  : conn * updateResult :=
  let completed := if (st =? "pending")%string then None else Some now in
  let c' := mkConn (map (update_status stepId st completed) (table c))
                   (txn c) (faults c) (log c) in
  if Nat.eqb (changes stepId (table c)) 0
  then (c', {| notFound := true |})
  else (c', {| notFound := false |}).

(** ** The routes ([index.js]) *)

Inductive jsError : Type :=
| TypeError                 (* a read on null/undefined, a call of a non-function *)
| RangeError                (* toISOString on an invalid date *)
| SqlFailure (e : sqlError).

Inductive body : Type :=
| ErrorBody (msg : string)
| PlanBody (deal : string) (steps : list row)
| StatusBody (st : string).

Record response : Type := mkResponse { code : Z; payload : body }.

(** What a request can change: the connection and the number of
    [uuidv4()] calls made so far. *)
Record world : Type := mkWorld { db : conn; uuidCalls : nat }.

(** What the process is started with. *)
Record env : Type := mkEnv {
  hasApiKey : bool;          (* process.env.OPENAI_API_KEY is set *)
  uuid : uuidGen;
  tz : JSDate.zone
}.

(** *** [PATCH /outreach-steps/:stepId/status] *)

Definition allowedStatuses : list string := [ "pending"; "done"; "skipped" ].

Definition patchStatusRoute (now : Z) (stepId : string) (statusField : JS.value)
  (c : conn) : conn * response :=
  if ((stepId =? "")%string || negb (JS.includes allowedStatuses statusField))%bool
  then (c, mkResponse 400 (ErrorBody "Invalid status"))
  else
    match statusField with
    | JS.Str st =>
        let (c', result) := updateOutreachStepStatus now stepId st c in
        if notFound result
        then (c', mkResponse 404 (ErrorBody "Outreach step not found"))
        else (c', mkResponse 200 (StatusBody st))
    | _ => (c, mkResponse 400 (ErrorBody "Invalid status"))
    end.

(** *** [POST /ai/outreach-plan] *)

Record planRequest : Type := mkRequest {
  req_dealId : option string;
  req_horizonDays : JS.value
}.

(** What [getDealContextForMessageDraft] calls back with, as far as the
    route reads it. *)
Record dealContext : Type := mkContext {
  ctx_stage : JS.value;             (* row.stage || null *)
  ctx_lastActivityDate : JS.value   (* activity.createdAt, or null *)
}.

Inductive lookupResult : Type :=
| LookupFailed
| DealMissing
| DealFound (context : dealContext).

(** What the content generator comes to: an exception anywhere between the
    request and [JSON.parse], or the parsed reply ([null] when the reply is
    not JSON). *)
Inductive generatorOutcome : Type :=
| GeneratorThrows
| GeneratorReplies (parsed : JS.value).

(** How a promise of [buildAndStoreSteps] ends. *)
Inductive settled : Type :=
| Rejected (e : jsError)
| Resolved (rows : option (list row))   (* [None] is [null] *)
| Pending.                              (* neither resolved nor rejected *)

Definition parseHorizon (horizonDays : JS.value) : Z :=
  match JS.as_integer horizonDays with
  | Some h => if h >? 0 then h else 14
  | None => 14
  end.

Definition as_string (v : JS.value) : option string :=
  match v with
  | JS.Str s => Some s
  | _ => None
  end.

(** The function given to [map]: [None] is the [TypeError] of
    [step.intent] on a [null] element, or the one the normalizer throws. *)
Definition normalize_step (stage : JS.value) (hasAnyContact : bool)
  (step : JS.value) : option JS.value :=
  match JS.get step "intent" with
  | None => None
  | Some i =>
      match normalizeIntentForStage stage i hasAnyContact with
      | None => None
      | Some normalizedIntent =>
          Some (JS.Obj (JS.set "intent" (JS.Str normalizedIntent) (JS.spread step)))
      end
  end.

(** [xs.map(f)] for an [f] that may throw. *)
Fixpoint map_throw {A B : Type} (f : A -> option B) (l : list A) : option (list B) :=
  match l with
  | [] => Some []
  | x :: rest =>
      match f x with
      | None => None
      | Some y =>
          match map_throw f rest with
          | None => None
          | Some ys => Some (y :: ys)
          end
      end
  end.

(** The two guards of the [forEach] body. *)
Definition offset_ok (parsedHorizon : Z) (step : JS.value) : bool :=
  negb (negb (JS.typeof step =? "object")%string
        || negb (JS.typeof (JS.get_opt step "offsetDays") =? "number")%string
        || match JS.get_opt step "offsetDays" with
           | JS.Num off => (off <? 0) || (off >? parsedHorizon)
           | JS.Dec m k => (m <? 0) || (m >? parsedHorizon * JS.pow10 k)
           | _ => false
           end).

Definition enums_ok (step : JS.value) : bool :=
  negb (negb (JS.includes allowedChannels (JS.get_opt step "channel"))
        || negb (JS.includes allowedIntents (JS.get_opt step "intent"))).

(** [due] of the [forEach] body: today at 09:00 local, moved by
    [offsetDays] days of the month. *)
Definition due_date (z : JSDate.zone) (today offsetDays : Z) : option Z :=
  let due := Some today in
  let due := JSDate.setHours z 9 0 0 0 due in
  let due :=
    JSDate.setDate z
      (match JSDate.getDate z due with
       | Some d => Some (d + offsetDays)
       | None => None
       end) due in
  JSDate.toISOString due.

(** [due] for an offset written with a fraction, [m / 10^k]: [setDate]
    takes the integer part of [due.getDate() + offsetDays]. *)
Definition due_date_decimal (z : JSDate.zone) (today m : Z) (k : nat) : option Z :=
  let due := Some today in
  let due := JSDate.setHours z 9 0 0 0 due in
  let due :=
    JSDate.setDate z
      (match JSDate.getDate z due with
       | Some d => Some (JS.truncate (d * JS.pow10 k + m) k)
       | None => None
       end) due in
  JSDate.toISOString due.

Inductive stepOutcome : Type :=
| Dropped                  (* an early return *)
| Pushed (s : newStep)
| Threw.                   (* toISOString threw, after uuidv4() was called *)

(** One round of [normalizedSteps.forEach], [n] calls of [uuidv4()] having
    been made. *)
Definition schedule_step (e : env) (deal : string) (today parsedHorizon : Z)
  (n : nat) (step : JS.value) : stepOutcome :=
  if negb (offset_ok parsedHorizon step) then Dropped
  else if negb (enums_ok step) then Dropped
  else
    match JS.get_opt step "offsetDays" with
    | JS.Num off =>
        match due_date (tz e) today off with
        | None => Threw
        | Some iso =>
            Pushed (mkStep (Some (uuid e n)) (Some deal) (Some iso)
                           (as_string (JS.get_opt step "channel"))
                           (as_string (JS.get_opt step "intent"))
                           (JS.or_else (JS.get_opt step "goal") JS.Null)
                           (Some "pending"))
        end
    | JS.Dec m k =>
        match due_date_decimal (tz e) today m k with
        | None => Threw
        | Some iso =>
            Pushed (mkStep (Some (uuid e n)) (Some deal) (Some iso)
                           (as_string (JS.get_opt step "channel"))
                           (as_string (JS.get_opt step "intent"))
                           (JS.or_else (JS.get_opt step "goal") JS.Null)
                           (Some "pending"))
        end
    | _ => Dropped
    end.

(** [normalizedSteps.forEach(...)]: the number of [uuidv4()] calls made
    and [stepsToInsert], or [None] when the loop threw. *)
Fixpoint collect_steps (e : env) (deal : string) (today parsedHorizon : Z)
  (steps : list JS.value) (stepsToInsert : list newStep) (n : nat)
  : nat * option (list newStep) :=
  match steps with
  | [] => (n, Some stepsToInsert)
  | step :: rest =>
      match schedule_step e deal today parsedHorizon n step with
      | Dropped => collect_steps e deal today parsedHorizon rest stepsToInsert n
      | Pushed s =>
          collect_steps e deal today parsedHorizon rest (stepsToInsert ++ [s])%list (S n)
      | Threw => (S n, None)
      end
  end.

Definition buildAndStoreSteps (e : env) (deal : string) (context : dealContext)
  (hasAnyContact : bool) (parsedHorizon today : Z) (modelSteps : JS.value)
  (w : world) : world * settled :=
  match JS.or_else modelSteps (JS.Arr []) with
  | JS.Arr elems =>
      match map_throw (normalize_step (ctx_stage context) hasAnyContact) elems with
      | None => (w, Rejected TypeError)
      | Some normalizedSteps =>
          match collect_steps e deal today parsedHorizon normalizedSteps []
                              (uuidCalls w) with
          | (n, None) => (mkWorld (db w) n, Rejected RangeError)
          | (n, Some stepsToInsert) =>
              if Nat.eqb (List.length stepsToInsert) 0
              then (mkWorld (db w) n, Resolved None)
              else
                let '(c', n', outcome) :=
                  createOutreachSteps (uuid e) today (StepArray stepsToInsert)
                                      (db w) n in
                match outcome with
                | Some createErr :: _ =>
                    (mkWorld c' n', Rejected (SqlFailure createErr))
                | None :: _ =>
                    (mkWorld c' n', Resolved (Some (getOutreachStepsForDeal deal c')))
                | [] => (mkWorld c' n', Pending)
                end
          end
      end
  | _ => (w, Rejected TypeError)       (* modelSteps.map is not a function *)
  end.

Definition stub : JS.value :=
  JS.Arr
    [ JS.Obj [ ("offsetDays", JS.Num 0);
               ("channel", JS.Str "email");
               ("intent", JS.Str "first_contact");
               ("goal", JS.Str "Send a concise intro email with value props and propose a short call.") ];
      JS.Obj [ ("offsetDays", JS.Num 3);
               ("channel", JS.Str "whatsapp");
               ("intent", JS.Str "nurture_checkin");
               ("goal", JS.Str "Lightly check in to see if they had a chance to review.") ];
      JS.Obj [ ("offsetDays", JS.Num 7);
               ("channel", JS.Str "call_script");
               ("intent", JS.Str "post_call_summary");
               ("goal", JS.Str "Call to recap fit, address questions, and agree next steps.") ] ].

Definition handleStubResponse (e : env) (deal : string) (context : dealContext)
  (hasAnyContact : bool) (parsedHorizon today : Z) (w : world) : world * settled :=
  buildAndStoreSteps e deal context hasAnyContact parsedHorizon today stub w.

(** [rows || []]. *)
Definition rows_or_empty (rows : option (list row)) : list row :=
  match rows with
  | Some l => l
  | None => []
  end.

(** [handleStubResponse().then(200 ...).catch(500 ...)]. *)
Definition respond_with_stub (e : env) (deal : string) (context : dealContext)
  (hasAnyContact : bool) (parsedHorizon today : Z) (w : world)
  : world * option response :=
  match handleStubResponse e deal context hasAnyContact parsedHorizon today w with
  | (w', Resolved rows) =>
      (w', Some (mkResponse 200 (PlanBody deal (rows_or_empty rows))))
  | (w', Rejected _) =>
      (w', Some (mkResponse 500 (ErrorBody "Failed to generate outreach plan")))
  | (w', Pending) => (w', None)
  end.

(** The handler of the route, from the request to its answer, no other
    request being served in between; [None] is a request left without
    response. *)
Definition outreachPlanRoute (e : env) (today : Z) (req : planRequest)
  (found : lookupResult) (activityRows : list JS.value)
  (generator : generatorOutcome) (w : world) : world * option response :=
  match req_dealId req with
  | None => (w, Some (mkResponse 400 (ErrorBody "dealId is required")))
  | Some deal =>
      if (deal =? "")%string
      then (w, Some (mkResponse 400 (ErrorBody "dealId is required")))
      else
        let parsedHorizon := parseHorizon (req_horizonDays req) in
        match found with
        | LookupFailed =>
            (w, Some (mkResponse 500 (ErrorBody "Failed to generate outreach plan")))
        | DealMissing => (w, Some (mkResponse 404 (ErrorBody "Deal not found")))
        | DealFound context =>
            let hasAnyContact :=
              (JS.truthy (ctx_lastActivityDate context)
               || Nat.ltb 0 (List.length activityRows))%bool in
            let fallback :=
              respond_with_stub e deal context hasAnyContact parsedHorizon today in
            if negb (hasApiKey e) then fallback w
            else
              match generator with
              | GeneratorThrows => fallback w
              | GeneratorReplies parsed =>
                  match buildAndStoreSteps e deal context hasAnyContact
                          parsedHorizon today (JS.get_opt parsed "steps") w with
                  | (w1, Rejected _) => fallback w1
                  | (w1, Pending) => (w1, None)
                  | (w1, Resolved (Some created)) =>
                      (w1, Some (mkResponse 200 (PlanBody deal created)))
                  | (w1, Resolved None) =>
                      match handleStubResponse e deal context hasAnyContact
                              parsedHorizon today w1 with
                      | (w2, Resolved rows) =>
                          (w2, Some (mkResponse 200 (PlanBody deal (rows_or_empty rows))))
                      | (w2, Rejected _) => fallback w2
                      | (w2, Pending) => (w2, None)
                      end
                  end
              end
        end
  end.

(** ** Vocabulary of the statements *)




(** The Validator in the words of its contract, on a candidate as the
    generator gave it: [offsetDays] is a number within [[0, horizonDays]]
    and [channel] is one of the four channels. *)
Definition offset_in_range (horizonDays : Z) (offsetDays : JS.value) : bool :=
  match offsetDays with
  | JS.Num off => (0 <=? off) && (off <=? horizonDays)
  | JS.Dec m k => (0 <=? m) && (m <=? horizonDays * JS.pow10 k)
  | _ => false
  end.


(** The whole days of an offset: the offset without its fraction. *)
Definition whole_days (offsetDays : JS.value) : option Z :=
  match offsetDays with
  | JS.Num off => Some off
  | JS.Dec m k => Some (m / JS.pow10 k)
  | _ => None
  end.



(** A value that is neither an object nor an array. *)
Definition primitive (v : JS.value) : bool :=
  match v with
  | JS.Arr _ | JS.Obj _ => false
  | _ => true
  end.


(** ** Sample data

    A process without API key, in a zone one hour east of UTC, whose
    [n]-th identifier is [step-n]; an anchor at 2026-11-03T02:00:00Z; some
    candidates. *)

Definition sample_uuid : uuidGen := fun n => "step-" ++ JS.string_of_nat n.

Definition sample_env : env := mkEnv false sample_uuid (JSDate.fixed_zone 3600000).

Definition sample_today : Z := 1793700000000.

Definition candidate (offsetDays : JS.value) (channel intent : string) : JS.value :=
  JS.Obj [ ("offsetDays", offsetDays); ("channel", JS.Str channel);
           ("intent", JS.Str intent); ("goal", JS.Str "Say hello") ].


(** ** The batch of [createOutreachSteps], statement by statement *)

(** The parameters bound by [steps.forEach], and the number of
    [uuidv4()] calls afterwards. *)
Fixpoint bind_steps (gen : uuidGen) (now : Z) (n : nat) (steps : list newStep)
  : list insertParams * nat :=
  match steps with
  | [] => ([], n)
  | step :: rest =>
      let (p, n1) := bind_step gen now n step in
      let (ps, n2) := bind_steps gen now n1 rest in
      (p :: ps, n2)
  end.

Definition insert_entry (p : insertParams) : stmt * callback :=
  (Insert p, InsertCallback).

Definition rollback_entry (e : sqlError) : stmt * callback :=
  (Rollback, RollbackCallback e).

(** The [INSERT]s in order: the connection afterwards and the errors of
    those that failed. *)
Fixpoint exec_inserts (now : Z) (ps : list insertParams) (c : conn)
  : conn * list sqlError :=
  match ps with
  | [] => (c, [])
  | p :: rest =>
      let (c1, res) := exec now (Insert p) c in
      let (c2, errs) := exec_inserts now rest c1 in
      (c2, match res with Some e => e :: errs | None => errs end)
  end.

Definition no_errors (errs : list sqlError) : bool :=
  match errs with [] => true | _ :: _ => false end.

(** What the callbacks of the [INSERT]s have queued once all have run: a
    [ROLLBACK] for each failure, or the one [COMMIT] when the counter
    reached zero. *)
Definition followups (now : Z) (ps : list insertParams) (c : conn) (cl : closure)
  : list (stmt * callback) :=
  let errs := snd (exec_inserts now ps c) in
  (map rollback_entry errs ++
   if (no_errors errs && (remaining cl =? Z.of_nat (List.length ps))
       && Nat.ltb 0 (List.length ps))%bool
   then [(Commit, CommitCallback)] else [])%list.

Definition closure_after (now : Z) (ps : list insertParams) (c : conn) (cl : closure)
  : closure :=
  let errs := snd (exec_inserts now ps c) in
  mkClosure (hasErrored cl || negb (no_errors errs))
            (remaining cl - (Z.of_nat (List.length ps) - Z.of_nat (List.length errs)))
            (calls cl).

(** A callback that takes the error of its statement and queues
    nothing. *)
Definition quiet (entry : stmt * callback) : bool :=
  match snd entry with
  | RollbackCallback _ | CommitCallback => true
  | _ => false
  end.

(** A queue of quiet entries, run in order. *)
Fixpoint run_quiet (now : Z) (queue : list (stmt * callback)) (c : conn) (cl : closure)
  : conn * closure :=
  match queue with
  | [] => (c, cl)
  | (s, k) :: rest =>
      let (c', res) := exec now s c in
      run_quiet now rest c' (fst (run_callback k res cl))
  end.

(** The rows a list of bound parameters would write. *)
Fixpoint rows_of (now : Z) (ps : list insertParams) : list row :=
  match ps with
  | [] => []
  | p :: rest =>
      match row_of_params p now with
      | Some r => r :: rows_of now rest
      | None => rows_of now rest
      end
  end.

(** The errors recorded in a piece of the trace. *)
Definition errors_of (l : list (stmt * option sqlError)) : list sqlError :=
  flat_map (fun entry => match snd entry with Some e => [e] | None => [] end) l.

(** ** The invariant of stored steps *)

(** A step is pending exactly when it has no completion time. *)
Definition step_invariant (r : row) : Prop :=
  status r = "pending" <-> completedAt r = None.

(** The state of the connection between two calls of the store: no
    transaction is open, and every stored step satisfies the invariant. *)
Definition store_invariant (c : conn) : Prop :=
  txn c = None /\ Forall step_invariant (table c).

(** The connections the store can be in: the empty table, then any
    sequence of calls of [createOutreachSteps] and
    [updateOutreachStepStatus]. *)
Inductive reachable : conn -> Prop :=
| reach_empty : forall (plan : list bool) (trace : list (stmt * option sqlError)),
    reachable (mkConn [] None plan trace)
| reach_create : forall (c : conn) (gen : uuidGen) (now : Z) (arg : stepsArg) (n : nat),
    reachable c ->
    reachable (fst (fst (createOutreachSteps gen now arg c n)))
| reach_update : forall (c : conn) (now : Z) (stepId st : string),
    reachable c ->
    reachable (fst (updateOutreachStepStatus now stepId st c)).

(** ** More sample data *)

Definition old_row : row :=
  mkRow "old-1" "deal-1" 1790000000000 "email" "first_contact" GoalNull
        "pending" 1789990000 None.

Definition sample_conn : conn := mkConn [old_row] None [] [].

(** A step due on the first day of the year 10000, stored after
    [old_row]. *)
Definition far_row : row :=
  mkRow "far-1" "deal-1" 253402300800000 "email" "nurture_checkin" GoalNull
        "pending" 1789990001 None.

(** The connection while the transaction of another request is open. *)
Definition busy_conn : conn := mkConn [old_row] (Some []) [] [].

Definition fresh_step (ident : string) : newStep :=
  mkStep (Some ident) (Some "deal-1") (Some 1793952000000) (Some "sms")
         (Some "nurture_checkin") JS.Null (Some "pending").

(** ** Vocabulary of the plan route *)

(** Rows in the order of [getOutreachStepsForDeal]. *)
Definition in_order (a b : row) : Prop :=
  key_le (order_key a) (order_key b) = true.

Definition of_deal (deal : string) (r : row) : bool := (dealId r =? deal)%string.

(** The identifiers [uuidv4()] will return from now on are non-empty,
    pairwise distinct and not in the table. *)
Definition fresh_ids (e : env) (w : world) : Prop :=
  forall i, (uuidCalls w <= i)%nat ->
    uuid e i <> "" /\
    has_id (uuid e i) (table (db w)) = false /\
    forall j, (uuidCalls w <= j)%nat -> uuid e i = uuid e j -> i = j.

(** The connection is between two calls and no failure is forced. *)
Definition healthy (c : conn) : Prop :=
  txn c = None /\ Forall (fun f => f = false) (faults c).

(** The generator is of no use to the request: there is no API key, or the
    call threw, or the reply left no step to insert, or reading the reply
    threw. *)
Definition generator_unusable (e : env) (deal : string) (context : dealContext)
  (hasAnyContact : bool) (parsedHorizon today : Z)
  (generator : generatorOutcome) (w : world) : Prop :=
  hasApiKey e = false \/
  generator = GeneratorThrows \/
  exists parsed w1,
    generator = GeneratorReplies parsed /\
    (buildAndStoreSteps e deal context hasAnyContact parsedHorizon today
       (JS.get_opt parsed "steps") w = (w1, Resolved None) \/
     buildAndStoreSteps e deal context hasAnyContact parsedHorizon today
       (JS.get_opt parsed "steps") w = (w1, Rejected TypeError) \/
     buildAndStoreSteps e deal context hasAnyContact parsedHorizon today
       (JS.get_opt parsed "steps") w = (w1, Rejected RangeError)).

(** The rows of the built-in sequence, due on [d0], [d3] and [d7], with
    the identifiers of the calls [n], [n + 1] and [n + 2]. *)
Definition stub_rows (e : env) (deal : string) (today : Z) (n : nat)
  (d0 d3 d7 : Z) : list row :=
  [ mkRow (uuid e n) deal d0 "email" "first_contact"
          (GoalText "Send a concise intro email with value props and propose a short call.")
          "pending" (today / 1000) None;
    mkRow (uuid e (S n)) deal d3 "whatsapp" "nurture_checkin"
          (GoalText "Lightly check in to see if they had a chance to review.")
          "pending" (today / 1000) None;
    mkRow (uuid e (S (S n))) deal d7 "call_script" "post_call_summary"
          (GoalText "Call to recap fit, address questions, and agree next steps.")
          "pending" (today / 1000) None ].

Definition sample_world : world := mkWorld sample_conn 0.

Definition sample_context : dealContext := mkContext (JS.Str "New") JS.Null.

Definition sample_request : planRequest := mkRequest (Some "deal-1") (JS.Num 14).

(** A request answered with [rows] took the store from [w] to [w']: it
    appended one batch of steps of the deal, and when the batch is not
    empty [rows] is the listing of the deal afterwards. *)
Definition plan_answer (deal : string) (w w' : world) (rows : list row) : Prop :=
  exists batch,
    table (db w') = (table (db w) ++ batch)%list /\
    Forall (fun r => dealId r = deal) batch /\
    (batch <> [] -> rows = getOutreachStepsForDeal deal (db w')) /\
    (batch = [] -> rows = []).

(** ** Vocabulary of the further properties *)

(** The columns of a step that a status update has no business with. *)
Definition fixed_columns (r : row)
  : string * string * Z * string * string * goalColumn * Z :=
  (id r, dealId r, dueDate r, channel r, intent r, goal r, createdAt r).

Definition other_than (stepId : string) (r : row) : bool :=
  negb (id r =? stepId)%string.

(** What follows the [INSERT]s in the trace of a batch, given the errors of
    the [INSERT]s: the [COMMIT], or a [ROLLBACK] for each error, of which
    only the first finds the transaction. *)
Definition closing_statements (errs : list sqlError)
  : list (stmt * option sqlError) :=
  match errs with
  | [] => [(Commit, None)]
  | _ :: rest =>
      (Rollback, None) :: repeat (Rollback, Some NoTransaction) (List.length rest)
  end.

(** The calls the batch makes to its callback, given the errors of the
    [INSERT]s. *)
Definition callback_calls (errs : list sqlError) : list (option sqlError) :=
  match errs with
  | [] => [None]
  | _ :: _ => map Some errs
  end.

(** A step the loop of [buildAndStoreSteps] may push for the deal, within
    the horizon. *)
Definition valid_plan_step (e : env) (deal : string) (horizon today : Z)
  (s : newStep) : Prop :=
  step_dealId s = Some deal /\
  (exists ch, step_channel s = Some ch /\ In ch allowedChannels) /\
  (exists i, step_intent s = Some i /\ In i allowedIntents) /\
  step_status s = Some "pending" /\
  exists off d, 0 <= off <= horizon /\
                due_date (tz e) today off = Some d /\ step_dueDate s = Some d.

(** A stored step as the plan route may store it for the deal: an allowed
    channel, an intent of the enumeration, pending, due on an offset
    within the horizon. *)
Definition valid_plan_row (e : env) (deal : string) (horizon today : Z)
  (r : row) : Prop :=
  dealId r = deal /\
  In (channel r) allowedChannels /\
  In (intent r) allowedIntents /\
  status r = "pending" /\
  completedAt r = None /\
  createdAt r = today / 1000 /\
  exists off, 0 <= off <= horizon /\ due_date (tz e) today off = Some (dueDate r).

(** Every stored step has one of the three statuses. *)
Definition statuses_allowed (c : conn) : Prop :=
  Forall (fun r => In (status r) allowedStatuses) (table c).

(** A reply of the generator with a usable candidate, an out-of-horizon
    one, one on an unknown channel and one with an unknown intent in upper
    case. *)
Definition mixed_reply : generatorOutcome :=
  GeneratorReplies
    (JS.Obj [("steps",
              JS.Arr [ candidate (JS.Num 2) "sms" "MEETING_REMINDER";
                       candidate (JS.Num 40) "email" "first_contact";
                       candidate (JS.Num 1) "pigeon" "first_contact";
                       candidate (JS.Num 5) "call_script" "upsell" ])]).

Definition keyed_env : env := mkEnv true sample_uuid (JSDate.fixed_zone 3600000).



(** ** The leads, deals and activities tables ([db.js]) *)

(** The rows of the three tables, column by column; an [option] is a
    nullable column.  A date column holds the text it was given; the
    [value] of a deal holds the number it was given. *)
Record leadRow : Type := mkLead {
  lead_id : string;
  lead_name : string;
  lead_company : string;
  lead_email : option string;
  lead_value : option Z;
  lead_source : option string;
  lead_createdAt : option string;
  lead_address : option string;
  lead_phone : option string
}.

Record dealRow : Type := mkDeal {
  deal_id : string;
  deal_leadId : string;
  deal_title : string;
  deal_stage : string;
  deal_value : option JS.value;
  deal_nextAction : option string;
  deal_nextActionDate : option string;
  deal_reminderChannel : option string;
  deal_aiAutoReminderEnabled : option Z
}.

Record activityRow : Type := mkActivity {
  act_id : string;
  act_dealId : string;
  act_type : string;
  act_note : string;
  act_createdAt : string
}.

Record tables : Type := mkTables {
  leads : list leadRow;
  deals : list dealRow;
  activities : list activityRow
}.

(** What the routes of these tables answer with. *)
Inductive crmBody : Type :=
| CrmError (msg : string)
| SuccessJson                               (* { success: true } *)
| LeadJson (l : option leadRow)
| DealJson (d : dealRow)
| ActivityJson (a : activityRow)
| ActivitiesJson (rows : list activityRow).

Record crmResponse : Type := mkCrmResponse { crm_code : Z; crm_payload : crmBody }.

(** *** [String.prototype.trim] *)

(** A string holds the UTF-8 bytes of its text.  The white space and line
    terminators of ECMAScript are TAB, LF, VT, FF, CR and the space, of
    one byte; U+00A0, of two; U+1680, U+2000 to U+200A, U+2028, U+2029,
    U+202F, U+205F, U+3000 and U+FEFF, of three. *)
Definition is_space1 (c : ascii) : bool :=
  let n := nat_of_ascii c in
  ((Nat.leb 9 n && Nat.leb n 13) || Nat.eqb n 32)%bool.

Definition is_space2 (c1 c2 : ascii) : bool :=
  (Nat.eqb (nat_of_ascii c1) 194 && Nat.eqb (nat_of_ascii c2) 160)%bool.

Definition is_space3 (c1 c2 c3 : ascii) : bool :=
  let n1 := nat_of_ascii c1 in
  let n2 := nat_of_ascii c2 in
  let n3 := nat_of_ascii c3 in
  ((Nat.eqb n1 225 && Nat.eqb n2 154 && Nat.eqb n3 128)
   || (Nat.eqb n1 226 && Nat.eqb n2 128
       && ((Nat.leb 128 n3 && Nat.leb n3 138)
           || Nat.eqb n3 168 || Nat.eqb n3 169 || Nat.eqb n3 175))
   || (Nat.eqb n1 226 && Nat.eqb n2 129 && Nat.eqb n3 159)
   || (Nat.eqb n1 227 && Nat.eqb n2 128 && Nat.eqb n3 128)
   || (Nat.eqb n1 239 && Nat.eqb n2 187 && Nat.eqb n3 191))%bool.

(** [s] starts with a white space; read [backwards], the bytes of a
    character come last byte first. *)
Definition starts_with_space (backwards : bool) (s : string) : bool :=
  match s with
  | String c1 (String c2 (String c3 _)) =>
      (is_space1 c1
       || (if backwards then is_space2 c2 c1 else is_space2 c1 c2)
       || (if backwards then is_space3 c3 c2 c1 else is_space3 c1 c2 c3))%bool
  | String c1 (String c2 EmptyString) =>
      (is_space1 c1 || (if backwards then is_space2 c2 c1 else is_space2 c1 c2))%bool
  | String c1 EmptyString => is_space1 c1
  | EmptyString => false
  end.

(** [s] without the white space it starts with. *)
Fixpoint strip_spaces (backwards : bool) (s : string) : string :=
  match s with
  | EmptyString => s
  | String c1 r1 =>
      if is_space1 c1 then strip_spaces backwards r1
      else
        match r1 with
        | EmptyString => s
        | String c2 r2 =>
            if (if backwards then is_space2 c2 c1 else is_space2 c1 c2)
            then strip_spaces backwards r2
            else
              match r2 with
              | EmptyString => s
              | String c3 r3 =>
                  if (if backwards then is_space3 c3 c2 c1 else is_space3 c1 c2 c3)
                  then strip_spaces backwards r3
                  else s
              end
        end
  end.

Definition reverse (s : string) : string :=
  string_of_list_ascii (rev (list_ascii_of_string s)).

Definition trimStart (s : string) : string := strip_spaces false s.

Definition trimEnd (s : string) : string :=
  reverse (strip_spaces true (reverse s)).

Definition trim (s : string) : string := trimEnd (trimStart s).

(** [v || null] on a string or [null]. *)
Definition or_null (v : option string) : option string :=
  match v with
  | Some s => if (s =? "")%string then None else Some s
  | None => None
  end.

(** *** [createLead] and [POST /leads] *)

(** The fields of a lead as the body of the request gives them: strings
    and an integer, or absent. *)
Record leadInput : Type := mkLeadInput {
  in_name : option string;
  in_company : option string;
  in_email : option string;
  in_value : option Z;
  in_source : option string;
  in_createdAt : option string;
  in_address : option string;
  in_phone : option string
}.

(** The [INSERT] of [createLead], for the identifier [ident]: [name] and
    [company] are NOT NULL, the identifier is the primary key. *)
Definition createLead (nowIso ident : string) (lead : leadInput) (t : tables)
  : tables * option sqlError :=
  match in_name lead, in_company lead with
  | Some name, Some company =>
      if existsb (fun l => (lead_id l =? ident)%string) (leads t)
      then (t, Some PrimaryKeyConstraint)
      else
        (mkTables
           (leads t ++
            [mkLead ident name company (or_null (in_email lead)) (in_value lead)
                    (or_null (in_source lead))
                    (Some (str_or (in_createdAt lead) nowIso))
                    (or_null (in_address lead)) (or_null (in_phone lead))])%list
           (deals t) (activities t),
         None)
  | _, _ => (t, Some NotNullConstraint)
  end.

(** [SELECT * FROM leads WHERE id = ?] through [db.get]. *)
Definition lead_by_id (ident : string) (l : list leadRow) : option leadRow :=
  find (fun x => (lead_id x =? ident)%string) l.

(** A text between double quotes. *)
Definition quoted (s : string) : string :=
  String "034" s ++ String "034" "".

(** The handler; [None] is the body of [res.json(undefined)]. *)
Definition postLeadRoute (e : env) (nowIso : string) (lead : leadInput)
  (t : tables) (n : nat) : tables * nat * crmResponse :=
  match or_null (in_name lead), or_null (in_company lead) with
  | Some _, Some _ =>
      let ident := uuid e n in
      match createLead nowIso ident lead t with
      | (t1, Some _) =>
          (t1, S n, mkCrmResponse 500 (CrmError "Failed to create lead"))
      | (t1, None) =>
          (t1, S n, mkCrmResponse 201 (LeadJson (lead_by_id ident (leads t1))))
      end
  | _, _ =>
      (t, n, mkCrmResponse 400
               (CrmError ("Both " ++ quoted "name" ++ " and " ++ quoted "company"
                          ++ " fields are required.")))
  end.

(** *** [deleteLeadAndRelated] and [DELETE /leads/:leadId] *)

Definition deleteLeadAndRelated (leadId : string) (t : tables)
  : tables * updateResult :=
  let dealRows := filter (fun d => (deal_leadId d =? leadId)%string) (deals t) in
  let dealIds := map deal_id dealRows in
  let activities1 :=
    if Nat.ltb 0 (List.length dealIds)
    then filter (fun a => negb (existsb (String.eqb (act_dealId a)) dealIds))
                (activities t)
    else activities t in
  let deals1 := filter (fun d => negb (deal_leadId d =? leadId)%string) (deals t) in
  let changed := List.length (filter (fun l => (lead_id l =? leadId)%string) (leads t)) in
  let leads1 := filter (fun l => negb (lead_id l =? leadId)%string) (leads t) in
  (mkTables leads1 deals1 activities1, {| notFound := Nat.eqb changed 0 |}).

Definition deleteLeadRoute (leadId : string) (t : tables) : tables * crmResponse :=
  let (t1, result) := deleteLeadAndRelated leadId t in
  if notFound result
  then (t1, mkCrmResponse 404 (CrmError "Lead not found"))
  else (t1, mkCrmResponse 200 SuccessJson).

(** *** [updateDealStage], [createActivity] and [POST /deals/:dealId/stage] *)

Definition set_stage (dealId stage : string) (d : dealRow) : dealRow :=
  if (deal_id d =? dealId)%string
  then mkDeal (deal_id d) (deal_leadId d) (deal_title d) stage (deal_value d)
              (deal_nextAction d) (deal_nextActionDate d)
              (deal_reminderChannel d) (deal_aiAutoReminderEnabled d)
  else d.

(** [SELECT * FROM deals WHERE id = ?] through [db.get]: the first row. *)
Definition deal_by_id (dealId : string) (l : list dealRow) : option dealRow :=
  find (fun d => (deal_id d =? dealId)%string) l.

Definition updateDealStage (dealId stage : string) (t : tables)
  : tables * option dealRow :=
  let deals1 := map (set_stage dealId stage) (deals t) in
  (mkTables (leads t) deals1 (activities t), deal_by_id dealId deals1).

(** The [INSERT] fails on an identifier the table holds already. *)
Definition createActivity (activity : activityRow) (t : tables)
  : tables * option sqlError :=
  if existsb (fun a => (act_id a =? act_id activity)%string) (activities t)
  then (t, Some PrimaryKeyConstraint)
  else (mkTables (leads t) (deals t) (activities t ++ [activity])%list, None).

(** The handler, [n] calls of [uuidv4()] having been made; [nowIso] is
    [new Date().toISOString()]. *)
Definition postStageRoute (e : env) (nowIso : string) (dealId : string)
  (stage : JS.value) (t : tables) (n : nat) : tables * nat * crmResponse :=
  match stage with
  | JS.Str s =>
      if (negb (JS.truthy stage) || (trim s =? "")%string)%bool
      then (t, n, mkCrmResponse 400 (CrmError "stage is required"))
      else
        let (t1, updatedDeal) := updateDealStage dealId (trim s) t in
        match updatedDeal with
        | None => (t1, n, mkCrmResponse 404 (CrmError "Deal not found"))
        | Some d =>
            let activity :=
              mkActivity (uuid e n) dealId "status_change"
                         ("Status updated to " ++ deal_stage d) nowIso in
            let (t2, _) := createActivity activity t1 in
            (t2, S n, mkCrmResponse 200 (DealJson d))
        end
  | _ => (t, n, mkCrmResponse 400 (CrmError "stage is required"))
  end.

(** *** [updateDealDetails] and [POST /deals/:dealId/details] *)

(** The [details] object: [value] and [nextAction] as they are read,
    [nextActionDate] as an own property ([None] when there is none) that
    is [null] or a string. *)
Record dealDetails : Type := mkDetails {
  det_value : JS.value;
  det_nextAction : JS.value;
  det_nextActionDate : option (option string)
}.

Inductive detailsOutcome : Type :=
| NoFieldsToUpdate                      (* callback(new Error('No fields to update')) *)
| DetailsUpdated (row : option dealRow).

(** The [SET] clauses, as [fields] collects them. *)
Definition detail_fields (details : dealDetails) : list string :=
  ((if (JS.typeof (det_value details) =? "number")%string then ["value = ?"] else [])
   ++ (if (JS.typeof (det_nextAction details) =? "string")%string
       then ["nextAction = ?"] else [])
   ++ (match det_nextActionDate details with
       | Some _ => ["nextActionDate = ?"]
       | None => []
       end))%list.

Definition set_details (dealId : string) (details : dealDetails) (d : dealRow)
  : dealRow :=
  if (deal_id d =? dealId)%string
  then mkDeal (deal_id d) (deal_leadId d) (deal_title d) (deal_stage d)
              (if (JS.typeof (det_value details) =? "number")%string
               then Some (det_value details)
               else deal_value d)
              (match det_nextAction details with
               | JS.Str s => Some s
               | _ => deal_nextAction d
               end)
              (match det_nextActionDate details with
               | Some v => v
               | None => deal_nextActionDate d
               end)
              (deal_reminderChannel d) (deal_aiAutoReminderEnabled d)
  else d.

Definition updateDealDetails (dealId : string) (details : dealDetails) (t : tables)
  : tables * detailsOutcome :=
  if Nat.eqb (List.length (detail_fields details)) 0 then (t, NoFieldsToUpdate)
  else
    let deals1 := map (set_details dealId details) (deals t) in
    (mkTables (leads t) deals1 (activities t),
     DetailsUpdated (deal_by_id dealId deals1)).

(** The fields of the request body that the handler reads. *)
Record detailsBody : Type := mkDetailsBody {
  body_value : JS.value;
  body_nextAction : JS.value;
  body_nextActionDate : option (option string)
}.

Definition details_of_body (b : detailsBody) : dealDetails :=
  mkDetails
    (if (JS.typeof (body_value b) =? "number")%string
     then body_value b else JS.Undefined)
    (match body_nextAction b with
     | JS.Str s => JS.Str (trim s)
     | _ => JS.Undefined
     end)
    (match body_nextActionDate b with
     | Some v => Some (or_null v)
     | None => None
     end).

(** [Object.keys(details).length]. *)
Definition details_keys (details : dealDetails) : nat :=
  ((match det_value details with JS.Undefined => 0 | _ => 1 end)
   + (match det_nextAction details with JS.Undefined => 0 | _ => 1 end)
   + (match det_nextActionDate details with None => 0 | Some _ => 1 end))%nat.

Definition postDetailsRoute (dealId : string) (b : detailsBody) (t : tables)
  : tables * crmResponse :=
  let details := details_of_body b in
  if Nat.eqb (details_keys details) 0
  then (t, mkCrmResponse 400
             (CrmError "At least one of value, nextAction, or nextActionDate is required"))
  else
    match updateDealDetails dealId details t with
    | (t1, NoFieldsToUpdate) =>
        (t1, mkCrmResponse 500 (CrmError "Failed to update deal details"))
    | (t1, DetailsUpdated None) =>
        (t1, mkCrmResponse 404 (CrmError "Deal not found"))
    | (t1, DetailsUpdated (Some d)) => (t1, mkCrmResponse 200 (DealJson d))
    end.

(** *** The activities of a deal *)

(** [ORDER BY datetime(createdAt) DESC]: [datetime] is the second that
    SQLite reads in a text, [None] for [NULL] when it reads none; [NULL]
    sorts last. *)
Definition datetime_ge (a b : option Z) : bool :=
  match a, b with
  | _, None => true
  | None, Some _ => false
  | Some x, Some y => y <=? x
  end.

Fixpoint insert_recent (datetime : string -> option Z) (a : activityRow)
  (l : list activityRow) : list activityRow :=
  match l with
  | [] => [a]
  | x :: rest =>
      if datetime_ge (datetime (act_createdAt a)) (datetime (act_createdAt x))
      then a :: l
      else x :: insert_recent datetime a rest
  end.

Fixpoint most_recent_first (datetime : string -> option Z)
  (l : list activityRow) : list activityRow :=
  match l with
  | [] => []
  | x :: rest => insert_recent datetime x (most_recent_first datetime rest)
  end.

Definition getActivitiesForDeal (datetime : string -> option Z) (dealId : string)
  (t : tables) : list activityRow :=
  most_recent_first datetime
    (filter (fun a => (act_dealId a =? dealId)%string) (activities t)).

Definition getRecentActivitiesForDeal (datetime : string -> option Z)
  (dealId : string) (limit : JS.value) (t : tables) : list activityRow :=
  let effectiveLimit :=
    match JS.as_integer limit with
    | Some n => if n >? 0 then n else 5
    | None => 5
    end in
  firstn (Z.to_nat effectiveLimit)
    (most_recent_first datetime
       (filter (fun a => (act_dealId a =? dealId)%string) (activities t))).


(** The fields of the body of [POST /deals/:dealId/activities]: strings,
    or absent. *)
Record activityBody : Type := mkActivityBody {
  body_type : option string;
  body_note : option string;
  body_createdAt : option string
}.

Definition postActivityRoute (e : env) (nowIso : string) (dealId : string)
  (b : activityBody) (t : tables) (n : nat) : tables * nat * crmResponse :=
  match or_null (body_type b), or_null (body_note b) with
  | Some type, Some note =>
      let activity :=
        mkActivity (uuid e n) dealId type note (str_or (body_createdAt b) nowIso) in
      match createActivity activity t with
      | (t1, Some _) =>
          (t1, S n, mkCrmResponse 500 (CrmError "Failed to create activity"))
      | (t1, None) => (t1, S n, mkCrmResponse 201 (ActivityJson activity))
      end
  | _, _ => (t, n, mkCrmResponse 400 (CrmError "type and note are required"))
  end.

(** *** [getDealContextForMessageDraft] *)

(** The context, as far as the plan route reads it: the stage of the deal
    and the date of the activity that [ORDER BY datetime(createdAt) DESC
    LIMIT 1] selects. *)
Definition getDealContextForMessageDraft (datetime : string -> option Z)
  (dealId : string) (t : tables) : lookupResult :=
  match deal_by_id dealId (deals t) with
  | None => DealMissing
  | Some row =>
      let activity :=
        hd_error (most_recent_first datetime
                    (filter (fun a => (act_dealId a =? dealId)%string)
                            (activities t))) in
      DealFound
        (mkContext
           (if (deal_stage row =? "")%string then JS.Null else JS.Str (deal_stage row))
           (match activity with
            | Some a => JS.Str (act_createdAt a)
            | None => JS.Null
            end))
  end.

(** A row of [recentActivities]. *)
Definition recent_activity (a : activityRow) : JS.value :=
  let text s := if (s =? "")%string then JS.Null else JS.Str s in
  JS.Obj [ ("type", text (act_type a));
           ("createdAt", text (act_createdAt a));
           ("note", text (act_note a)) ].

(** The plan route on the tables: the two lookups, then the handler. *)
Definition outreachPlanRequest (e : env) (datetime : string -> option Z)
  (today : Z) (req : planRequest) (generator : generatorOutcome)
  (t : tables) (w : world) : world * option response :=
  let dealId := str_or (req_dealId req) "" in
  outreachPlanRoute e today req
    (getDealContextForMessageDraft datetime dealId t)
    (map recent_activity (getRecentActivitiesForDeal datetime dealId (JS.Num 5) t))
    generator w.

(** ** Vocabulary of the properties of the three tables *)

(** [dealId] is the identifier of a stored deal of the lead. *)
Definition deal_of_lead (leadId : string) (t : tables) (dealId : string) : Prop :=
  exists d, In d (deals t) /\ deal_leadId d = leadId /\ deal_id d = dealId.

(** No reference dangles: every deal names a stored lead and every
    activity a stored deal. *)
Definition references_sound (t : tables) : Prop :=
  (forall d, In d (deals t) -> exists l, In l (leads t) /\ lead_id l = deal_leadId d) /\
  (forall a, In a (activities t) -> exists d, In d (deals t) /\ deal_id d = act_dealId a).

Definition sample_lead (ident : string) : leadRow :=
  mkLead ident "Gemma" "The Green Man" None (Some 1200) None None None None.

Definition sample_deal (ident leadId stage : string) : dealRow :=
  mkDeal ident leadId "Website rebuild" stage (Some (JS.Num 1200)) None None None
         (Some 0).

Definition sample_tables : tables :=
  mkTables [ sample_lead "lead-1"; sample_lead "lead-2" ]
           [ sample_deal "deal-1" "lead-1" "New";
             sample_deal "deal-2" "lead-2" "Qualified";
             sample_deal "deal-3" "lead-1" "Lost" ]
           [ mkActivity "act-1" "deal-1" "call" "Intro call" "2026-11-01T10:00:00.000Z";
             mkActivity "act-2" "deal-2" "email" "Sent the proposal" "2026-11-02T10:00:00.000Z";
             mkActivity "act-3" "deal-3" "note" "Went quiet" "2026-11-02T12:00:00.000Z" ].

(** [a] is at least as recent as [b], as [ORDER BY datetime(createdAt)
    DESC] compares them. *)
Definition no_older (datetime : string -> option Z) (a b : activityRow) : Prop :=
  datetime_ge (datetime (act_createdAt a)) (datetime (act_createdAt b)) = true.

Definition activity_of (dealId : string) (a : activityRow) : bool :=
  (act_dealId a =? dealId)%string.

(** The seconds that [datetime] reads in the dates of the sample. *)
Definition sample_datetime (s : string) : option Z :=
  if (s =? "2026-11-01T10:00:00.000Z")%string then Some 1793527200
  else if (s =? "2026-11-02T10:00:00.000Z")%string then Some 1793613600
  else if (s =? "2026-11-02T12:00:00.000Z")%string then Some 1793620800
  else if (s =? "2026-11-03T09:30:00.000Z")%string then Some 1793698200
  else None.

(** [s] neither starts nor ends with white space. *)
Definition no_outer_space (s : string) : Prop :=
  starts_with_space false s = false /\
  starts_with_space true (reverse s) = false.

(** The columns of a deal other than its stage. *)
Definition columns_but_stage (d : dealRow)
  : string * string * string * option JS.value * option string * option string
    * option string * option Z :=
  (deal_id d, deal_leadId d, deal_title d, deal_value d, deal_nextAction d,
   deal_nextActionDate d, deal_reminderChannel d, deal_aiAutoReminderEnabled d).

(** The columns of a deal that [POST /deals/:dealId/details] has no
    business with. *)
Definition columns_but_details (d : dealRow)
  : string * string * string * string * option string * option Z :=
  (deal_id d, deal_leadId d, deal_title d, deal_stage d,
   deal_reminderChannel d, deal_aiAutoReminderEnabled d).

(** ** Proof tools *)

Import JSDate.

(** Membership in an enumeration written out. *)
Ltac in_enum := simpl; repeat (first [left; reflexivity | right]).


(* ================================================================== *)
(** * Part II: properties *)
(* ================================================================== *)

(** ** The model on known values *)

(** 2024-02-29T12:00:00Z is in February (month 1) of a leap year. *)
Example calendar_leap_day :
  (YearFromTime 1709208000000, MonthFromTime 1709208000000,
   DateFromTime 1709208000000) = (2024, 1, 29).
Proof. reflexivity. Qed.

(** The last millisecond of 1969. *)
Example calendar_before_epoch :
  (YearFromTime (-1), MonthFromTime (-1), DateFromTime (-1)) = (1969, 11, 31).
Proof. reflexivity. Qed.

(** The two ends of the range of [Date]: 275760-09-13 and -271821-04-20. *)
Example calendar_range_ends :
  (YearFromTime 8640000000000000, MonthFromTime 8640000000000000,
   DateFromTime 8640000000000000) = (275760, 8, 13) /\
  (YearFromTime (-8640000000000000), MonthFromTime (-8640000000000000),
   DateFromTime (-8640000000000000)) = (-271821, 3, 20).
Proof. split; vm_compute; reflexivity. Qed.

(** [setDate] past the end of the month rolls over: 31 February 2024 is
    2 March 2024. *)
Example setDate_rolls_over :
  setDate (fixed_zone 0) (Some 31) (Some 1709208000000) = Some 1709380800000.
Proof. reflexivity. Qed.

(** The anchor 2026-11-03T02:00:00Z, one hour east of UTC, with offset 3:
    2026-11-06T08:00:00Z. *)
Example due_date_sample :
  due_date (fixed_zone 3600000) sample_today 3 = Some 1793952000000.
Proof. reflexivity. Qed.

(** A date pushed beyond the range of [Date] is invalid. *)
Example due_date_out_of_range :
  due_date (fixed_zone 0) sample_today 100000000 = None.
Proof. vm_compute. reflexivity. Qed.

Example to_string_array :
  JS.to_string (JS.Arr [JS.Str "a"; JS.Null; JS.Num 3; JS.Arr [JS.Num 1; JS.Num 2]])
  = Some "a,,3,1,2".
Proof. reflexivity. Qed.

(** Numbers as [String] writes them: in full, or with an exponent when
    they are very small or very large. *)
Example to_string_numbers :
  JS.to_string (JS.Dec 25 1) = Some "2.5" /\
  JS.to_string (JS.Dec (-5) 1) = Some "-0.5" /\
  JS.to_string (JS.Dec 1 6) = Some "0.000001" /\
  JS.to_string (JS.Dec 15 8) = Some "1.5e-7" /\
  JS.to_string (JS.Dec 140 1) = Some "14" /\
  JS.to_string (JS.Num 1200) = Some "1200" /\
  JS.to_string (JS.Num (10 ^ 21)) = Some "1e+21".
Proof. repeat split; reflexivity. Qed.

(** [String] throws on an object with an own [toString], also inside an
    array. *)
Example to_string_throws :
  JS.to_string (JS.Obj [("toString", JS.Num 1)]) = None /\
  JS.to_string (JS.Arr [JS.Str "a"; JS.Obj [("toString", JS.Null)]]) = None /\
  JS.to_string (JS.Obj [("intent", JS.Str "a")]) = Some "[object Object]".
Proof. repeat split; reflexivity. Qed.

Example toLowerCase_stage :
  JS.toLowerCase "Proposal_Sent" = "proposal_sent".
Proof. reflexivity. Qed.

(** The end-to-end scenario of stage [Lost]: [first_contact] becomes
    [deal_recovery], and of a valid and an invalid candidate one step is
    stored. *)
Example lost_deal_scenario :
  let out :=
    outreachPlanRoute (mkEnv true sample_uuid (fixed_zone 0)) sample_today
      sample_request (DealFound (mkContext (JS.Str "Lost") JS.Null)) [JS.Null]
      (GeneratorReplies
         (JS.Obj [("steps",
                   JS.Arr [candidate (JS.Num 1) "email" "first_contact";
                           candidate (JS.Num (-1)) "email" "first_contact"])]))
      (mkWorld (mkConn [] None [] []) 0) in
  map intent (table (db (fst out))) = ["deal_recovery"] /\
  option_map code (snd out) = Some 200.
Proof. vm_compute. split; reflexivity. Qed.

(** A reply whose [steps] holds a [null] makes the loop throw; the route
    falls back to the built-in sequence. *)
Example null_candidate_falls_back :
  let out :=
    outreachPlanRoute (mkEnv true sample_uuid (fixed_zone 0)) sample_today
      sample_request (DealFound sample_context) []
      (GeneratorReplies (JS.Obj [("steps", JS.Arr [JS.Null])]))
      (mkWorld (mkConn [] None [] []) 0) in
  map intent (table (db (fst out)))
    = ["first_contact"; "nurture_checkin"; "post_call_summary"] /\
  option_map code (snd out) = Some 200.
Proof. vm_compute. split; reflexivity. Qed.

(** ** The intent normalizer *)

Lemma has_In (set : list string) (s : string) : has set s = true <-> In s set.
Proof.
  unfold has. rewrite existsb_exists. split.
  - intros [x [Hx He]]. apply String.eqb_eq in He. now subst.
  - intros H. exists s. split; [assumption | apply String.eqb_refl].
Qed.

(** A value that is neither an object nor an array has a string. *)
Lemma to_string_primitive (v : JS.value) :
  primitive v = true -> exists s, JS.to_string v = Some s.
Proof.
  destruct v as [ | | [|] | n | m k | s | l | l]; cbn; try discriminate; eauto.
Qed.

Lemma stage_lower_primitive (stage : JS.value) :
  primitive stage = true -> exists lowered, stage_lower stage = Some lowered.
Proof.
  intros H. unfold stage_lower. destruct (JS.truthy stage); [|eauto].
  destruct (to_string_primitive stage H) as [s ->]. cbn. eauto.
Qed.

(** What the normalizer returns on a truthy intent, in terms of the
    strings of the intent and of the stage. *)
Lemma normalize_truthy (stage i : JS.value) (b : bool) (text lowered : string) :
  JS.truthy i = true ->
  JS.to_string i = Some text ->
  stage_lower stage = Some lowered ->
  normalizeIntentForStage stage i b
  = Some (intent_for lowered (JS.toLowerCase text) b).
Proof.
  intros Ht Hi Hs. unfold normalizeIntentForStage. now rewrite Ht, Hi, Hs.
Qed.

Lemma intent_for_in_enumeration (lowered intent : string) (b : bool) :
  In (intent_for lowered intent b) allowedIntents.
Proof.
  unfold intent_for. cbv zeta.
  assert (Hfall : In (if has allowedIntents intent then intent else "nurture_checkin")
                     allowedIntents).
  { destruct (has allowedIntents intent) eqn:Hh.
    - now apply has_In.
    - in_enum. }
  repeat match goal with
         | |- In (if ?c then _ else _) _ => destruct c
         end; try assumption; in_enum.
Qed.

Lemma normalize_in_enumeration (stage i : JS.value) (b : bool) (r : string) :
  normalizeIntentForStage stage i b = Some r -> In r allowedIntents.
Proof.
  unfold normalizeIntentForStage.
  destruct (JS.truthy i); cbn [negb].
  - destruct (JS.to_string i) as [text|]; [|discriminate].
    destruct (stage_lower stage) as [lowered|]; [|discriminate].
    intros [= <-]. apply intent_for_in_enumeration.
  - intros [= <-]. in_enum.
Qed.

(** The normalizer throws exactly when the intent is truthy and one of
    the two conversions throws. *)
Lemma normalize_throws (stage i : JS.value) (b : bool) :
  normalizeIntentForStage stage i b = None <->
  JS.truthy i = true /\ (JS.to_string i = None \/ stage_lower stage = None).
Proof.
  unfold normalizeIntentForStage.
  destruct (JS.truthy i); cbn [negb].
  - destruct (JS.to_string i) as [text|].
    + destruct (stage_lower stage) as [lowered|].
      * split; [discriminate | intros [_ [H|H]]; discriminate H].
      * split; [now auto | reflexivity].
    + split; [now auto | reflexivity].
  - split; [discriminate | intros [H _]; discriminate H].
Qed.

(** C4. With the requested intent [first_contact] the normalizer goes by
    the lower-cased stage: [new] keeps [first_contact], [qualified] gives
    [nurture_checkin], [proposal sent] or [proposal_sent] gives
    [proposal_followup], [won] gives [post_call_summary], [lost] gives
    [deal_recovery], and any other stage gives [nurture_checkin] when there
    was a prior contact; an absent requested intent gives [nurture_checkin]
    whatever the stage.  The lower-cased stage is that of
    [String(stage)], which every stage has that is not an object or an
    array. *)
Theorem normalize_first_contact_by_stage :
  forall (stage : JS.value) (hasPriorContact : bool),
    let result :=
      normalizeIntentForStage stage (JS.Str "first_contact") hasPriorContact in
    (stage_lower stage = Some "new" -> result = Some "first_contact") /\
    (stage_lower stage = Some "qualified" -> result = Some "nurture_checkin") /\
    (stage_lower stage = Some "proposal sent" \/
     stage_lower stage = Some "proposal_sent" ->
     result = Some "proposal_followup") /\
    (stage_lower stage = Some "won" -> result = Some "post_call_summary") /\
    (stage_lower stage = Some "lost" -> result = Some "deal_recovery") /\
    (forall lowered,
        stage_lower stage = Some lowered ->
        ~ In lowered
             ["new"; "qualified"; "proposal sent"; "proposal_sent"; "won"; "lost"] ->
        hasPriorContact = true -> result = Some "nurture_checkin") /\
    (primitive stage = true -> exists lowered, stage_lower stage = Some lowered) /\
    (forall absent : JS.value,
        JS.truthy absent = false ->
        normalizeIntentForStage stage absent hasPriorContact = Some "nurture_checkin").
Proof.
  intros stage b result. subst result.
  assert (Hrun : forall lowered, stage_lower stage = Some lowered ->
            normalizeIntentForStage stage (JS.Str "first_contact") b
            = Some (intent_for lowered "first_contact" b)).
  { intros lowered H.
    now rewrite (normalize_truthy stage (JS.Str "first_contact") b
                   "first_contact" lowered eq_refl eq_refl H). }
  repeat split.
  - intros H. now rewrite (Hrun _ H).
  - intros H. now rewrite (Hrun _ H).
  - intros [H | H]; now rewrite (Hrun _ H).
  - intros H. now rewrite (Hrun _ H).
  - intros H. now rewrite (Hrun _ H).
  - intros lowered H Hother ->. rewrite (Hrun _ H). f_equal.
    unfold intent_for. cbv zeta.
    change ("first_contact" =? "first_contact")%string with true. cbv iota.
    repeat match goal with
           | |- context [(lowered =? ?s)%string] =>
               let E := fresh "E" in
               destruct (String.eqb_spec lowered s) as [E | E];
               [ exfalso; apply Hother; rewrite E; in_enum | ]
           end.
    reflexivity.
  - apply stage_lower_primitive.
  - intros absent Ha. unfold normalizeIntentForStage. now rewrite Ha.
Qed.

Lemma normalize_first_contact_by_stage_witness :
  normalizeIntentForStage (JS.Str "New") (JS.Str "first_contact") false
    = Some "first_contact" /\
  normalizeIntentForStage (JS.Str "Qualified") (JS.Str "first_contact") true
    = Some "nurture_checkin" /\
  normalizeIntentForStage (JS.Str "Proposal Sent") (JS.Str "first_contact") false
    = Some "proposal_followup" /\
  normalizeIntentForStage (JS.Str "PROPOSAL_SENT") (JS.Str "first_contact") false
    = Some "proposal_followup" /\
  normalizeIntentForStage (JS.Str "Won") (JS.Str "first_contact") true
    = Some "post_call_summary" /\
  normalizeIntentForStage (JS.Str "LOST") (JS.Str "first_contact") true
    = Some "deal_recovery" /\
  normalizeIntentForStage (JS.Str "Negotiation") (JS.Str "first_contact") true
    = Some "nurture_checkin" /\
  normalizeIntentForStage (JS.Str "Lost") JS.Undefined true = Some "nurture_checkin".
Proof.
  split.
  { destruct (normalize_first_contact_by_stage (JS.Str "New") false)
      as (H & _). exact (H eq_refl). }
  split.
  { destruct (normalize_first_contact_by_stage (JS.Str "Qualified") true)
      as (_ & H & _). exact (H eq_refl). }
  split.
  { destruct (normalize_first_contact_by_stage (JS.Str "Proposal Sent") false)
      as (_ & _ & H & _). exact (H (or_introl eq_refl)). }
  split.
  { destruct (normalize_first_contact_by_stage (JS.Str "PROPOSAL_SENT") false)
      as (_ & _ & H & _). exact (H (or_intror eq_refl)). }
  split.
  { destruct (normalize_first_contact_by_stage (JS.Str "Won") true)
      as (_ & _ & _ & H & _). exact (H eq_refl). }
  split.
  { destruct (normalize_first_contact_by_stage (JS.Str "LOST") true)
      as (_ & _ & _ & _ & H & _). exact (H eq_refl). }
  split.
  { destruct (normalize_first_contact_by_stage (JS.Str "Negotiation") true)
      as (_ & _ & _ & _ & _ & H & _).
    apply (H "negotiation"); [reflexivity | | reflexivity ].
    simpl. intros K.
    repeat (destruct K as [K | K]; [discriminate K | ]). exact K. }
  destruct (normalize_first_contact_by_stage (JS.Str "Lost") true)
    as (_ & _ & _ & _ & _ & _ & _ & H). exact (H JS.Undefined eq_refl).
Defined.

(** C5 as amended. The normalizer returns unless [String] throws on the
    requested intent or on the stage, which it does only on an object or
    an array; and what it returns is a member of the ten-member intent
    enumeration.  A requested intent that is falsy gives
    [nurture_checkin]; one that is truthy and whose lower-cased string is
    not [first_contact] comes back as that lower-cased string when the
    enumeration holds it, and as [nurture_checkin] otherwise. *)
Theorem normalize_in_enumeration_lowercased :
  forall (stage requested : JS.value) (hasPriorContact : bool),
    let result := normalizeIntentForStage stage requested hasPriorContact in
    (forall r, result = Some r -> In r allowedIntents) /\
    (result = None <->
     JS.truthy requested = true /\
     (JS.to_string requested = None \/ stage_lower stage = None)) /\
    (primitive requested = true -> primitive stage = true -> result <> None) /\
    (JS.truthy requested = false -> result = Some "nurture_checkin") /\
    (forall text lowered,
        JS.truthy requested = true ->
        JS.to_string requested = Some text ->
        stage_lower stage = Some lowered ->
        JS.toLowerCase text <> "first_contact" ->
        result = Some (if has allowedIntents (JS.toLowerCase text)
                       then JS.toLowerCase text
                       else "nurture_checkin")).
Proof.
  intros stage requested b result. subst result.
  split; [|split; [|split; [|split]]].
  - intros r. apply normalize_in_enumeration.
  - apply normalize_throws.
  - intros Hr Hs Hnone. apply normalize_throws in Hnone.
    destruct (to_string_primitive requested Hr) as [text Ht].
    destruct (stage_lower_primitive stage Hs) as [lowered Hl].
    destruct Hnone as [_ [H | H]]; congruence.
  - intros Hf. unfold normalizeIntentForStage. now rewrite Hf.
  - intros text lowered Ht Hi Hs Hne.
    rewrite (normalize_truthy _ _ _ _ _ Ht Hi Hs). f_equal.
    unfold intent_for. cbv zeta.
    destruct (String.eqb_spec (JS.toLowerCase text) "first_contact") as [E | E];
      [contradiction | reflexivity].
Qed.

Lemma normalize_in_enumeration_lowercased_witness :
  In "invoice_firm" allowedIntents /\
  normalizeIntentForStage (JS.Str "Qualified") (JS.Str "Invoice_Firm") true
    = Some "invoice_firm" /\
  normalizeIntentForStage (JS.Str "Qualified") (JS.Str "upsell") true
    = Some "nurture_checkin" /\
  normalizeIntentForStage (JS.Str "Qualified") (JS.Dec 25 1) true
    = Some "nurture_checkin" /\
  normalizeIntentForStage (JS.Str "Qualified") (JS.Obj [("toString", JS.Num 1)]) true
    = None.
Proof.
  pose proof (normalize_in_enumeration_lowercased
                (JS.Str "Qualified") (JS.Str "Invoice_Firm") true) as H1.
  pose proof (normalize_in_enumeration_lowercased
                (JS.Str "Qualified") (JS.Str "upsell") true) as H2.
  pose proof (normalize_in_enumeration_lowercased
                (JS.Str "Qualified") (JS.Dec 25 1) true) as H3.
  pose proof (normalize_in_enumeration_lowercased
                (JS.Str "Qualified") (JS.Obj [("toString", JS.Num 1)]) true) as H4.
  cbv zeta in H1, H2, H3, H4.
  destruct H1 as (Hin & _ & _ & _ & Hlow1).
  destruct H2 as (_ & _ & _ & _ & Hlow2).
  destruct H3 as (_ & _ & _ & _ & Hlow3).
  destruct H4 as (_ & Hnone & _).
  assert (E1 : normalizeIntentForStage (JS.Str "Qualified") (JS.Str "Invoice_Firm") true
               = Some "invoice_firm").
  { apply (Hlow1 "Invoice_Firm" "qualified"); try reflexivity. discriminate. }
  split; [exact (Hin _ E1)|]. split; [exact E1|]. split; [|split].
  - apply (Hlow2 "upsell" "qualified"); try reflexivity. discriminate.
  - apply (Hlow3 "2.5" "qualified"); try reflexivity. discriminate.
  - apply Hnone. split; [reflexivity | left; reflexivity].
Defined.

(** The requested intent [DEAL_RECOVERY] is neither [first_contact] nor a
    member of the enumeration, and it comes back neither unchanged nor as
    [nurture_checkin]. *)
Lemma normalize_uppercase_intent_counterexample :
  "DEAL_RECOVERY" <> "first_contact" /\
  has allowedIntents "DEAL_RECOVERY" = false /\
  normalizeIntentForStage (JS.Str "New") (JS.Str "DEAL_RECOVERY") false
    = Some "deal_recovery" /\
  "deal_recovery" <> "nurture_checkin" /\
  "deal_recovery" <> "DEAL_RECOVERY".
Proof.
  repeat split; try reflexivity; discriminate.
Qed.

(** ** The scheduler *)


Lemma MonthFromTime_range (t : Z) : 0 <= MonthFromTime t <= 11.
Proof.
  unfold MonthFromTime.
  repeat match goal with
         | |- context [if ?c then _ else _] => destruct c
         end; lia.
Qed.

(** [setDate(getDate() + n)] moves the day number by [n]. *)
Lemma MakeDay_shift (t n : Z) :
  MakeDay (YearFromTime t) (MonthFromTime t) (DateFromTime t + n) = Day t + n.
Proof.
  pose proof (MonthFromTime_range t) as Hm.
  unfold MakeDay, DateFromTime, DayWithinYear, InLeapYear.
  rewrite (Z.div_small (MonthFromTime t) 12) by lia.
  rewrite (Z.mod_small (MonthFromTime t) 12) by lia.
  rewrite Z.add_0_r. lia.
Qed.

Lemma MakeDate_Day_TimeWithinDay (t n : Z) :
  MakeDate (Day t + n) (TimeWithinDay t) = t + n * msPerDay.
Proof.
  unfold MakeDate, Day, TimeWithinDay.
  pose proof (Z.div_mod t msPerDay ltac:(discriminate)). lia.
Qed.






(** The year search finds a year that starts on or before the day. *)
Lemma year_search_found (fuel : nat) :
  forall y d, DayFromYear (y - Z.of_nat fuel + 1) <= d -> (0 < fuel)%nat ->
    DayFromYear (year_search fuel y d) <= d.
Proof.
  induction fuel as [| fuel IH]; intros y d H Hpos; [lia | ].
  cbn [year_search].
  destruct (Z.leb_spec (DayFromYear y) d) as [Hle | Hgt]; [exact Hle | ].
  destruct fuel as [| fuel'].
  - exfalso. replace (y - Z.of_nat 1 + 1) with y in H by lia. lia.
  - apply IH; [ | lia ].
    replace (y - 1 - Z.of_nat (S fuel') + 1)
      with (y - Z.of_nat (S (S fuel')) + 1) by lia.
    exact H.
Qed.

Lemma YearFromTime_starts_before (t : Z) : DayFromYear (YearFromTime t) <= Day t.
Proof.
  unfold YearFromTime. set (d := Day t). cbv zeta.
  apply year_search_found; [ | lia ].
  rewrite Nat2Z.inj_add, Z2Nat.id by (apply Z.div_pos; lia).
  change (Z.of_nat 2) with 2.
  destruct (Z.leb_spec 0 d) as [Hd | Hd].
  - rewrite Z.abs_eq by lia. unfold DayFromYear.
    Z.div_mod_to_equations. lia.
  - rewrite Z.abs_neq by lia. unfold DayFromYear.
    Z.div_mod_to_equations. lia.
Qed.

(** [getDate()] is at least 1. *)
Lemma DateFromTime_positive (t : Z) : 1 <= DateFromTime t.
Proof.
  pose proof (YearFromTime_starts_before t) as Hy.
  unfold DateFromTime, MonthFromTime.
  assert (Hd : 0 <= DayWithinYear t) by (unfold DayWithinYear; lia).
  set (d := DayWithinYear t) in *. set (lp := InLeapYear t).
  repeat match goal with
         | |- context [if ?x <? ?y then _ else _] =>
             destruct (Z.ltb_spec x y)
         end.
  all: destruct lp; cbn in *; lia.
Qed.

Lemma pow10_positive (k : nat) : 0 < JS.pow10 k.
Proof. unfold JS.pow10. apply Z.pow_pos_nonneg; lia. Qed.

(** The integer part of a date plus an offset that is not negative: the
    date plus the whole days of the offset. *)
Lemma truncate_date_plus (d m : Z) (k : nat) :
  0 <= d -> 0 <= m ->
  JS.truncate (d * JS.pow10 k + m) k = d + m / JS.pow10 k.
Proof.
  intros Hd Hm. pose proof (pow10_positive k) as Hp. unfold JS.truncate.
  rewrite Z.quot_div_nonneg by nia.
  rewrite Z.add_comm, Z.div_add by lia. lia.
Qed.

Lemma due_date_decimal_whole (z : zone) (today m : Z) (k : nat) :
  0 <= m -> due_date_decimal z today m k = due_date z today (m / JS.pow10 k).
Proof.
  intros Hm. unfold due_date_decimal, due_date.
  destruct (setHours z 9 0 0 0 (Some today)) as [u |]; [ | reflexivity ].
  unfold getDate.
  rewrite truncate_date_plus; [reflexivity | | exact Hm].
  pose proof (DateFromTime_positive (LocalTime z u)). lia.
Qed.

(** An offset within the horizon has its whole days within the horizon. *)
Lemma whole_days_in_range (h : Z) (v : JS.value) :
  offset_in_range h v = true ->
  exists days, whole_days v = Some days /\ 0 <= days <= h.
Proof.
  destruct v as [ | | | off | m k | | | ]; cbn; try discriminate.
  - intros H. apply andb_prop in H. destruct H as [H1 H2].
    apply Z.leb_le in H1, H2. eauto.
  - intros H. apply andb_prop in H. destruct H as [H1 H2].
    apply Z.leb_le in H1, H2. pose proof (pow10_positive k) as Hp.
    exists (m / JS.pow10 k). split; [reflexivity | ]. split.
    + now apply Z.div_pos.
    + apply Z.div_le_upper_bound; [assumption | lia].
Qed.

(** ** The validator *)













(** The offset of a candidate that passed the guards, and its due date. *)
Lemma scheduled_due_date (e : env) (today h : Z) (step : JS.value) :
  offset_ok h step = true ->
  exists days,
    whole_days (JS.get_opt step "offsetDays") = Some days /\
    0 <= days <= h /\
    match JS.get_opt step "offsetDays" with
    | JS.Num off => due_date (tz e) today off
    | JS.Dec m k => due_date_decimal (tz e) today m k
    | _ => None
    end = due_date (tz e) today days.
Proof.
  unfold offset_ok. intros Ho. apply negb_true_iff in Ho.
  apply orb_false_iff in Ho. destruct Ho as [Ho Hr].
  apply orb_false_iff in Ho. destruct Ho as [_ Hnum].
  destruct (JS.get_opt step "offsetDays") as [ | | | off | m k | | | ];
    try discriminate Hnum.
  - apply orb_false_iff in Hr. destruct Hr as [Hlo Hhi].
    apply Z.ltb_ge in Hlo.
    assert (Hle : off <= h) by (destruct (Z.gtb_spec off h); [discriminate | lia]).
    exists off. repeat split; assumption.
  - apply orb_false_iff in Hr. destruct Hr as [Hlo Hhi].
    apply Z.ltb_ge in Hlo.
    assert (Hle : m <= h * JS.pow10 k)
      by (destruct (Z.gtb_spec m (h * JS.pow10 k)); [discriminate | lia]).
    destruct (whole_days_in_range h (JS.Dec m k)) as (days & Hd & Hrange).
    { cbn. apply andb_true_intro. split; now apply Z.leb_le. }
    cbn in Hd. injection Hd as <-.
    exists (m / JS.pow10 k). split; [reflexivity | ]. split; [exact Hrange | ].
    now apply due_date_decimal_whole.
Qed.

(** What the loop does with a step that passed the two guards. *)
Lemma schedule_step_accepted (e : env) (deal : string) (today h : Z) (n : nat)
  (step : JS.value) :
  offset_ok h step = true -> enums_ok step = true ->
  exists days,
    whole_days (JS.get_opt step "offsetDays") = Some days /\
    0 <= days <= h /\
    schedule_step e deal today h n step =
      match due_date (tz e) today days with
      | None => Threw
      | Some iso =>
          Pushed (mkStep (Some (uuid e n)) (Some deal) (Some iso)
                         (as_string (JS.get_opt step "channel"))
                         (as_string (JS.get_opt step "intent"))
                         (JS.or_else (JS.get_opt step "goal") JS.Null)
                         (Some "pending"))
      end.
Proof.
  intros Ho He.
  destruct (scheduled_due_date e today h step Ho) as (days & Hd & Hrange & Hdue).
  exists days. split; [exact Hd | ]. split; [exact Hrange | ].
  unfold schedule_step. rewrite Ho, He. cbn [negb].
  destruct (JS.get_opt step "offsetDays") as [ | | | off | m k | | | ];
    try discriminate Hd; now rewrite Hdue.
Qed.














(** ** The store: running the queue *)

Lemma drain_nil (fuel : nat) (now : Z) (c : conn) (cl : closure) :
  drain fuel now [] c cl = (c, cl, []).
Proof. now destruct fuel. Qed.

Lemma closure_eta (cl : closure) :
  mkClosure (hasErrored cl) (remaining cl) (calls cl) = cl.
Proof. now destruct cl. Qed.

Lemma fold_queue_step (gen : uuidGen) (now : Z) (cl : closure) :
  hasErrored cl = false ->
  forall steps queue n,
    fold_left (queue_step gen now cl) steps (queue, n) =
    ((queue ++ map insert_entry (fst (bind_steps gen now n steps)))%list,
     snd (bind_steps gen now n steps)).
Proof.
  intros Hcl. induction steps as [| step rest IH]; intros queue n; simpl.
  - now rewrite app_nil_r.
  - rewrite Hcl.
    destruct (bind_step gen now n step) as [p n1].
    rewrite IH.
    destruct (bind_steps gen now n1 rest) as [ps n2]. simpl.
    now rewrite <- app_assoc.
Qed.

Lemma length_bind_steps (gen : uuidGen) (now : Z) :
  forall steps n, List.length (fst (bind_steps gen now n steps)) = List.length steps.
Proof.
  induction steps as [| step rest IH]; intros n; simpl.
  - reflexivity.
  - destruct (bind_step gen now n step) as [p n1].
    specialize (IH n1). destruct (bind_steps gen now n1 rest) as [ps n2].
    simpl in *. now rewrite IH.
Qed.

(** The first phase: every [INSERT] of the queue runs before any of the
    statements their callbacks queue. *)
Lemma drain_inserts (now : Z) :
  forall ps pending c cl fuel,
    Z.of_nat (List.length ps) <= remaining cl ->
    (hasErrored cl = true -> Z.of_nat (List.length ps) < remaining cl) ->
    drain (List.length ps + fuel) now (map insert_entry ps ++ pending)%list c cl =
    drain fuel now (pending ++ followups now ps c cl)%list
          (fst (exec_inserts now ps c)) (closure_after now ps c cl).
Proof.
  induction ps as [| p ps IH]; intros pending c cl fuel Hle Herr.
  - unfold followups, closure_after. simpl.
    rewrite andb_false_r, app_nil_r, orb_false_r, Z.sub_0_r.
    now rewrite closure_eta.
  - cbn [List.length map app Nat.add drain insert_entry].
    unfold followups, closure_after. cbn [exec_inserts List.length].
    destruct (exec now (Insert p) c) as [c1 res] eqn:Hex.
    cbn [List.length] in Hle, Herr.
    destruct res as [e |]; cbn [run_callback unhandled].
    + (* the INSERT failed: a ROLLBACK is queued *)
      rewrite <- app_assoc.
      rewrite IH by (cbn [remaining hasErrored]; intros; lia).
      unfold followups, closure_after.
      destruct (exec_inserts now ps c1) as [c2 errs]. cbn [fst snd remaining hasErrored calls].
      assert (Hne : (remaining cl =? Z.of_nat (List.length ps)) = false)
        by (apply Z.eqb_neq; lia).
      rewrite Hne, andb_false_r. cbn [no_errors negb andb map List.length app].
      rewrite orb_true_r, <- app_assoc. cbn [app orb rollback_entry].
      do 2 f_equal. lia.
    + (* the INSERT succeeded: the counter goes down *)
      cbn [remaining hasErrored calls].
      destruct ((remaining cl - 1 =? 0) && negb (hasErrored cl))%bool eqn:Hzero.
      * apply andb_prop in Hzero. destruct Hzero as [Hz Hh].
        apply Z.eqb_eq in Hz. apply negb_true_iff in Hh.
        destruct ps as [| p' ps']; [ | cbn [List.length] in Hle; lia ].
        rewrite <- app_assoc.
        rewrite IH by (cbn [remaining hasErrored List.length]; intros; try congruence; lia).
        unfold followups, closure_after. cbn.
        replace (remaining cl =? 1) with true by (symmetry; apply Z.eqb_eq; lia).
        rewrite Hh. cbn.
        rewrite andb_false_r, app_nil_r, Z.sub_0_r. reflexivity.
      * rewrite app_nil_r.
        rewrite IH.
        2: { cbn [remaining]. lia. }
        2: { cbn [remaining hasErrored]. intros Hh. specialize (Herr Hh). lia. }
        unfold followups, closure_after.
        destruct (exec_inserts now ps c1) as [c2 errs]. cbn [fst snd remaining hasErrored calls].
        assert (Hcond :
                  ((remaining cl - 1 =? Z.of_nat (List.length ps))
                   && Nat.ltb 0 (List.length ps))%bool
                  = ((remaining cl =? Z.of_nat (S (List.length ps)))
                     && Nat.ltb 0 (S (List.length ps)))%bool).
        { cbn [Nat.ltb Nat.leb]. rewrite andb_true_r.
          destruct (Z.eqb_spec (remaining cl) (Z.of_nat (S (List.length ps)))) as [E | E].
          - replace (remaining cl - 1 =? Z.of_nat (List.length ps)) with true
              by (symmetry; apply Z.eqb_eq; lia).
            apply andb_false_iff in Hzero. destruct Hzero as [Hz | Hh].
            + apply Z.eqb_neq in Hz.
              destruct ps; [cbn in E; lia | reflexivity].
            + apply negb_false_iff in Hh. specialize (Herr Hh). lia.
          - replace (remaining cl - 1 =? Z.of_nat (List.length ps)) with false
              by (symmetry; apply Z.eqb_neq; lia).
            reflexivity. }
        rewrite <- !andb_assoc. rewrite Hcond.
        do 2 f_equal. lia.
Qed.

Lemma drain_quiet (now : Z) :
  forall queue c cl fuel,
    forallb quiet queue = true ->
    (List.length queue <= fuel)%nat ->
    drain fuel now queue c cl = (run_quiet now queue c cl, []).
Proof.
  induction queue as [| [s k] rest IH]; intros c cl fuel Hq Hlen.
  - rewrite drain_nil. reflexivity.
  - destruct fuel as [| fuel]; [cbn in Hlen; lia | ].
    cbn [forallb] in Hq. apply andb_prop in Hq. destruct Hq as [Hk Hrest].
    cbn [drain run_quiet]. destruct (exec now s c) as [c' res].
    assert (Hun : unhandled k res = false).
    { unfold quiet in Hk. cbn in Hk. destruct k; try discriminate; reflexivity. }
    rewrite Hun.
    assert (Hmore : snd (run_callback k res cl) = []).
    { unfold quiet in Hk. cbn in Hk. destruct k; try discriminate; reflexivity. }
    destruct (run_callback k res cl) as [cl' more]. cbn in Hmore. subst more.
    rewrite app_nil_r. apply IH; [assumption | cbn in Hlen; lia].
Qed.

Lemma length_errors (now : Z) :
  forall ps c, (List.length (snd (exec_inserts now ps c)) <= List.length ps)%nat.
Proof.
  induction ps as [| p ps IH]; intros c; cbn [exec_inserts].
  - cbn. lia.
  - destruct (exec now (Insert p) c) as [c1 res].
    specialize (IH c1). destruct (exec_inserts now ps c1) as [c2 errs].
    cbn [snd List.length] in *. destruct res; cbn [List.length]; lia.
Qed.

Lemma followups_quiet (now : Z) (ps : list insertParams) (c : conn) (cl : closure) :
  forallb quiet (followups now ps c cl) = true.
Proof.
  unfold followups. rewrite forallb_app. apply andb_true_intro. split.
  - induction (snd (exec_inserts now ps c)); [reflexivity | assumption].
  - now destruct (_ && _ && _)%bool.
Qed.

Lemma length_followups (now : Z) (ps : list insertParams) (c : conn) (cl : closure) :
  (List.length (followups now ps c cl) <= S (List.length ps))%nat.
Proof.
  unfold followups. pose proof (length_errors now ps c) as Hle.
  rewrite length_app, length_map.
  destruct (snd (exec_inserts now ps c)) as [| e errs]; cbn [no_errors andb].
  - destruct (_ && _)%bool; cbn; lia.
  - cbn in *. lia.
Qed.

Lemma exec_Begin (now : Z) (c : conn) :
  txn c = None ->
  exec now Begin c =
    (mkConn (table c) (Some (table c)) (faults c) (log c ++ [(Begin, None)]), None).
Proof. intros H. unfold exec, run_stmt. now rewrite H. Qed.

(** [createOutreachSteps] on a non-empty array, phase by phase: [BEGIN],
    the [INSERT]s, then what their callbacks queued.  The fuel given to
    the queue suffices: the queue is run to its end. *)
Lemma createOutreachSteps_phases (gen : uuidGen) (now : Z) (steps : list newStep)
  (c : conn) (n : nat) :
  steps <> [] ->
  txn c = None ->
  createOutreachSteps gen now (StepArray steps) c n =
    let ps := fst (bind_steps gen now n steps) in
    let c0 := fst (exec now Begin c) in
    let cl0 := mkClosure false (Z.of_nat (List.length steps)) [] in
    let final :=
      run_quiet now (followups now ps c0 cl0)
                (fst (exec_inserts now ps c0)) (closure_after now ps c0 cl0) in
    (fst final, snd (bind_steps gen now n steps), calls (snd final)).
Proof.
  intros Hne Htxn. unfold createOutreachSteps.
  destruct steps as [| s0 rest]; [congruence | ].
  set (steps := s0 :: rest) in *.
  replace (Nat.eqb (List.length steps) 0) with false by reflexivity.
  rewrite fold_queue_step by reflexivity.
  pose proof (length_bind_steps gen now steps n) as Hlen.
  set (ps := fst (bind_steps gen now n steps)) in *.
  cbn [app List.length].
  rewrite length_map.
  replace (2 * S (List.length ps))%nat
    with (S (List.length ps + S (List.length ps)))%nat by lia.
  cbn [drain]. rewrite (exec_Begin now c Htxn). cbn [unhandled run_callback fst].
  rewrite app_nil_r.
  rewrite <- (app_nil_r (map insert_entry ps)).
  rewrite drain_inserts.
  2: { cbn [remaining]. rewrite Hlen. lia. }
  2: { cbn [hasErrored]. discriminate. }
  cbn [app]. rewrite drain_quiet.
  2: { apply followups_quiet. }
  2: { apply length_followups. }
  cbv zeta.
  destruct (run_quiet _ _ _ _) as [c2 cl2]. reflexivity.
Qed.

(** ** The store: what the statements do *)

(** An [INSERT] leaves the transaction state alone, and adds at most the
    row of its parameters. *)
Lemma exec_Insert_cases (now : Z) (p : insertParams) (c : conn) :
  let c' := fst (exec now (Insert p) c) in
  let res := snd (exec now (Insert p) c) in
  txn c' = txn c /\
  faults c' = tl (faults c) /\
  log c' = (log c ++ [(Insert p, res)])%list /\
  ((exists e, res = Some e /\ table c' = table c) \/
   (exists r, res = None /\ row_of_params p now = Some r /\
              has_id (id r) (table c) = false /\
              hd false (faults c) = false /\
              table c' = (table c ++ [r])%list)).
Proof.
  unfold exec, run_stmt.
  destruct (hd false (faults c)) eqn:Hf; cbn.
  - repeat split. left. now exists StatementFault.
  - destruct (row_of_params p now) as [r |] eqn:Hr; cbn.
    + destruct (has_id (id r) (table c)) eqn:Hid; cbn.
      * repeat split. left. now exists PrimaryKeyConstraint.
      * repeat split. right. now exists r.
    + repeat split. left. now exists NotNullConstraint.
Qed.

Lemma exec_inserts_frame (now : Z) :
  forall ps c,
    let c' := fst (exec_inserts now ps c) in
    let errs := snd (exec_inserts now ps c) in
    txn c' = txn c /\
    (exists added,
        table c' = (table c ++ added)%list /\
        Forall (fun r => exists p, In p ps /\ row_of_params p now = Some r) added /\
        (List.length added + List.length errs = List.length ps)%nat) /\
    (exists l,
        log c' = (log c ++ l)%list /\
        errors_of l = errs /\
        map fst l = map Insert ps).
Proof.
  induction ps as [| p ps IH]; intros c; cbn [exec_inserts].
  - cbn. repeat split.
    + exists []. rewrite app_nil_r. repeat split. constructor.
    + exists []. now rewrite app_nil_r.
  - pose proof (exec_Insert_cases now p c) as Hp.
    destruct (exec now (Insert p) c) as [c1 res]. cbn [fst snd] in Hp.
    destruct Hp as (Ht & _ & Hl & Hcases).
    specialize (IH c1).
    destruct (exec_inserts now ps c1) as [c2 errs]. cbn [fst snd] in *.
    destruct IH as (Ht2 & (added & Hadd & Hall & Hlen) & (l & Hlog & Herrs & Hfst)).
    split; [congruence | ]. split.
    + destruct Hcases as [(e & -> & Htab) | (r & -> & Hr & _ & _ & Htab)].
      * exists added. rewrite Hadd, Htab. split; [reflexivity | ]. split.
        -- eapply Forall_impl; [ | exact Hall ].
           intros r (p' & Hin & Hr). exists p'. split; [now right | assumption].
        -- cbn [List.length]. lia.
      * exists (r :: added). rewrite Hadd, Htab, <- app_assoc.
        split; [reflexivity | ]. split.
        -- constructor.
           ++ exists p. split; [now left | assumption].
           ++ eapply Forall_impl; [ | exact Hall ].
              intros r' (p' & Hin & Hr'). exists p'. split; [now right | assumption].
        -- cbn [List.length]. lia.
    + exists ((Insert p, res) :: l). rewrite Hlog, Hl, <- app_assoc.
      split; [reflexivity | ]. split.
      * unfold errors_of in *. cbn. rewrite Herrs. now destruct res.
      * cbn. now rewrite Hfst.
Qed.

Lemma has_id_app (k : string) (t1 t2 : list row) :
  has_id k (t1 ++ t2) = (has_id k t1 || has_id k t2)%bool.
Proof. unfold has_id. apply existsb_app. Qed.

(** A batch of well-formed rows with fresh, distinct identifiers, on a
    connection without forced failures, is inserted whole. *)
Lemma exec_inserts_success (now : Z) :
  forall ps c,
    Forall (fun f => f = false) (faults c) ->
    Forall (fun p => row_of_params p now <> None) ps ->
    NoDup (map p_id ps) ->
    (forall p, In p ps -> has_id (p_id p) (table c) = false) ->
    snd (exec_inserts now ps c) = [] /\
    table (fst (exec_inserts now ps c)) = (table c ++ rows_of now ps)%list /\
    Forall (fun f => f = false) (faults (fst (exec_inserts now ps c))).
Proof.
  induction ps as [| p ps IH]; intros c Hf Hwf Hnd Hfresh; cbn [exec_inserts rows_of].
  - cbn. rewrite app_nil_r. auto.
  - pose proof (exec_Insert_cases now p c) as Hp.
    destruct (exec now (Insert p) c) as [c1 res] eqn:Hex. cbn [fst snd] in Hp.
    destruct Hp as (Ht & Hfl & Hl & Hcases).
    inversion Hwf as [| ? ? Hp_wf Hwf']; subst.
    cbn [map] in Hnd. inversion Hnd as [| ? ? Hnotin Hnd']; subst.
    assert (Hhd : hd false (faults c) = false).
    { destruct (faults c) as [| f fs]; [reflexivity | ].
      inversion Hf; subst. reflexivity. }
    assert (Hid : forall r, row_of_params p now = Some r -> id r = p_id p).
    { intros r. unfold row_of_params.
      destruct (p_dealId p), (p_dueDate p), (p_channel p), (p_intent p);
        try discriminate. now intros [= <-]. }
    destruct Hcases as [(e & He & _) | (r & Hres & Hr & _ & _ & Htab)].
    + exfalso. subst res. unfold exec, run_stmt in Hex. rewrite Hhd in Hex.
      destruct (row_of_params p now) as [r |] eqn:Hr; [ | congruence ].
      rewrite (Hid r eq_refl), (Hfresh p (or_introl eq_refl)) in Hex.
      discriminate.
    + subst res. rewrite Hr.
      assert (Hf1 : Forall (fun f => f = false) (faults c1)).
      { rewrite Hfl. destruct (faults c) as [| f fs]; [constructor | ].
        now inversion Hf. }
      assert (Hfresh1 : forall p', In p' ps -> has_id (p_id p') (table c1) = false).
      { intros p' Hin. rewrite Htab, has_id_app.
        rewrite (Hfresh p' (or_intror Hin)). cbn.
        rewrite orb_false_r. apply String.eqb_neq.
        rewrite (Hid r Hr). intros E. apply Hnotin.
        rewrite E. now apply in_map. }
      specialize (IH c1 Hf1 Hwf' Hnd' Hfresh1).
      destruct (exec_inserts now ps c1) as [c2 errs]. cbn [fst snd] in *.
      destruct IH as (-> & Htab2 & Hf2).
      repeat split; try assumption.
      rewrite Htab2, Htab, <- app_assoc. reflexivity.
Qed.

(** The [ROLLBACK]s: the first restores the table of [BEGIN], the others
    find no transaction; each calls [callback] with the error of its
    [INSERT]. *)
Lemma run_rollbacks (now : Z) :
  forall errs c cl,
    let final := run_quiet now (map rollback_entry errs) c cl in
    table (fst final) =
      match errs, txn c with
      | _ :: _, Some snapshot => snapshot
      | _, _ => table c
      end /\
    txn (fst final) = match errs with [] => txn c | _ :: _ => None end /\
    faults (fst final) = faults c /\
    calls (snd final) = (calls cl ++ map Some errs)%list /\
    exists l, log (fst final) = (log c ++ l)%list /\
              Forall (fun entry => fst entry = Rollback) l.
Proof.
  induction errs as [| e errs IH]; intros c cl.
  - cbn. rewrite app_nil_r. repeat split.
    exists []. now rewrite app_nil_r.
  - cbn [map rollback_entry run_quiet].
    unfold exec, run_stmt.
    destruct (txn c) as [snapshot |] eqn:Ht;
      cbn [fst snd run_callback table txn faults log].
    + specialize (IH (mkConn snapshot None (faults c) (log c ++ [(Rollback, None)]))
                     (mkClosure (hasErrored cl) (remaining cl) (calls cl ++ [Some e]))).
      cbv zeta in IH. cbn [txn table faults log calls] in IH.
      destruct IH as (Htab & Htx & Hfl & Hcalls & l & Hlog & Hall).
      repeat split.
      * rewrite Htab. now destruct errs.
      * rewrite Htx. now destruct errs.
      * assumption.
      * rewrite Hcalls, <- app_assoc. reflexivity.
      * exists ((Rollback, None) :: l). rewrite Hlog, <- app_assoc.
        split; [reflexivity | now constructor].
    + specialize (IH (mkConn (table c) (txn c) (faults c)
                             (log c ++ [(Rollback, Some NoTransaction)]))
                     (mkClosure (hasErrored cl) (remaining cl) (calls cl ++ [Some e]))).
      cbv zeta in IH. cbn [txn table faults log calls] in IH. rewrite Ht in IH.
      rewrite ?Ht.
      destruct IH as (Htab & Htx & Hfl & Hcalls & l & Hlog & Hall).
      repeat split.
      * rewrite Htab. now destruct errs.
      * rewrite Htx. now destruct errs.
      * assumption.
      * rewrite Hcalls, <- app_assoc. reflexivity.
      * exists ((Rollback, Some NoTransaction) :: l). rewrite Hlog, <- app_assoc.
        split; [reflexivity | now constructor].
Qed.

(** What a call of [createOutreachSteps] on a non-empty array comes to, on
    a connection with no transaction open: the batch is committed when no
    [INSERT] failed and rolled back otherwise, and [callback] hears of it. *)
Lemma createOutreachSteps_outcome (gen : uuidGen) (now : Z) (steps : list newStep)
  (c : conn) (n : nat) :
  steps <> [] ->
  txn c = None ->
  let ps := fst (bind_steps gen now n steps) in
  let c0 := mkConn (table c) (Some (table c)) (faults c) (log c ++ [(Begin, None)]) in
  let c1 := fst (exec_inserts now ps c0) in
  let errs := snd (exec_inserts now ps c0) in
  exists c' l,
    createOutreachSteps gen now (StepArray steps) c n =
      (c', snd (bind_steps gen now n steps),
       if no_errors errs then [None] else map Some errs) /\
    table c' = (if no_errors errs then table c1 else table c) /\
    txn c' = None /\
    faults c' = faults c1 /\
    log c' = (log c1 ++ l)%list /\
    Forall (fun entry => fst entry = Rollback \/ fst entry = Commit) l.
Proof.
  intros Hne Htxn ps c0 c1 errs.
  rewrite (createOutreachSteps_phases gen now steps c n Hne Htxn).
  rewrite (exec_Begin now c Htxn). cbn [fst]. fold ps c0.
  pose proof (exec_inserts_frame now ps c0) as (Ht1 & _ & _).
  fold c1 in Ht1. cbn [txn c0] in Ht1.
  unfold followups, closure_after. fold c1 errs. cbn [remaining hasErrored calls].
  destruct errs as [| e es] eqn:Herrs; cbn [no_errors andb map app negb orb].
  - assert (Hcond : ((Z.of_nat (List.length steps) =? Z.of_nat (List.length ps))
                     && Nat.ltb 0 (List.length ps))%bool = true).
    { unfold ps. rewrite length_bind_steps, Z.eqb_refl.
      destruct steps; [congruence | reflexivity]. }
    rewrite Hcond. cbn [run_quiet]. unfold exec, run_stmt. rewrite Ht1.
    cbn [fst snd run_callback table txn faults log calls app].
    eexists. exists [(Commit, None)]. repeat split.
    constructor; [now right | constructor].
  - rewrite app_nil_r.
    pose proof (run_rollbacks now (e :: es) c1
                  (mkClosure true
                     (Z.of_nat (List.length steps) -
                      (Z.of_nat (List.length ps) - Z.of_nat (List.length (e :: es))))
                     [])) as Hrb.
    cbv zeta in Hrb. rewrite Ht1 in Hrb. cbn [calls app map] in Hrb.
    destruct Hrb as (Htab & Htx & Hfl & Hcalls & l & Hlog & Hall).
    destruct (run_quiet now (rollback_entry e :: map rollback_entry es) c1 _)
      as [c2 cl2].
    cbn [fst snd] in *.
    exists c2, l. rewrite Hcalls. repeat split; try assumption.
    eapply Forall_impl; [ | exact Hall ]. intros entry H. now left.
Qed.

(** ** Properties of the store *)

(** C10. Called with an empty array, or with a value that is not an
    array, [createOutreachSteps] calls back with [null] at once: no
    statement runs on the connection (its trace is unchanged, no
    transaction is opened) and the stored steps are as before. *)
Theorem createOutreachSteps_empty_is_noop :
  forall (gen : uuidGen) (now : Z) (c : conn) (n : nat),
    createOutreachSteps gen now (StepArray []) c n = (c, n, [None]) /\
    (forall v : JS.value,
        createOutreachSteps gen now (NotArray v) c n = (c, n, [None])).
Proof.
  intros gen now c n. split.
  - reflexivity.
  - intros v. reflexivity.
Qed.

Lemma In_errors_of (s : stmt) (e : sqlError) (l : list (stmt * option sqlError)) :
  In (s, Some e) l -> In e (errors_of l).
Proof.
  intros H. unfold errors_of. apply in_flat_map.
  exists (s, Some e). split; [assumption | now left].
Qed.

(** C2. If any [INSERT] of a batch given to [createOutreachSteps] fails,
    then once the call is over the table holds exactly the rows it held
    before the call, no transaction is left open, and the callback was
    given an error: no step of the batch is stored. *)
Theorem createOutreachSteps_all_or_nothing :
  forall (gen : uuidGen) (now : Z) (arg : stepsArg) (c : conn) (n : nat)
         (l : list (stmt * option sqlError)) (p : insertParams) (e : sqlError),
    txn c = None ->
    log (fst (fst (createOutreachSteps gen now arg c n))) = (log c ++ l)%list ->
    In (Insert p, Some e) l ->
    table (fst (fst (createOutreachSteps gen now arg c n))) = table c /\
    txn (fst (fst (createOutreachSteps gen now arg c n))) = None /\
    (forall deal, getOutreachStepsForDeal deal (fst (fst (createOutreachSteps gen now arg c n)))
                  = getOutreachStepsForDeal deal c) /\
    exists e', hd_error (snd (createOutreachSteps gen now arg c n)) = Some (Some e').
Proof.
  intros gen now arg c n l p e Htxn Hlog Hin.
  assert (Hnoop : forall c', c' = c -> log c' = (log c ++ l)%list -> False).
  { intros c' -> H. rewrite <- (app_nil_r (log c)) in H at 1.
    apply app_inv_head in H. subst l. contradiction. }
  destruct arg as [v | steps].
  - exfalso. apply (Hnoop _ eq_refl Hlog).
  - destruct steps as [| s0 rest].
    + exfalso. apply (Hnoop _ eq_refl Hlog).
    + destruct (createOutreachSteps_outcome gen now (s0 :: rest) c n
                  ltac:(discriminate) Htxn)
        as (c' & l2 & Heq & Htab & Htx & _ & Hlog2 & Hl2).
      rewrite Heq in *. cbn [fst snd] in *.
      set (ps := fst (bind_steps gen now n (s0 :: rest))) in *.
      set (c0 := mkConn (table c) (Some (table c)) (faults c)
                        (log c ++ [(Begin, None)])) in *.
      destruct (exec_inserts_frame now ps c0) as (_ & _ & (l1 & Hlog1 & Herrs & Hfst)).
      rewrite Hlog1 in Hlog2. cbn [log c0] in Hlog2.
      rewrite Hlog2, <- !app_assoc in Hlog. apply app_inv_head in Hlog. subst l.
      assert (Hin1 : In (Insert p, Some e) l1).
      { cbn in Hin. destruct Hin as [Hb | Hin]; [discriminate | ].
        apply in_app_or in Hin. destruct Hin as [Hin | Hin]; [assumption | ].
        rewrite Forall_forall in Hl2. destruct (Hl2 _ Hin); discriminate. }
      apply In_errors_of in Hin1. rewrite Herrs in Hin1.
      destruct (snd (exec_inserts now ps c0)) as [| e1 es]; [contradiction | ].
      cbn [no_errors] in *.
      repeat split; try assumption.
      * intros deal. unfold getOutreachStepsForDeal. now rewrite Htab.
      * exists e1. reflexivity.
Qed.

Lemma createOutreachSteps_all_or_nothing_witness :
  let batch := StepArray [fresh_step "new-1"; fresh_step "old-1"; fresh_step "new-2"] in
  table (fst (fst (createOutreachSteps sample_uuid sample_today batch sample_conn 0)))
    = [old_row] /\
  hd_error (snd (createOutreachSteps sample_uuid sample_today batch sample_conn 0))
    = Some (Some PrimaryKeyConstraint).
Proof.
  intros batch.
  destruct (createOutreachSteps_all_or_nothing sample_uuid sample_today batch
              sample_conn 0
              (skipn 0 (log (fst (fst (createOutreachSteps sample_uuid sample_today
                                          batch sample_conn 0)))))
              (fst (bind_step sample_uuid sample_today 0 (fresh_step "old-1")))
              PrimaryKeyConstraint eq_refl eq_refl)
    as (Htab & _ & _ & e' & He').
  - vm_compute. right. right. left. reflexivity.
  - split; [exact Htab | reflexivity].
Defined.

Lemma bind_step_invariant (gen : uuidGen) (now : Z) (n : nat) (step : newStep) :
  let p := fst (bind_step gen now n step) in
  p_status p = "pending" <-> p_completedAt p = None.
Proof.
  unfold bind_step.
  destruct (match step_id step with
            | Some x => if (x =? "")%string then (gen n, S n) else (x, n)
            | None => (gen n, S n)
            end) as [ident n']. cbn [fst p_status p_completedAt].
  destruct (String.eqb_spec (str_or (step_status step) "pending") "pending") as [E | E].
  - tauto.
  - split; [contradiction | discriminate].
Qed.

Lemma bind_steps_invariant (gen : uuidGen) (now : Z) :
  forall steps n p,
    In p (fst (bind_steps gen now n steps)) ->
    p_status p = "pending" <-> p_completedAt p = None.
Proof.
  induction steps as [| step rest IH]; intros n p Hin; cbn [bind_steps] in Hin.
  - contradiction.
  - pose proof (bind_step_invariant gen now n step) as Hstep.
    destruct (bind_step gen now n step) as [p0 n1].
    specialize (IH n1 p).
    destruct (bind_steps gen now n1 rest) as [ps n2]. cbn [fst] in *.
    destruct Hin as [<- | Hin]; [exact Hstep | now apply IH].
Qed.

Lemma row_of_params_fields (p : insertParams) (now : Z) (r : row) :
  row_of_params p now = Some r ->
  id r = p_id p /\ p_dealId p = Some (dealId r) /\ p_dueDate p = Some (dueDate r) /\
  p_channel p = Some (channel r) /\ p_intent p = Some (intent r) /\
  goal r = bind_goal (p_goal p) /\ status r = p_status p /\
  createdAt r = now / 1000 /\ completedAt r = p_completedAt p.
Proof.
  unfold row_of_params.
  destruct (p_dealId p), (p_dueDate p), (p_channel p), (p_intent p);
    try discriminate.
  intros [= <-]. cbn. repeat split.
Qed.

Lemma createOutreachSteps_invariant (gen : uuidGen) (now : Z) (arg : stepsArg)
  (c : conn) (n : nat) :
  store_invariant c ->
  store_invariant (fst (fst (createOutreachSteps gen now arg c n))).
Proof.
  intros [Htxn Hinv].
  destruct arg as [v | [| s0 rest]]; try (split; assumption).
  destruct (createOutreachSteps_outcome gen now (s0 :: rest) c n
              ltac:(discriminate) Htxn)
    as (c' & l2 & Heq & Htab & Htx & _).
  rewrite Heq. cbn [fst].
  split; [assumption | ]. rewrite Htab.
  destruct (no_errors _); [ | assumption ].
  set (ps := fst (bind_steps gen now n (s0 :: rest))) in *.
  match goal with
  | |- context [exec_inserts now ps ?c0] =>
      destruct (exec_inserts_frame now ps c0) as (_ & (added & -> & Hadd & _) & _)
  end.
  cbn [table]. apply Forall_app. split; [assumption | ].
  eapply Forall_impl; [ | exact Hadd ].
  intros r (p & Hin & Hr).
  destruct (row_of_params_fields p now r Hr) as (_ & _ & _ & _ & _ & _ & Hs & _ & Hc).
  unfold step_invariant. rewrite Hs, Hc.
  exact (bind_steps_invariant gen now (s0 :: rest) n p Hin).
Qed.

Lemma update_status_invariant (now : Z) (stepId st : string) (r : row) :
  step_invariant r ->
  step_invariant
    (update_status stepId st (if (st =? "pending")%string then None else Some now) r).
Proof.
  intros Hr. unfold update_status.
  destruct (id r =? stepId)%string; [ | assumption ].
  unfold step_invariant. cbn.
  destruct (String.eqb_spec st "pending") as [E | E].
  - tauto.
  - split; [contradiction | discriminate].
Qed.

Lemma updateOutreachStepStatus_invariant (now : Z) (stepId st : string) (c : conn) :
  store_invariant c ->
  store_invariant (fst (updateOutreachStepStatus now stepId st c)).
Proof.
  intros [Htxn Hinv]. unfold updateOutreachStepStatus.
  destruct (Nat.eqb _ 0); cbn [fst]; (split; [exact Htxn | ]); cbn [table];
    apply Forall_map; (eapply Forall_impl; [ | exact Hinv ]);
    intros r Hr; now apply update_status_invariant.
Qed.

(** C3. The invariant of stored steps (a step is [pending] exactly when
    its [completedAt] is null) holds of every stored step right after any
    call of [createOutreachSteps] and right after any call of
    [updateOutreachStepStatus]: both calls keep it, so it holds of every
    connection reached from the empty table by such calls. *)
Theorem store_invariant_preserved :
  (forall c : conn,
      store_invariant c ->
      (forall (gen : uuidGen) (now : Z) (arg : stepsArg) (n : nat),
          store_invariant (fst (fst (createOutreachSteps gen now arg c n)))) /\
      (forall (now : Z) (stepId st : string),
          store_invariant (fst (updateOutreachStepStatus now stepId st c)))) /\
  (forall c : conn,
      reachable c ->
      forall r, In r (table c) -> (status r = "pending" <-> completedAt r = None)).
Proof.
  split.
  - intros c Hc. split.
    + intros gen now arg n. now apply createOutreachSteps_invariant.
    + intros now stepId st. now apply updateOutreachStepStatus_invariant.
  - intros c Hreach.
    assert (Hinv : store_invariant c).
    { induction Hreach as [plan trace | c gen now arg n _ IH | c now stepId st _ IH].
      - split; [reflexivity | constructor].
      - now apply createOutreachSteps_invariant.
      - now apply updateOutreachStepStatus_invariant. }
    destruct Hinv as [_ Hall]. rewrite Forall_forall in Hall. exact Hall.
Qed.

Lemma store_invariant_preserved_witness :
  store_invariant
    (fst (fst (createOutreachSteps sample_uuid sample_today
                 (StepArray [fresh_step "new-1"; fresh_step "new-2"])
                 sample_conn 0))) /\
  store_invariant
    (fst (updateOutreachStepStatus sample_today "old-1" "done" sample_conn)) /\
  (forall r,
      In r (table (fst (updateOutreachStepStatus sample_today "new-1" "done"
                          (fst (fst (createOutreachSteps sample_uuid sample_today
                                       (StepArray [fresh_step "new-1"])
                                       (mkConn [] None [] []) 0)))))) ->
      status r = "pending" <-> completedAt r = None).
Proof.
  assert (H0 : store_invariant sample_conn).
  { split; [reflexivity | ].
    constructor; [ | constructor ]. unfold step_invariant. cbn. tauto. }
  split; [ | split ].
  - apply (proj1 store_invariant_preserved sample_conn H0).
  - apply (proj1 store_invariant_preserved sample_conn H0).
  - apply (proj2 store_invariant_preserved).
    apply reach_update, reach_create, reach_empty.
Defined.

Lemma has_id_changes (stepId : string) (t : list row) :
  has_id stepId t = negb (Nat.eqb (changes stepId t) 0).
Proof.
  unfold has_id, changes. induction t as [| r t IH]; cbn.
  - reflexivity.
  - destruct (id r =? stepId)%string; cbn; [reflexivity | exact IH].
Qed.

Lemma update_status_absent (stepId st : string) (completed : option Z) (t : list row) :
  has_id stepId t = false -> map (update_status stepId st completed) t = t.
Proof.
  unfold has_id. induction t as [| r t IH]; cbn; intros H.
  - reflexivity.
  - apply orb_false_iff in H. destruct H as [Hr Ht].
    unfold update_status at 1. rewrite Hr. now rewrite IH.
Qed.

Lemma conn_eta (c : conn) : mkConn (table c) (txn c) (faults c) (log c) = c.
Proof. now destruct c. Qed.

(** C9. For an allowed status, [updateOutreachStepStatus] gives the steps
    with the given identifier the new status, with [completedAt] the
    current time when the status is not [pending] and null when it is, and
    leaves the other steps alone.  When no step has the identifier it
    returns the result [{ notFound: true }], not an error, the store is as
    before, and the route answers 404; when one has, the result is
    [{ notFound: false }] and the route answers 200. *)
Theorem updateOutreachStepStatus_sets_completedAt :
  forall (now : Z) (stepId st : string) (c : conn),
    In st allowedStatuses ->
    stepId <> "" ->
    let c' := fst (updateOutreachStepStatus now stepId st c) in
    let result := snd (updateOutreachStepStatus now stepId st c) in
    let completed := if (st =? "pending")%string then None else Some now in
    table c' = map (fun r => if (id r =? stepId)%string
                             then mkRow (id r) (dealId r) (dueDate r) (channel r)
                                        (intent r) (goal r) st (createdAt r) completed
                             else r) (table c) /\
    (forall r', In r' (table c') -> id r' = stepId ->
                status r' = st /\ completedAt r' = completed) /\
    (st = "pending" -> completed = None) /\
    (st <> "pending" -> completed = Some now) /\
    (has_id stepId (table c) = false ->
     result = {| notFound := true |} /\ c' = c /\
     patchStatusRoute now stepId (JS.Str st) c =
       (c, mkResponse 404 (ErrorBody "Outreach step not found"))) /\
    (has_id stepId (table c) = true ->
     result = {| notFound := false |} /\
     patchStatusRoute now stepId (JS.Str st) c = (c', mkResponse 200 (StatusBody st))).
Proof.
  intros now stepId st c Hst Hid c' result completed.
  assert (Hinc : JS.includes allowedStatuses (JS.Str st) = true).
  { cbn [JS.includes]. apply existsb_exists. exists st.
    split; [assumption | apply String.eqb_refl]. }
  assert (Hguard : ((stepId =? "")%string
                    || negb (JS.includes allowedStatuses (JS.Str st)))%bool = false).
  { rewrite Hinc. cbn. rewrite orb_false_r. now apply String.eqb_neq. }
  assert (Htab : table c' = map (update_status stepId st completed) (table c)).
  { unfold c', updateOutreachStepStatus. now destruct (Nat.eqb _ 0). }
  split; [exact Htab | ]. split; [ | split; [ | split; [ | split ]]].
  - intros r' Hin Hr'. rewrite Htab in Hin. apply in_map_iff in Hin.
    destruct Hin as (r & <- & _). unfold update_status in *.
    destruct (String.eqb_spec (id r) stepId) as [E | E]; cbn in *.
    + split; reflexivity.
    + contradiction.
  - intros ->. reflexivity.
  - intros Hne. unfold completed.
    destruct (String.eqb_spec st "pending"); [contradiction | reflexivity].
  - intros Habsent.
    assert (Hch : Nat.eqb (changes stepId (table c)) 0 = true).
    { rewrite has_id_changes in Habsent. now apply negb_false_iff in Habsent. }
    assert (Hc' : c' = c).
    { unfold c', updateOutreachStepStatus. rewrite Hch. cbn [fst].
      rewrite (update_status_absent _ _ _ _ Habsent). apply conn_eta. }
    split; [ | split ].
    + unfold result, updateOutreachStepStatus. now rewrite Hch.
    + exact Hc'.
    + unfold patchStatusRoute. rewrite Hguard.
      unfold updateOutreachStepStatus. rewrite Hch. cbn [notFound].
      rewrite (update_status_absent _ _ _ _ Habsent). now rewrite conn_eta.
  - intros Hpresent.
    assert (Hch : Nat.eqb (changes stepId (table c)) 0 = false).
    { rewrite has_id_changes in Hpresent. now apply negb_true_iff in Hpresent. }
    split.
    + unfold result, updateOutreachStepStatus. now rewrite Hch.
    + unfold patchStatusRoute. rewrite Hguard.
      unfold c', updateOutreachStepStatus. rewrite Hch. reflexivity.
Qed.

Lemma updateOutreachStepStatus_sets_completedAt_witness :
  table (fst (updateOutreachStepStatus sample_today "old-1" "done" sample_conn))
    = [ mkRow "old-1" "deal-1" 1790000000000 "email" "first_contact" GoalNull
              "done" 1789990000 (Some sample_today) ] /\
  patchStatusRoute sample_today "missing" (JS.Str "skipped") sample_conn
    = (sample_conn, mkResponse 404 (ErrorBody "Outreach step not found")).
Proof.
  split.
  - destruct (updateOutreachStepStatus_sets_completedAt sample_today "old-1" "done"
                sample_conn) as (Htab & _).
    + cbn. tauto.
    + discriminate.
    + exact Htab.
  - destruct (updateOutreachStepStatus_sets_completedAt sample_today "missing"
                "skipped" sample_conn) as (_ & _ & _ & _ & Habsent & _).
    + cbn. tauto.
    + discriminate.
    + apply (Habsent eq_refl).
Defined.

(** ** The listing of a deal's steps *)

Lemma insert_by_key_perm (r : row) (l : list row) :
  Permutation (r :: l) (insert_by_key r l).
Proof.
  induction l as [| x rest IH]; cbn.
  - apply Permutation_refl.
  - destruct (key_le (order_key r) (order_key x)).
    + apply Permutation_refl.
    + eapply perm_trans; [apply perm_swap | now apply perm_skip].
Qed.

Lemma order_by_key_perm (l : list row) : Permutation l (order_by_key l).
Proof.
  induction l as [| x rest IH]; cbn.
  - constructor.
  - eapply perm_trans; [apply perm_skip, IH | apply insert_by_key_perm].
Qed.

Lemma key_le_total (a b : option Z * Z) : key_le a b = false -> key_le b a = true.
Proof.
  unfold key_le. destruct a as [[a1|] a2], b as [[b1|] b2]; cbn;
    try discriminate; try reflexivity.
  - destruct (Z.ltb_spec a1 b1), (Z.eqb_spec a1 b1), (Z.leb_spec a2 b2),
      (Z.ltb_spec b1 a1), (Z.eqb_spec b1 a1), (Z.leb_spec b2 a2);
      cbn; intros; try reflexivity; try discriminate; lia.
  - rewrite Z.leb_gt, Z.leb_le. lia.
Qed.

Lemma insert_by_key_sorted (r : row) (l : list row) :
  Sorted in_order l -> Sorted in_order (insert_by_key r l).
Proof.
  induction l as [| x rest IH]; cbn; intros Hs.
  - repeat constructor.
  - destruct (key_le (order_key r) (order_key x)) eqn:Hle.
    + constructor; [assumption | now constructor].
    + inversion Hs as [| ? ? Hrest Hhd]; subst.
      constructor; [now apply IH | ].
      destruct rest as [| y rest']; cbn.
      * constructor. now apply key_le_total.
      * destruct (key_le (order_key r) (order_key y)).
        -- constructor. now apply key_le_total.
        -- constructor. now inversion Hhd.
Qed.

Lemma order_by_key_sorted (l : list row) : Sorted in_order (order_by_key l).
Proof.
  induction l as [| x rest IH]; cbn.
  - constructor.
  - now apply insert_by_key_sorted.
Qed.

(** The listing holds the steps of the deal, all of them and no others,
    by due date and then by creation time. *)
Lemma getOutreachStepsForDeal_spec (deal : string) (c : conn) :
  Permutation (filter (of_deal deal) (table c)) (getOutreachStepsForDeal deal c) /\
  Sorted in_order (getOutreachStepsForDeal deal c).
Proof.
  unfold getOutreachStepsForDeal. split.
  - apply order_by_key_perm.
  - apply order_by_key_sorted.
Qed.

(** ** The plan route *)

Lemma schedule_step_dealId (e : env) (deal : string) (today h : Z) (n : nat)
  (step : JS.value) (s : newStep) :
  schedule_step e deal today h n step = Pushed s -> step_dealId s = Some deal.
Proof.
  unfold schedule_step.
  destruct (offset_ok h step); cbn; [ | discriminate ].
  destruct (enums_ok step); cbn; [ | discriminate ].
  destruct (JS.get_opt step "offsetDays"); try discriminate.
  - destruct (due_date (tz e) today n0); [ | discriminate ].
    now intros [= <-].
  - destruct (due_date_decimal (tz e) today m e0); [ | discriminate ].
    now intros [= <-].
Qed.

Lemma collect_steps_dealId (e : env) (deal : string) (today h : Z) :
  forall steps acc n n' out,
    Forall (fun s => step_dealId s = Some deal) acc ->
    collect_steps e deal today h steps acc n = (n', Some out) ->
    Forall (fun s => step_dealId s = Some deal) out.
Proof.
  induction steps as [| step rest IH]; intros acc n n' out Hacc Hcol; cbn in Hcol.
  - now injection Hcol as <- <-.
  - destruct (schedule_step e deal today h n step) as [ | s | ] eqn:Hs.
    + eapply IH; eauto.
    + eapply IH; [ | exact Hcol ]. apply Forall_app. split; [assumption | ].
      constructor; [ | constructor ]. eapply schedule_step_dealId; eauto.
    + discriminate.
Qed.

Lemma bind_steps_dealId (gen : uuidGen) (now : Z) (deal : string) :
  forall steps n,
    Forall (fun s => step_dealId s = Some deal) steps ->
    Forall (fun p => p_dealId p = Some deal) (fst (bind_steps gen now n steps)).
Proof.
  induction steps as [| step rest IH]; intros n Hall; cbn [bind_steps].
  - constructor.
  - inversion Hall as [| ? ? Hstep Hrest]; subst.
    assert (Hp : p_dealId (fst (bind_step gen now n step)) = Some deal).
    { unfold bind_step. now destruct (step_id step) as [[ | ? ?] | ]. }
    destruct (bind_step gen now n step) as [p n1].
    specialize (IH n1 Hrest).
    destruct (bind_steps gen now n1 rest) as [ps n2]. cbn [fst] in *.
    now constructor.
Qed.

(** What one call of [buildAndStoreSteps] does to the store, by the way
    its promise ends. *)
Lemma buildAndStoreSteps_effect (e : env) (deal : string) (context : dealContext)
  (hasAnyContact : bool) (parsedHorizon today : Z) (modelSteps : JS.value)
  (w : world) :
  txn (db w) = None ->
  let w' := fst (buildAndStoreSteps e deal context hasAnyContact parsedHorizon
                   today modelSteps w) in
  let res := snd (buildAndStoreSteps e deal context hasAnyContact parsedHorizon
                    today modelSteps w) in
  txn (db w') = None /\
  match res with
  | Resolved (Some rows) =>
      exists batch,
        batch <> [] /\
        table (db w') = (table (db w) ++ batch)%list /\
        Forall (fun r => dealId r = deal) batch /\
        rows = getOutreachStepsForDeal deal (db w')
  | Resolved None | Rejected _ => table (db w') = table (db w)
  | Pending => False
  end.
Proof.
  intros Htxn. unfold buildAndStoreSteps.
  destruct (JS.or_else modelSteps (JS.Arr [])) as [ | | | | | | elems | ];
    try (cbn; split; [assumption | reflexivity]).
  destruct (map_throw (normalize_step (ctx_stage context) hasAnyContact) elems)
    as [normalizedSteps |]; [ | cbn; split; [assumption | reflexivity] ].
  destruct (collect_steps e deal today parsedHorizon normalizedSteps [] (uuidCalls w))
    as [n [stepsToInsert |]] eqn:Hcol;
    [ | cbn; split; [assumption | reflexivity] ].
  destruct stepsToInsert as [| s0 rest];
    [ cbn; split; [assumption | reflexivity] | ].
  cbn [List.length Nat.eqb].
  pose proof (collect_steps_dealId e deal today parsedHorizon _ _ _ _ _
                (Forall_nil _) Hcol) as Hdeal.
  destruct (createOutreachSteps_outcome (uuid e) today (s0 :: rest) (db w) n
              ltac:(discriminate) Htxn)
    as (c' & l2 & Heq & Htab & Htx & _).
  rewrite Heq.
  set (ps := fst (bind_steps (uuid e) today n (s0 :: rest))) in *.
  pose proof (bind_steps_dealId (uuid e) today deal _ n Hdeal) as Hps. fold ps in Hps.
  match type of Htab with
  | context [exec_inserts today ps ?c0] =>
      destruct (exec_inserts_frame today ps c0)
        as (_ & (added & Hadd & Hrows & Hlen) & _);
      destruct (snd (exec_inserts today ps c0)) as [| e1 es]
  end; cbn [no_errors map] in *.
  - cbn [fst snd db]. split; [assumption | ].
    exists added. rewrite Htab, Hadd. cbn [table].
    repeat split.
    + intros ->. cbn in Hlen. unfold ps in Hlen.
      rewrite length_bind_steps in Hlen. cbn in Hlen. lia.
    + eapply Forall_impl; [ | exact Hrows ].
      intros r (p & Hin & Hr).
      destruct (row_of_params_fields p today r Hr) as (_ & Hd & _).
      rewrite Forall_forall in Hps. rewrite (Hps p Hin) in Hd. now injection Hd.
  - cbn [fst snd db]. split; assumption.
Qed.

Lemma plan_answer_after (deal : string) (w w1 w2 : world) (rows : list row) :
  table (db w1) = table (db w) ->
  plan_answer deal w1 w2 rows -> plan_answer deal w w2 rows.
Proof.
  intros Heq (batch & Htab & Hrest). exists batch. rewrite <- Heq. now split.
Qed.

Lemma resolved_answer (e : env) (deal : string) (context : dealContext)
  (hasAnyContact : bool) (parsedHorizon today : Z) (modelSteps : JS.value)
  (w w' : world) (rows : option (list row)) :
  txn (db w) = None ->
  buildAndStoreSteps e deal context hasAnyContact parsedHorizon today modelSteps w
    = (w', Resolved rows) ->
  plan_answer deal w w' (rows_or_empty rows).
Proof.
  intros Htxn Heq.
  pose proof (buildAndStoreSteps_effect e deal context hasAnyContact parsedHorizon
                today modelSteps w Htxn) as Heff.
  rewrite Heq in Heff. cbn [fst snd] in Heff. destruct Heff as [_ Heff].
  destruct rows as [rows |]; cbn [rows_or_empty].
  - destruct Heff as (batch & Hne & Htab & Hdeal & Hrows).
    exists batch. repeat split; try assumption; [ | contradiction ].
    intros _. exact Hrows.
  - exists []. rewrite app_nil_r. repeat split; try assumption; try constructor.
    intros H. now contradiction H.
Qed.

Lemma respond_with_stub_answer (e : env) (deal : string) (context : dealContext)
  (hasAnyContact : bool) (parsedHorizon today : Z) (w w' : world)
  (d : string) (rows : list row) :
  txn (db w) = None ->
  respond_with_stub e deal context hasAnyContact parsedHorizon today w
    = (w', Some (mkResponse 200 (PlanBody d rows))) ->
  d = deal /\ plan_answer deal w w' rows.
Proof.
  intros Htxn. unfold respond_with_stub, handleStubResponse.
  destruct (buildAndStoreSteps e deal context hasAnyContact parsedHorizon today stub w)
    as [w1 [err | rows1 | ]] eqn:Hb; intros [= <- <- <-].
  split; [reflexivity | ].
  eapply resolved_answer; eauto.
Qed.

Lemma filter_all {A : Type} (f : A -> bool) (l : list A) :
  Forall (fun x => f x = true) l -> filter f l = l.
Proof.
  induction 1 as [| x l Hx _ IH]; cbn; [reflexivity | ]. now rewrite Hx, IH.
Qed.

(** C1 as amended. When the plan route answers 200 with a list of steps,
    the request has appended one batch of steps of the deal to the store;
    when that batch is not empty, the list returned is the listing of the
    deal after the insert: it holds the steps of the deal that were stored
    before the request together with the steps of the batch, each of them
    once and no others. *)
Theorem plan_returns_all_steps_of_deal :
  forall (e : env) (today : Z) (req : planRequest) (found : lookupResult)
         (activityRows : list JS.value) (generator : generatorOutcome)
         (w w' : world) (deal : string) (rows : list row),
    txn (db w) = None ->
    outreachPlanRoute e today req found activityRows generator w
      = (w', Some (mkResponse 200 (PlanBody deal rows))) ->
    exists batch,
      table (db w') = (table (db w) ++ batch)%list /\
      Forall (fun r => dealId r = deal) batch /\
      (batch <> [] ->
       rows = getOutreachStepsForDeal deal (db w') /\
       Permutation (filter (of_deal deal) (table (db w)) ++ batch) rows).
Proof.
  intros e today req found activityRows generator w w' deal rows Htxn Hroute.
  assert (Hans : plan_answer deal w w' rows).
  { unfold outreachPlanRoute in Hroute.
    destruct (req_dealId req) as [d |]; [ | discriminate ].
    destruct (d =? "")%string; [discriminate | ].
    destruct found as [ | | context]; try discriminate.
    set (hasAnyContact := (JS.truthy (ctx_lastActivityDate context)
                           || Nat.ltb 0 (List.length activityRows))%bool) in *.
    set (h := parseHorizon (req_horizonDays req)) in *.
    assert (Hfb : forall w1,
               txn (db w1) = None -> table (db w1) = table (db w) ->
               respond_with_stub e d context hasAnyContact h today w1
                 = (w', Some (mkResponse 200 (PlanBody deal rows))) ->
               plan_answer deal w w' rows).
    { intros w1 Ht1 Htab Hr.
      destruct (respond_with_stub_answer _ _ _ _ _ _ _ _ _ _ Ht1 Hr) as [<- Ha].
      eapply plan_answer_after; eauto. }
    destruct (negb (hasApiKey e)); [ now apply (Hfb w) | ].
    destruct generator as [ | parsed]; [ now apply (Hfb w) | ].
    pose proof (buildAndStoreSteps_effect e d context hasAnyContact h today
                  (JS.get_opt parsed "steps") w Htxn) as Heff1.
    destruct (buildAndStoreSteps e d context hasAnyContact h today
                (JS.get_opt parsed "steps") w) as [w1 res1] eqn:Hb1.
    cbn [fst snd] in Heff1. destruct Heff1 as [Ht1 Heff1].
    destruct res1 as [err | [created |] | ].
    - now apply (Hfb w1).
    - injection Hroute as <- <- <-.
      apply (resolved_answer _ _ _ _ _ _ _ _ _ (Some created) Htxn Hb1).
    - unfold handleStubResponse in Hroute.
      pose proof (buildAndStoreSteps_effect e d context hasAnyContact h today
                    stub w1 Ht1) as Heff2.
      destruct (buildAndStoreSteps e d context hasAnyContact h today stub w1)
        as [w2 res2] eqn:Hb2.
      cbn [fst snd] in Heff2. destruct Heff2 as [Ht2 Heff2].
      destruct res2 as [err | rows2 | ].
      + apply (Hfb w2); [assumption | congruence | assumption].
      + injection Hroute as <- <- <-.
        eapply plan_answer_after; [exact Heff1 | ].
        eapply resolved_answer; eauto.
      + discriminate.
    - discriminate. }
  destruct Hans as (batch & Htab & Hdeal & Hrows & _).
  exists batch. split; [assumption | ]. split; [assumption | ].
  intros Hne. specialize (Hrows Hne). subst rows.
  destruct (getOutreachStepsForDeal_spec deal (db w')) as [Hperm _].
  split; [reflexivity | ].
  rewrite Htab, filter_app in Hperm.
  rewrite (filter_all (of_deal deal) batch) in Hperm; [assumption | ].
  eapply Forall_impl; [ | exact Hdeal ].
  intros r Hr. unfold of_deal. rewrite Hr. apply String.eqb_refl.
Qed.

Lemma plan_returns_all_steps_of_deal_witness :
  let out := outreachPlanRoute sample_env sample_today sample_request
               (DealFound sample_context) [] GeneratorThrows sample_world in
  exists batch,
    table (db (fst out)) = (table (db sample_world) ++ batch)%list /\
    Forall (fun r => dealId r = "deal-1") batch /\
    (batch <> [] ->
     Permutation (filter (of_deal "deal-1") (table (db sample_world)) ++ batch)
                 (getOutreachStepsForDeal "deal-1" (db (fst out)))).
Proof.
  intros out.
  destruct (plan_returns_all_steps_of_deal sample_env sample_today sample_request
              (DealFound sample_context) [] GeneratorThrows sample_world (fst out)
              "deal-1" (getOutreachStepsForDeal "deal-1" (db (fst out)))
              eq_refl eq_refl) as (batch & Htab & Hdeal & Hrows).
  exists batch. split; [exact Htab | ]. split; [exact Hdeal | ].
  intros Hne. destruct (Hrows Hne) as (_ & Hperm).
  exact Hperm.
Defined.

(** A deal that already has a stored step asks for a plan: the three steps
    of the built-in sequence are persisted, and the list returned holds
    four steps, the older one first. *)
Lemma plan_returns_older_steps_counterexample :
  let out := outreachPlanRoute sample_env sample_today sample_request
               (DealFound sample_context) [] GeneratorThrows sample_world in
  let batch := stub_rows sample_env "deal-1" sample_today 0
                 1793692800000 1793952000000 1794297600000 in
  table (db sample_world) = [old_row] /\
  table (db (fst out)) = (table (db sample_world) ++ batch)%list /\
  snd out = Some (mkResponse 200 (PlanBody "deal-1" (old_row :: batch))) /\
  old_row :: batch <> batch /\
  ~ In old_row batch.
Proof.
  intros out batch.
  split; [reflexivity | ]. split; [reflexivity | ]. split; [reflexivity | ].
  split.
  - intros H. apply (f_equal (@List.length row)) in H. discriminate H.
  - intros H. cbn in H.
    repeat (destruct H as [H | H]; [discriminate H | ]). exact H.
Qed.

(** ** The fallback *)

Lemma normalize_new_first_contact (stage : JS.value) (b : bool) :
  stage_lower stage = Some "new" ->
  normalizeIntentForStage stage (JS.Str "first_contact") b = Some "first_contact".
Proof.
  intros H.
  now rewrite (normalize_truthy stage (JS.Str "first_contact") b _ _ eq_refl eq_refl H).
Qed.

(** An intent of the enumeration other than [first_contact] is kept when
    the stage can be read. *)
Lemma normalize_other_intent (stage : JS.value) (b : bool) (lowered i : string) :
  stage_lower stage = Some lowered ->
  JS.toLowerCase i = i ->
  (i =? "first_contact")%string = false ->
  has allowedIntents i = true ->
  normalizeIntentForStage stage (JS.Str i) b = Some i.
Proof.
  intros H Hlow Hne Hin.
  destruct (JS.truthy (JS.Str i)) eqn:Ht.
  - rewrite (normalize_truthy stage (JS.Str i) b _ _ Ht eq_refl H).
    unfold intent_for. rewrite Hlow, Hne, Hin. reflexivity.
  - cbn in Ht. destruct i; [discriminate Hin | discriminate Ht].
Qed.

(** The loop on a candidate written as the object literals of the
    built-in sequence are. *)
Lemma schedule_literal (e : env) (deal : string) (today h : Z) (n : nat)
  (off d : Z) (ch i : string) (g : JS.value) :
  0 <= off <= h ->
  has allowedChannels ch = true ->
  has allowedIntents i = true ->
  due_date (tz e) today off = Some d ->
  schedule_step e deal today h n
    (JS.Obj [ ("offsetDays", JS.Num off); ("channel", JS.Str ch);
              ("intent", JS.Str i); ("goal", g) ])
  = Pushed (mkStep (Some (uuid e n)) (Some deal) (Some d) (Some ch) (Some i)
                   (JS.or_else g JS.Null) (Some "pending")).
Proof.
  intros Hoff Hch Hi Hd. unfold schedule_step, offset_ok, enums_ok.
  cbn [JS.typeof JS.get_opt JS.get JS.lookup JS.includes String.eqb Ascii.eqb
       Bool.eqb andb orb negb as_string].
  unfold has in Hch, Hi. rewrite Hch, Hi, Hd.
  destruct (Z.ltb_spec off 0); [lia | ].
  destruct (Z.gtb_spec off h); [lia | ].
  reflexivity.
Qed.

Lemma fresh_ids_later (e : env) (w w1 : world) :
  fresh_ids e w ->
  table (db w1) = table (db w) ->
  (uuidCalls w <= uuidCalls w1)%nat ->
  fresh_ids e w1.
Proof.
  intros Hf Htab Hle i Hi.
  destruct (Hf i ltac:(lia)) as (Hne & Hid & Hinj).
  rewrite Htab. repeat split; try assumption.
  intros j Hj. apply Hinj. lia.
Qed.

Lemma collect_steps_counter (e : env) (deal : string) (today h : Z) :
  forall steps acc n,
    (n <= fst (collect_steps e deal today h steps acc n))%nat.
Proof.
  induction steps as [| step rest IH]; intros acc n; cbn.
  - lia.
  - destruct (schedule_step e deal today h n step).
    + apply IH.
    + specialize (IH (acc ++ [s])%list (S n)). lia.
    + cbn. lia.
Qed.

(** A call of [buildAndStoreSteps] that ends without an insert leaves the
    connection as it was. *)
Lemma buildAndStoreSteps_untouched (e : env) (deal : string) (context : dealContext)
  (hasAnyContact : bool) (parsedHorizon today : Z) (modelSteps : JS.value)
  (w w1 : world) (res : settled) :
  buildAndStoreSteps e deal context hasAnyContact parsedHorizon today modelSteps w
    = (w1, res) ->
  res = Resolved None \/ res = Rejected TypeError \/ res = Rejected RangeError ->
  db w1 = db w /\ (uuidCalls w <= uuidCalls w1)%nat.
Proof.
  unfold buildAndStoreSteps. intros Hb Hres.
  destruct (JS.or_else modelSteps (JS.Arr [])) as [ | | | | | | elems | ];
    try (injection Hb as <- <-; split; [reflexivity | lia]).
  destruct (map_throw (normalize_step (ctx_stage context) hasAnyContact) elems)
    as [normalizedSteps |]; [ | injection Hb as <- <-; split; [reflexivity | lia] ].
  pose proof (collect_steps_counter e deal today parsedHorizon normalizedSteps []
                (uuidCalls w)) as Hn.
  destruct (collect_steps e deal today parsedHorizon normalizedSteps [] (uuidCalls w))
    as [n [stepsToInsert |]]; cbn [fst] in Hn;
    [ | injection Hb as <- <-; split; [reflexivity | exact Hn] ].
  destruct (Nat.eqb (List.length stepsToInsert) 0);
    [ injection Hb as <- <-; split; [reflexivity | exact Hn] | ].
  destruct (createOutreachSteps (uuid e) today (StepArray stepsToInsert) (db w) n)
    as [[c' n'] outcome].
  destruct outcome as [| [createErr |] ?]; injection Hb as <- <-;
    destruct Hres as [H | [H | H]]; discriminate H.
Qed.

Lemma bind_pending_step (gen : uuidGen) (now : Z) (k : nat) (ident : string)
  (dl : option string) (du : option Z) (ch i : option string) (g : JS.value) :
  ident <> "" ->
  bind_step gen now k (mkStep (Some ident) dl du ch i g (Some "pending"))
  = (mkParams ident dl du ch i (JS.or_else g JS.Null) "pending" None, k).
Proof.
  intros Hne. unfold bind_step. cbn [step_id step_status str_or].
  apply String.eqb_neq in Hne. rewrite Hne. reflexivity.
Qed.

(** The built-in sequence for a deal in stage [New], on a healthy
    connection with fresh identifiers: its three steps are stored. *)
Lemma handleStubResponse_persists (e : env) (deal : string) (context : dealContext)
  (hasAnyContact : bool) (h today : Z) (w : world) (d0 d3 d7 : Z) :
  stage_lower (ctx_stage context) = Some "new" ->
  7 <= h ->
  healthy (db w) ->
  fresh_ids e w ->
  due_date (tz e) today 0 = Some d0 ->
  due_date (tz e) today 3 = Some d3 ->
  due_date (tz e) today 7 = Some d7 ->
  exists c',
    handleStubResponse e deal context hasAnyContact h today w =
      (mkWorld c' (uuidCalls w + 3), Resolved (Some (getOutreachStepsForDeal deal c'))) /\
    table c' = (table (db w) ++ stub_rows e deal today (uuidCalls w) d0 d3 d7)%list /\
    txn c' = None.
Proof.
  intros Hstage Hh [Htxn Hfaults] Hfresh H0 H3 H7.
  set (n := uuidCalls w) in *.
  destruct (Hfresh n ltac:(lia)) as (Hne0 & Hid0 & Hinj0).
  destruct (Hfresh (S n) ltac:(lia)) as (Hne1 & Hid1 & Hinj1).
  destruct (Hfresh (S (S n)) ltac:(lia)) as (Hne2 & Hid2 & _).
  unfold handleStubResponse, buildAndStoreSteps, stub.
  cbn [JS.or_else JS.truthy map_throw normalize_step JS.get JS.lookup JS.spread
       JS.set String.eqb Ascii.eqb Bool.eqb].
  rewrite (normalize_new_first_contact _ hasAnyContact Hstage).
  rewrite (normalize_other_intent _ hasAnyContact "new" "nurture_checkin" Hstage)
    by reflexivity.
  rewrite (normalize_other_intent _ hasAnyContact "new" "post_call_summary" Hstage)
    by reflexivity.
  cbn [collect_steps]. fold n.
  rewrite (schedule_literal e deal today h n 0 d0) by (try reflexivity; try assumption; lia).
  rewrite (schedule_literal e deal today h (S n) 3 d3)
    by (try reflexivity; try assumption; lia).
  rewrite (schedule_literal e deal today h (S (S n)) 7 d7)
    by (try reflexivity; try assumption; lia).
  cbn [app List.length Nat.eqb JS.or_else JS.truthy String.eqb negb].
  match goal with
  | |- context [createOutreachSteps (uuid e) today (StepArray ?steps) (db w) ?k] =>
      destruct (createOutreachSteps_outcome (uuid e) today steps (db w) k
                  ltac:(discriminate) Htxn)
        as (c' & l2 & Heq & Htab & Htx & _);
      rewrite Heq; clear Heq
  end.
  cbn [bind_steps] in Htab |- *.
  rewrite !bind_pending_step in Htab |- * by assumption.
  cbn [fst snd JS.or_else JS.truthy String.eqb negb] in Htab |- *.
  match type of Htab with
  | context [exec_inserts today ?ps ?c0] =>
      destruct (exec_inserts_success today ps c0) as (Herrs & Hrows & _)
  end.
  - exact Hfaults.
  - repeat constructor; discriminate.
  - cbn [map p_id]. repeat constructor; cbn [In].
    + intros [E | [E | []]]; symmetry in E; apply Hinj0 in E; unfold n in *; lia.
    + intros [E | []]. symmetry in E. apply Hinj1 in E; unfold n in *; lia.
    + intros [].
  - cbn [table]. intros p [<- | [<- | [<- | []]]]; assumption.
  - rewrite Herrs in Htab |- *. cbn [no_errors] in Htab |- *.
    rewrite Hrows in Htab. cbn [table rows_of row_of_params p_dealId p_dueDate
      p_channel p_intent p_id p_goal p_status p_completedAt] in Htab.
    exists c'. replace (n + 3)%nat with (S (S (S n))) by lia.
    repeat split; assumption.
Qed.

Lemma respond_with_stub_persists (e : env) (deal : string) (context : dealContext)
  (hasAnyContact : bool) (h today : Z) (w1 w : world) (d0 d3 d7 : Z) :
  stage_lower (ctx_stage context) = Some "new" ->
  7 <= h ->
  healthy (db w) ->
  fresh_ids e w ->
  db w1 = db w ->
  (uuidCalls w <= uuidCalls w1)%nat ->
  due_date (tz e) today 0 = Some d0 ->
  due_date (tz e) today 3 = Some d3 ->
  due_date (tz e) today 7 = Some d7 ->
  exists w',
    handleStubResponse e deal context hasAnyContact h today w1 =
      (w', Resolved (Some (getOutreachStepsForDeal deal (db w')))) /\
    respond_with_stub e deal context hasAnyContact h today w1 =
      (w', Some (mkResponse 200 (PlanBody deal (getOutreachStepsForDeal deal (db w'))))) /\
    table (db w') =
      (table (db w) ++ stub_rows e deal today (uuidCalls w1) d0 d3 d7)%list.
Proof.
  intros Hstage Hh Hhealthy Hfresh Hdb Hn H0 H3 H7.
  destruct (handleStubResponse_persists e deal context hasAnyContact h today w1
              d0 d3 d7 Hstage Hh) as (c' & Heq & Htab & _); try assumption.
  - now rewrite Hdb.
  - apply (fresh_ids_later e w w1 Hfresh); [now rewrite Hdb | assumption].
  - exists (mkWorld c' (uuidCalls w1 + 3)). cbn [db].
    split; [exact Heq | ]. split.
    + unfold respond_with_stub. rewrite Heq. reflexivity.
    + rewrite Htab, Hdb. reflexivity.
Qed.

(** C8. A deal in stage [New] asks for a plan with a horizon of at least
    seven days (14 is the default), and the generator is of no use: there
    is no API key, or the call threw, or its reply left no usable
    candidate or could not be read.  Then the route answers 200, never an
    error, and exactly the three steps of the built-in sequence are added
    to the store: [first_contact] by email due on offset 0,
    [nurture_checkin] by whatsapp due on offset 3, [post_call_summary] by
    call script due on offset 7, all [pending] and with no [completedAt].
    The connection is healthy, the identifiers to come are fresh and the
    three due dates are valid dates. *)
Theorem fallback_persists_three_steps :
  forall (e : env) (today : Z) (req : planRequest) (deal : string)
         (context : dealContext) (activityRows : list JS.value)
         (generator : generatorOutcome) (w : world) (d0 d3 d7 : Z),
    req_dealId req = Some deal ->
    deal <> "" ->
    stage_lower (ctx_stage context) = Some "new" ->
    7 <= parseHorizon (req_horizonDays req) ->
    generator_unusable e deal context
      (JS.truthy (ctx_lastActivityDate context) || Nat.ltb 0 (List.length activityRows))
      (parseHorizon (req_horizonDays req)) today generator w ->
    healthy (db w) ->
    fresh_ids e w ->
    due_date (tz e) today 0 = Some d0 ->
    due_date (tz e) today 3 = Some d3 ->
    due_date (tz e) today 7 = Some d7 ->
    exists w' n,
      outreachPlanRoute e today req (DealFound context) activityRows generator w
        = (w', Some (mkResponse 200
                       (PlanBody deal (getOutreachStepsForDeal deal (db w'))))) /\
      table (db w') = (table (db w) ++ stub_rows e deal today n d0 d3 d7)%list.
Proof.
  intros e today req deal context activityRows generator w d0 d3 d7
         Hreq Hdeal Hstage Hh Hgen Hhealthy Hfresh H0 H3 H7.
  unfold outreachPlanRoute. rewrite Hreq.
  apply String.eqb_neq in Hdeal. rewrite Hdeal.
  set (hasAnyContact := (JS.truthy (ctx_lastActivityDate context)
                         || Nat.ltb 0 (List.length activityRows))%bool) in *.
  set (h := parseHorizon (req_horizonDays req)) in *.
  assert (Hfb : forall w1,
             db w1 = db w -> (uuidCalls w <= uuidCalls w1)%nat ->
             exists w',
               handleStubResponse e deal context hasAnyContact h today w1 =
                 (w', Resolved (Some (getOutreachStepsForDeal deal (db w')))) /\
               respond_with_stub e deal context hasAnyContact h today w1 =
                 (w', Some (mkResponse 200
                              (PlanBody deal (getOutreachStepsForDeal deal (db w'))))) /\
               table (db w') =
                 (table (db w) ++ stub_rows e deal today (uuidCalls w1) d0 d3 d7)%list).
  { intros w1 Hdb Hn.
    apply (respond_with_stub_persists e deal context hasAnyContact h today w1 w);
      assumption. }
  destruct (hasApiKey e) eqn:Hkey; cbn [negb].
  2: { destruct (Hfb w eq_refl (le_n _)) as (w' & _ & Hr & Htab).
       exists w', (uuidCalls w). now split. }
  destruct Hgen as [Hk | [-> | (parsed & w1 & -> & Hb)]].
  - congruence.
  - destruct (Hfb w eq_refl (le_n _)) as (w' & _ & Hr & Htab).
    exists w', (uuidCalls w). now split.
  - destruct Hb as [Hb | [Hb | Hb]];
      destruct (buildAndStoreSteps_untouched _ _ _ _ _ _ _ _ _ _ Hb
                  ltac:(tauto)) as [Hdb Hn];
      destruct (Hfb w1 Hdb Hn) as (w' & Hs & Hr & Htab);
      rewrite Hb; exists w', (uuidCalls w1).
    + rewrite Hs. cbn [rows_or_empty]. now split.
    + now split.
    + now split.
Qed.

Lemma string_of_nat_inj (i j : nat) :
  JS.string_of_nat i = JS.string_of_nat j -> i = j.
Proof.
  unfold JS.string_of_nat. intros H. apply DecimalNat.Unsigned.to_uint_inj.
  assert (Hnil : forall n, Nat.to_uint n <> Decimal.Nil).
  { intros n Hn. pose proof (DecimalNat.Unsigned.to_of (Nat.to_uint n)) as K.
    rewrite DecimalNat.Unsigned.of_to in K. rewrite Hn in K. discriminate K. }
  assert (K : forall n, NilZero.uint_of_string (NilZero.string_of_uint (Nat.to_uint n))
                        = Some (Nat.to_uint n)).
  { intros n. apply NilZero.usu, Hnil. }
  pose proof (K i) as Ki. rewrite H, K in Ki. now injection Ki.
Qed.

Lemma sample_world_fresh : fresh_ids sample_env sample_world.
Proof.
  intros i _. repeat split.
  - discriminate.
  - intros j _ H. unfold sample_env, sample_uuid in H. cbn [uuid] in H.
    apply string_of_nat_inj. now injection H.
Qed.

Lemma fallback_persists_three_steps_witness :
  exists w' n,
    outreachPlanRoute sample_env sample_today sample_request
      (DealFound sample_context) [] GeneratorThrows sample_world
    = (w', Some (mkResponse 200
                   (PlanBody "deal-1" (getOutreachStepsForDeal "deal-1" (db w'))))) /\
    table (db w') =
      (table (db sample_world) ++
       stub_rows sample_env "deal-1" sample_today n
         1793692800000 1793952000000 1794297600000)%list.
Proof.
  apply (fallback_persists_three_steps sample_env sample_today sample_request
           "deal-1" sample_context [] GeneratorThrows sample_world
           1793692800000 1793952000000 1794297600000).
  - reflexivity.
  - discriminate.
  - reflexivity.
  - vm_compute. discriminate.
  - left. reflexivity.
  - split; [reflexivity | constructor].
  - exact sample_world_fresh.
  - reflexivity.
  - reflexivity.
  - reflexivity.
Defined.

(** ** Every request is answered *)

Lemma respond_with_stub_responds (e : env) (deal : string) (context : dealContext)
  (hasAnyContact : bool) (h today : Z) (w : world) :
  txn (db w) = None ->
  snd (respond_with_stub e deal context hasAnyContact h today w) <> None.
Proof.
  intros Htxn. unfold respond_with_stub, handleStubResponse.
  pose proof (buildAndStoreSteps_effect e deal context hasAnyContact h today
                stub w Htxn) as Heff.
  destruct (buildAndStoreSteps e deal context hasAnyContact h today stub w)
    as [w1 [err | rows | ]]; cbn [fst snd] in *; try discriminate.
  now destruct Heff.
Qed.

(** The promise of [buildAndStoreSteps] always settles, so the plan route
    sends a response to every request. *)
Lemma outreachPlanRoute_responds (e : env) (today : Z) (req : planRequest)
  (found : lookupResult) (activityRows : list JS.value)
  (generator : generatorOutcome) (w : world) :
  txn (db w) = None ->
  snd (outreachPlanRoute e today req found activityRows generator w) <> None.
Proof.
  intros Htxn. unfold outreachPlanRoute.
  destruct (req_dealId req) as [d |]; [ | discriminate ].
  destruct (d =? "")%string; [discriminate | ].
  destruct found as [ | | context]; try discriminate.
  set (hasAnyContact := (JS.truthy (ctx_lastActivityDate context)
                         || Nat.ltb 0 (List.length activityRows))%bool).
  set (h := parseHorizon (req_horizonDays req)).
  destruct (negb (hasApiKey e)); [ now apply respond_with_stub_responds | ].
  destruct generator as [ | parsed]; [ now apply respond_with_stub_responds | ].
  pose proof (buildAndStoreSteps_effect e d context hasAnyContact h today
                (JS.get_opt parsed "steps") w Htxn) as Heff1.
  destruct (buildAndStoreSteps e d context hasAnyContact h today
              (JS.get_opt parsed "steps") w) as [w1 res1].
  cbn [fst snd] in Heff1. destruct Heff1 as [Ht1 Heff1].
  destruct res1 as [err | [created |] | ]; try discriminate.
  - now apply respond_with_stub_responds.
  - unfold handleStubResponse.
    pose proof (buildAndStoreSteps_effect e d context hasAnyContact h today
                  stub w1 Ht1) as Heff2.
    destruct (buildAndStoreSteps e d context hasAnyContact h today stub w1)
      as [w2 res2].
    cbn [fst snd] in Heff2. destruct Heff2 as [Ht2 Heff2].
    destruct res2 as [err | rows2 | ]; try discriminate.
    + now apply respond_with_stub_responds.
    + contradiction.
  - contradiction.
Qed.

(* ================================================================== *)
(** * Part III: further properties of the code *)
(* ================================================================== *)

(** ** The listing and the status update *)

Lemma key_le_trans (a b c : option Z * Z) :
  key_le a b = true -> key_le b c = true -> key_le a c = true.
Proof.
  unfold key_le. destruct a as [[a1|] a2], b as [[b1|] b2], c as [[c1|] c2]; cbn;
    try discriminate; try reflexivity.
  - destruct (Z.ltb_spec a1 b1), (Z.eqb_spec a1 b1), (Z.leb_spec a2 b2),
      (Z.ltb_spec b1 c1), (Z.eqb_spec b1 c1), (Z.leb_spec b2 c2),
      (Z.ltb_spec a1 c1), (Z.eqb_spec a1 c1), (Z.leb_spec a2 c2);
      cbn; intros; try reflexivity; try discriminate; lia.
  - rewrite !Z.leb_le. lia.
Qed.

(** X1. [getOutreachStepsForDeal] returns the stored steps of the deal,
    each as often as it is stored and no step of another deal, whatever
    else the connection holds, in the order of [datetime(dueDate)] and
    then of the creation time: the steps whose due date SQLite does not
    read, those of a year outside 0 to 9999, come first, by creation
    time; after them every step is due no later (to the second, then by
    creation time) than every step after it. *)
Theorem listing_holds_the_deal_in_order :
  forall (deal : string) (c : conn),
    (forall r, In r (getOutreachStepsForDeal deal c) <->
               In r (table c) /\ dealId r = deal) /\
    Permutation (filter (of_deal deal) (table c)) (getOutreachStepsForDeal deal c) /\
    List.length (getOutreachStepsForDeal deal c)
      = List.length (filter (of_deal deal) (table c)) /\
    StronglySorted
      (fun a b =>
         match datetime_of_iso (dueDate a), datetime_of_iso (dueDate b) with
         | None, None => createdAt a <= createdAt b
         | None, Some _ => True
         | Some _, None => False
         | Some x, Some y => x < y \/ (x = y /\ createdAt a <= createdAt b)
         end)
      (getOutreachStepsForDeal deal c).
Proof.
  intros deal c.
  destruct (getOutreachStepsForDeal_spec deal c) as [Hperm Hsorted].
  split; [ | split; [exact Hperm | split ] ].
  - intros r. split.
    + intros Hin. apply (Permutation_in _ (Permutation_sym Hperm)) in Hin.
      apply filter_In in Hin. destruct Hin as [Hin Hd].
      split; [assumption | now apply String.eqb_eq in Hd].
    + intros [Hin Hd]. apply (Permutation_in _ Hperm).
      apply filter_In. split; [assumption | ]. unfold of_deal. rewrite Hd.
      apply String.eqb_refl.
  - symmetry. now apply Permutation_length.
  - apply Sorted_StronglySorted in Hsorted.
    + eapply StronglySorted_ind with (P := StronglySorted _);
        [ constructor | | exact Hsorted ].
      intros a l _ IH Hall. constructor; [exact IH | ].
      eapply Forall_impl; [ | exact Hall ].
      intros b Hab. unfold in_order, key_le, order_key in Hab.
      cbn [fst snd] in Hab.
      destruct (datetime_of_iso (dueDate a)) as [x|],
               (datetime_of_iso (dueDate b)) as [y|];
        try discriminate; try exact I; [ | now apply Z.leb_le ].
      apply orb_prop in Hab. destruct Hab as [Hlt | Heq].
      * left. now apply Z.ltb_lt.
      * apply andb_prop in Heq. destruct Heq as [He Hle]. right.
        split; [now apply Z.eqb_eq | now apply Z.leb_le].
    + intros x y z. unfold in_order. apply key_le_trans.
Qed.

(** A step due in the year 10000 is listed before a step due in 2026:
    [toISOString] writes its date as [+010000-01-01T00:00:00.000Z], in
    which [datetime] reads no date. *)
Example far_step_is_listed_first :
  datetime_of_iso (dueDate far_row) = None /\
  datetime_of_iso (dueDate far_row - 1) = Some 253402300799 /\
  dueDate old_row < dueDate far_row /\
  getOutreachStepsForDeal "deal-1" (mkConn [old_row; far_row] None [] [])
  = [far_row; old_row].
Proof. vm_compute. repeat split. Qed.

Lemma update_status_twice (stepId st : string) (d1 d2 : option Z) (r : row) :
  update_status stepId st d2 (update_status stepId st d1 r)
  = update_status stepId st d2 r.
Proof.
  unfold update_status.
  destruct (id r =? stepId)%string eqn:E; cbn.
  - now rewrite E.
  - now rewrite E.
Qed.

Lemma changes_after_update (stepId st : string) (d : option Z) (t : list row) :
  changes stepId (map (update_status stepId st d) t) = changes stepId t.
Proof.
  unfold changes. induction t as [| r t IH]; cbn; [reflexivity | ].
  unfold update_status at 1.
  destruct (id r =? stepId)%string eqn:E; cbn; rewrite E; cbn; now rewrite IH.
Qed.

Lemma filter_other_update (stepId st : string) (d : option Z) (t : list row) :
  filter (other_than stepId) (map (update_status stepId st d) t)
  = filter (other_than stepId) t.
Proof.
  induction t as [| r t IH]; cbn [map filter]; [reflexivity | ].
  rewrite IH. unfold update_status, other_than.
  destruct (id r =? stepId)%string eqn:E; cbn [id negb]; rewrite ?E; reflexivity.
Qed.

(** X2. [updateOutreachStepStatus] neither adds nor removes a step and
    touches no column but [status] and [completedAt]: identifiers, deals,
    due dates, channels, intents, goals and creation times stay as they
    are, in place, and the steps with another identifier are unchanged.
    It is idempotent: the same update again, at the same time, changes
    nothing and gives the same result; at a later time it gives the same
    result and the same statuses. *)
Theorem status_update_frame_and_idempotence :
  forall (now later : Z) (stepId st : string) (c : conn),
    let c' := fst (updateOutreachStepStatus now stepId st c) in
    let result := snd (updateOutreachStepStatus now stepId st c) in
    map fixed_columns (table c') = map fixed_columns (table c) /\
    filter (other_than stepId) (table c') = filter (other_than stepId) (table c) /\
    updateOutreachStepStatus now stepId st c' = (c', result) /\
    snd (updateOutreachStepStatus later stepId st c') = result /\
    map status (table (fst (updateOutreachStepStatus later stepId st c')))
      = map status (table c').
Proof.
  intros now later stepId st c c' result.
  assert (Htab : forall t, table (fst (updateOutreachStepStatus t stepId st c))
                           = map (update_status stepId st
                                    (if (st =? "pending")%string then None else Some t))
                                 (table c)).
  { intros t. unfold updateOutreachStepStatus. now destruct (Nat.eqb _ 0). }
  assert (Hres : forall t c0, snd (updateOutreachStepStatus t stepId st c0)
                              = {| notFound := Nat.eqb (changes stepId (table c0)) 0 |}).
  { intros t c0. unfold updateOutreachStepStatus. now destruct (Nat.eqb _ 0). }
  assert (Hfst : forall t c0, fst (updateOutreachStepStatus t stepId st c0)
                   = mkConn (map (update_status stepId st
                                    (if (st =? "pending")%string then None else Some t))
                                 (table c0)) (txn c0) (faults c0) (log c0)).
  { intros t c0. unfold updateOutreachStepStatus. now destruct (Nat.eqb _ 0). }
  split; [ | split; [ | split; [ | split ] ] ].
  - unfold c'. rewrite Htab, map_map. apply map_ext.
    intros r. unfold update_status, fixed_columns.
    now destruct (id r =? stepId)%string.
  - unfold c'. rewrite Htab. apply filter_other_update.
  - rewrite (surjective_pairing (updateOutreachStepStatus now stepId st c')).
    f_equal.
    + rewrite Hfst. unfold c' at 1. rewrite Htab, map_map.
      rewrite (map_ext _ _ (update_status_twice stepId st _ _)).
      unfold c'. rewrite (Hfst now c). reflexivity.
    + unfold result. rewrite !Hres. unfold c'. rewrite Htab.
      now rewrite changes_after_update.
  - unfold result. rewrite !Hres. unfold c'. rewrite Htab.
    now rewrite changes_after_update.
  - rewrite Hfst. cbn [table]. unfold c'. rewrite Htab, !map_map.
    apply map_ext. intros r. unfold update_status.
    destruct (id r =? stepId)%string eqn:E; cbn; rewrite E; reflexivity.
Qed.

(** ** The normalizer again *)

Lemma lower_ascii_idempotent (c : ascii) :
  JS.lower_ascii (JS.lower_ascii c) = JS.lower_ascii c.
Proof.
  destruct c as [[] [] [] [] [] [] [] []]; reflexivity.
Qed.

Lemma toLowerCase_idempotent (s : string) :
  JS.toLowerCase (JS.toLowerCase s) = JS.toLowerCase s.
Proof.
  induction s as [| c s IH]; cbn; [reflexivity | ].
  now rewrite lower_ascii_idempotent, IH.
Qed.

Lemma toLowerCase_empty (s : string) :
  (JS.toLowerCase s =? "")%string = (s =? "")%string.
Proof. now destruct s. Qed.

Lemma enumeration_is_lower_case (i : string) :
  In i allowedIntents -> JS.toLowerCase i = i /\ i <> "".
Proof.
  intros H. cbn in H.
  repeat (destruct H as [<- | H]; [split; [reflexivity | discriminate] | ]).
  contradiction.
Qed.

(** What the normalizer returns on string arguments, in terms of their
    lower-cased forms alone. *)
Lemma normalize_strings (s i : string) (b : bool) :
  normalizeIntentForStage (JS.Str s) (JS.Str i) b =
    Some (if (JS.toLowerCase i =? "")%string then "nurture_checkin"
          else intent_for (JS.toLowerCase s) (JS.toLowerCase i) b).
Proof.
  rewrite toLowerCase_empty.
  destruct (String.eqb_spec i "") as [-> | Hi].
  - reflexivity.
  - apply normalize_truthy.
    + cbn. apply negb_true_iff. now apply String.eqb_neq.
    + reflexivity.
    + unfold stage_lower. cbn [JS.truthy JS.to_string option_map].
      destruct (String.eqb_spec s "") as [-> | Hs]; reflexivity.
Qed.

(** X3. The normalizer compares without regard to letter case: two
    stages that agree once lower-cased, and two requested intents that
    agree once lower-cased, are normalized to the same intent. *)
Theorem normalize_ignores_letter_case :
  forall (stage1 stage2 intent1 intent2 : string) (hasPriorContact : bool),
    JS.toLowerCase stage1 = JS.toLowerCase stage2 ->
    JS.toLowerCase intent1 = JS.toLowerCase intent2 ->
    normalizeIntentForStage (JS.Str stage1) (JS.Str intent1) hasPriorContact
    = normalizeIntentForStage (JS.Str stage2) (JS.Str intent2) hasPriorContact.
Proof.
  intros s1 s2 i1 i2 b Hs Hi.
  rewrite !normalize_strings. now rewrite Hs, Hi.
Qed.

Lemma normalize_ignores_letter_case_witness :
  normalizeIntentForStage (JS.Str "PROPOSAL SENT") (JS.Str "First_Contact") false
  = normalizeIntentForStage (JS.Str "Proposal Sent") (JS.Str "first_contact") false.
Proof.
  apply (normalize_ignores_letter_case "PROPOSAL SENT" "Proposal Sent"
           "First_Contact" "first_contact" false); reflexivity.
Defined.

(** The choice by stage is idempotent in the intent. *)
Lemma intent_for_idempotent (lowered intent : string) (b : bool) :
  intent_for lowered (intent_for lowered intent b) b = intent_for lowered intent b.
Proof.
  assert (Hkeep : forall r, In r allowedIntents -> r <> "first_contact" ->
                            intent_for lowered r b = r).
  { intros r Hr Hne. unfold intent_for.
    apply String.eqb_neq in Hne. rewrite Hne.
    apply has_In in Hr. now rewrite Hr. }
  unfold intent_for at 2 3. cbv zeta.
  assert (Hfall : intent <> "first_contact" ->
            intent_for lowered
              (if has allowedIntents intent then intent else "nurture_checkin") b
            = (if has allowedIntents intent then intent else "nurture_checkin")).
  { intros Hne. destruct (has allowedIntents intent) eqn:Hh.
    - apply Hkeep; [now apply has_In | assumption].
    - apply Hkeep; [in_enum | discriminate]. }
  destruct (String.eqb_spec intent "first_contact") as [E | E]; [ | now apply Hfall ].
  rewrite E. change (has allowedIntents "first_contact") with true. cbv iota.
  destruct (lowered =? "new")%string eqn:E1.
  { unfold intent_for. now rewrite E1. }
  destruct (lowered =? "qualified")%string eqn:E2.
  { apply Hkeep; [in_enum | discriminate]. }
  destruct ((lowered =? "proposal sent") || (lowered =? "proposal_sent"))%string%bool
    eqn:E3.
  { apply Hkeep; [in_enum | discriminate]. }
  destruct (lowered =? "won")%string eqn:E4.
  { apply Hkeep; [in_enum | discriminate]. }
  destruct (lowered =? "lost")%string eqn:E5.
  { apply Hkeep; [in_enum | discriminate]. }
  destruct b.
  { apply Hkeep; [in_enum | discriminate]. }
  unfold intent_for. cbv zeta.
  change ("first_contact" =? "first_contact")%string with true.
  change (has allowedIntents "first_contact") with true. cbv iota.
  now rewrite E1, E2, E3, E4, E5.
Qed.

(** X4. Normalizing is idempotent: an intent the normalizer returned is
    returned unchanged when it is normalized again for the same stage and
    the same contact history, provided the stage can be converted to a
    string, as every stage that is not an object can.  When the
    conversion of the stage throws, the normalizer returned its default
    for a falsy intent without reading the stage, and normalizing that
    default again throws. *)
Theorem normalize_is_idempotent :
  forall (stage requested : JS.value) (hasPriorContact : bool) (result : string),
    normalizeIntentForStage stage requested hasPriorContact = Some result ->
    (stage_lower stage <> None ->
     normalizeIntentForStage stage (JS.Str result) hasPriorContact = Some result) /\
    (primitive stage = true ->
     normalizeIntentForStage stage (JS.Str result) hasPriorContact = Some result) /\
    (stage_lower stage = None ->
     result = "nurture_checkin" /\
     normalizeIntentForStage stage (JS.Str result) hasPriorContact = None).
Proof.
  intros stage i b r Hr.
  assert (Hin : In r allowedIntents) by (eapply normalize_in_enumeration; eauto).
  destruct (enumeration_is_lower_case r Hin) as [Hlow Hnonempty].
  assert (Htr : JS.truthy (JS.Str r) = true).
  { cbn. apply negb_true_iff. now apply String.eqb_neq. }
  assert (Hread : stage_lower stage <> None ->
            normalizeIntentForStage stage (JS.Str r) b = Some r).
  { intros Hs. destruct (stage_lower stage) as [lowered |] eqn:Hl; [ | contradiction ].
    rewrite (normalize_truthy stage (JS.Str r) b r lowered Htr eq_refl Hl).
    rewrite Hlow. f_equal.
    unfold normalizeIntentForStage in Hr.
    destruct (JS.truthy i); cbn [negb] in Hr.
    - destruct (JS.to_string i) as [text |]; [ | discriminate ].
      rewrite Hl in Hr. cbv beta iota zeta in Hr.
      injection Hr as <-. apply intent_for_idempotent.
    - injection Hr as <-. unfold intent_for. cbn.
      reflexivity. }
  split; [exact Hread | ]. split.
  - intros Hp. apply Hread.
    destruct (stage_lower_primitive stage Hp) as [lowered ->]. discriminate.
  - intros Hnone. unfold normalizeIntentForStage in Hr |- *.
    rewrite Htr. cbn [negb JS.to_string]. rewrite Hnone.
    destruct (JS.truthy i); cbn [negb] in Hr.
    + rewrite Hnone in Hr. destruct (JS.to_string i); discriminate.
    + injection Hr as <-. split; reflexivity.
Qed.

Lemma normalize_is_idempotent_witness :
  normalizeIntentForStage (JS.Str "Lost") (JS.Str "FIRST_CONTACT") false
    = Some "deal_recovery" /\
  normalizeIntentForStage (JS.Str "Lost") (JS.Str "deal_recovery") false
    = Some "deal_recovery".
Proof.
  split; [reflexivity | ].
  destruct (normalize_is_idempotent (JS.Str "Lost") (JS.Str "FIRST_CONTACT") false
              "deal_recovery" eq_refl) as [H _].
  apply H. discriminate.
Defined.

(** A stage whose conversion to a string throws, and no intent: the
    default is returned, and cannot be normalized again. *)
Example normalize_again_throws :
  let stage := JS.Obj [("toString", JS.Num 1)] in
  normalizeIntentForStage stage JS.Undefined false = Some "nurture_checkin" /\
  normalizeIntentForStage stage (JS.Str "nurture_checkin") false = None.
Proof. split; reflexivity. Qed.

(** ** The scheduler again *)

Lemma TimeClip_Some (t d : Z) : TimeClip t = Some d -> d = t.
Proof.
  unfold TimeClip. destruct (Z.abs t >? 8640000000000000); [discriminate | ].
  now intros [= <-].
Qed.

Lemma due_date_fixed_zone (offset today off d : Z) :
  due_date (fixed_zone offset) today off = Some d ->
  d = today + off * msPerDay + (9 * msPerHour - TimeWithinDay (today + offset)).
Proof.
  unfold due_date, toISOString, setHours, getDate, setDate.
  cbn [LocalTime UTC fixed_zone].
  destruct (TimeClip (MakeDate (Day (today + offset)) (MakeTime 9 0 0 0) - offset))
    as [u |] eqn:Hu; [ | discriminate ].
  apply TimeClip_Some in Hu. intros Hd. apply TimeClip_Some in Hd.
  rewrite MakeDay_shift, MakeDate_Day_TimeWithinDay in Hd.
  subst u d. unfold MakeDate, MakeTime, Day, TimeWithinDay.
  pose proof (Z.div_mod (today + offset) msPerDay ltac:(discriminate)) as Hdm.
  unfold msPerMinute, msPerSecond. lia.
Qed.

(** X5. In a zone at a fixed offset from UTC the steps of a plan are due
    whole days apart, in the order of their offsets: the due date of
    offset [n] is the anchor moved to 09:00 local time of its day, plus [n]
    days.  So the step of offset 0 is already due when the plan is
    generated at or after 09:00 local time, and only then. *)
Theorem due_dates_are_whole_days_apart :
  forall (offset today off1 off2 d1 d2 : Z),
    due_date (fixed_zone offset) today off1 = Some d1 ->
    due_date (fixed_zone offset) today off2 = Some d2 ->
    d1 = today + off1 * msPerDay + (9 * msPerHour - TimeWithinDay (today + offset)) /\
    d2 - d1 = (off2 - off1) * msPerDay /\
    (d1 <= d2 <-> off1 <= off2) /\
    (off1 = 0 -> (d1 <= today <-> 9 * msPerHour <= TimeWithinDay (today + offset))).
Proof.
  intros offset today off1 off2 d1 d2 H1 H2.
  apply due_date_fixed_zone in H1, H2.
  unfold msPerDay, msPerHour in *. repeat split; intros; lia.
Qed.

Lemma due_dates_are_whole_days_apart_witness :
  1793692800000 = sample_today + 0 * msPerDay
                  + (9 * msPerHour - TimeWithinDay (sample_today + 3600000)) /\
  1794297600000 - 1793692800000 = (7 - 0) * msPerDay /\
  (1793692800000 <= 1794297600000 <-> 0 <= 7) /\
  (0 = 0 -> (1793692800000 <= sample_today
             <-> 9 * msPerHour <= TimeWithinDay (sample_today + 3600000))).
Proof.
  exact (due_dates_are_whole_days_apart 3600000 sample_today 0 7
           1793692800000 1794297600000 eq_refl eq_refl).
Defined.

(** ** The batch again *)

Lemma run_rollbacks_trace (now : Z) :
  forall errs c cl,
    txn c = None ->
    log (fst (run_quiet now (map rollback_entry errs) c cl))
    = (log c ++ repeat (Rollback, Some NoTransaction) (List.length errs))%list.
Proof.
  induction errs as [| e errs IH]; intros c cl Htxn.
  - cbn. now rewrite app_nil_r.
  - cbn [map rollback_entry run_quiet]. unfold exec, run_stmt. rewrite Htxn.
    cbn [fst snd run_callback table txn faults log].
    rewrite IH by exact Htxn. cbn [log List.length repeat].
    now rewrite <- app_assoc.
Qed.

Lemma createOutreachSteps_trace (gen : uuidGen) (now : Z) (steps : list newStep)
  (c : conn) (n : nat) :
  steps <> [] ->
  txn c = None ->
  exists ins,
    map fst ins = map Insert (fst (bind_steps gen now n steps)) /\
    log (fst (fst (createOutreachSteps gen now (StepArray steps) c n)))
    = (log c ++ (Begin, None) :: ins ++ closing_statements (errors_of ins))%list /\
    snd (createOutreachSteps gen now (StepArray steps) c n)
    = callback_calls (errors_of ins).
Proof.
  intros Hne Htxn.
  rewrite (createOutreachSteps_phases gen now steps c n Hne Htxn).
  rewrite (exec_Begin now c Htxn). cbn [fst snd].
  set (ps := fst (bind_steps gen now n steps)).
  set (c0 := mkConn (table c) (Some (table c)) (faults c) (log c ++ [(Begin, None)])).
  destruct (exec_inserts_frame now ps c0) as (Ht1 & _ & (ins & Hlog & Herrs & Hfst)).
  exists ins. split; [exact Hfst | ].
  unfold followups, closure_after. rewrite <- Herrs.
  cbn [remaining hasErrored calls txn log c0] in *.
  set (c1 := fst (exec_inserts now ps c0)) in *.
  destruct (errors_of ins) as [| e es]; cbn [no_errors andb map app negb orb].
  - assert (Hcond : ((Z.of_nat (List.length steps) =? Z.of_nat (List.length ps))
                     && Nat.ltb 0 (List.length ps))%bool = true).
    { unfold ps. rewrite length_bind_steps, Z.eqb_refl.
      destruct steps; [congruence | reflexivity]. }
    rewrite Hcond. cbn [run_quiet]. unfold exec, run_stmt. rewrite Ht1.
    cbn [fst snd run_callback table txn faults log calls app closing_statements
         callback_calls].
    rewrite Hlog. split; [ | reflexivity ].
    rewrite <- !app_assoc. reflexivity.
  - rewrite app_nil_r.
    cbn [map rollback_entry run_quiet]. unfold exec at 1 2, run_stmt. rewrite Ht1.
    cbn [fst snd run_callback table txn faults log calls app].
    match goal with
    | |- context [run_quiet now (map rollback_entry es) ?c2 ?cl2] =>
        pose proof (run_rollbacks now es c2 cl2) as Hrb;
        pose proof (run_rollbacks_trace now es c2 cl2 eq_refl) as Htr;
        destruct (run_quiet now (map rollback_entry es) c2 cl2) as [c3 cl3]
    end.
    cbv zeta in Hrb. cbn [fst snd calls log] in *.
    destruct Hrb as (_ & _ & _ & Hcalls & _).
    rewrite Htr, Hcalls, Hlog. cbn [closing_statements callback_calls map].
    split; [ | reflexivity ].
    rewrite <- !app_assoc. reflexivity.
Qed.

(** X6. A batch of steps whose NOT NULL columns are all given and whose
    identifiers, once the missing ones are generated, are pairwise
    distinct and not yet stored, on a connection with no transaction open
    and no failure forced, is stored whole: the rows are appended in the
    order of the batch, the transaction is closed, and the callback is
    called once, with [null]. *)
Theorem createOutreachSteps_stores_a_sound_batch :
  forall (gen : uuidGen) (now : Z) (steps : list newStep) (c : conn) (n : nat),
    steps <> [] ->
    healthy c ->
    Forall (fun p => row_of_params p now <> None) (fst (bind_steps gen now n steps)) ->
    NoDup (map p_id (fst (bind_steps gen now n steps))) ->
    (forall p, In p (fst (bind_steps gen now n steps)) ->
               has_id (p_id p) (table c) = false) ->
    let out := createOutreachSteps gen now (StepArray steps) c n in
    table (fst (fst out))
      = (table c ++ rows_of now (fst (bind_steps gen now n steps)))%list /\
    List.length (table (fst (fst out)))
      = (List.length (table c) + List.length steps)%nat /\
    txn (fst (fst out)) = None /\
    snd out = [None].
Proof.
  intros gen now steps c n Hne [Htxn Hfaults] Hwf Hnd Hfresh out.
  destruct (createOutreachSteps_outcome gen now steps c n Hne Htxn)
    as (c' & l & Heq & Htab & Htx & _).
  set (ps := fst (bind_steps gen now n steps)) in *.
  match type of Htab with
  | context [exec_inserts now ps ?c0] =>
      destruct (exec_inserts_success now ps c0 Hfaults Hwf Hnd Hfresh)
        as (Herrs & Hrows & _);
      destruct (exec_inserts_frame now ps c0) as (_ & (added & Hadd & _ & Hlen) & _)
  end.
  rewrite Herrs in *. cbn [no_errors] in *.
  unfold out. rewrite Heq. cbn [fst snd].
  rewrite Htab, Hrows. cbn [table].
  repeat split; try assumption.
  rewrite Hrows in Hadd. cbn [table] in Hadd. apply app_inv_head in Hadd.
  rewrite length_app, Hadd. cbn [List.length] in Hlen.
  unfold ps in Hlen. rewrite length_bind_steps in Hlen. lia.
Qed.

Lemma createOutreachSteps_stores_a_sound_batch_witness :
  let out := createOutreachSteps sample_uuid sample_today
               (StepArray [fresh_step "new-1"; fresh_step "new-2"]) sample_conn 0 in
  map id (table (fst (fst out))) = ["old-1"; "new-1"; "new-2"] /\
  snd out = [None].
Proof.
  intros out.
  destruct (createOutreachSteps_stores_a_sound_batch sample_uuid sample_today
              [fresh_step "new-1"; fresh_step "new-2"] sample_conn 0)
    as (Htab & _ & _ & Hcalls).
  - discriminate.
  - split; [reflexivity | constructor].
  - repeat constructor; discriminate.
  - cbn. repeat constructor; cbn; intuition discriminate.
  - cbn. intros p [<- | [<- | []]]; reflexivity.
  - split; [ | exact Hcalls ].
    fold out in Htab. rewrite Htab. reflexivity.
Defined.

(** X7. On the connection's trace a batch is [BEGIN], then the [INSERT] of
    every step of the batch in order, also of the steps that come after a
    failed one, then either the [COMMIT] or one [ROLLBACK] for each failed
    [INSERT], of which only the first finds the transaction open.  The
    callback is called once with [null] when no [INSERT] failed; otherwise
    it is called once for each failed [INSERT], with that error, so more
    than once when several fail. *)
Theorem batch_trace_and_callbacks :
  forall (gen : uuidGen) (now : Z) (steps : list newStep) (c : conn) (n : nat),
    steps <> [] ->
    txn c = None ->
    exists ins,
      map fst ins = map Insert (fst (bind_steps gen now n steps)) /\
      List.length ins = List.length steps /\
      log (fst (fst (createOutreachSteps gen now (StepArray steps) c n)))
      = (log c ++ (Begin, None) :: ins ++ closing_statements (errors_of ins))%list /\
      snd (createOutreachSteps gen now (StepArray steps) c n)
      = callback_calls (errors_of ins) /\
      List.length (snd (createOutreachSteps gen now (StepArray steps) c n))
      = Nat.max 1 (List.length (errors_of ins)).
Proof.
  intros gen now steps c n Hne Htxn.
  destruct (createOutreachSteps_trace gen now steps c n Hne Htxn)
    as (ins & Hfst & Hlog & Hcalls).
  exists ins. split; [exact Hfst | ]. split; [ | split; [exact Hlog | split ] ].
  - rewrite <- (length_map fst ins), Hfst, length_map. apply length_bind_steps.
  - exact Hcalls.
  - rewrite Hcalls. destruct (errors_of ins) as [| e es]; cbn; [reflexivity | ].
    now rewrite length_map.
Qed.

Lemma batch_trace_and_callbacks_witness :
  let steps := [fresh_step "old-1"; fresh_step "new-1"; fresh_step "old-1"] in
  let out := createOutreachSteps sample_uuid sample_today (StepArray steps)
               sample_conn 0 in
  exists ins,
    map fst ins = map Insert (fst (bind_steps sample_uuid sample_today 0 steps)) /\
    List.length ins = 3%nat /\
    log (fst (fst out))
    = (log sample_conn ++ (Begin, None) :: ins ++ closing_statements (errors_of ins))%list /\
    snd out = callback_calls (errors_of ins) /\
    List.length (snd out) = Nat.max 1 (List.length (errors_of ins)).
Proof.
  intros steps out.
  apply (batch_trace_and_callbacks sample_uuid sample_today steps sample_conn 0).
  - discriminate.
  - reflexivity.
Defined.

(** The sample batch of the witness: the first and the third step collide
    with a stored identifier, the second is inserted and rolled back, and
    the callback is called twice. *)
Example batch_with_two_failures :
  let out := createOutreachSteps sample_uuid sample_today
               (StepArray [fresh_step "old-1"; fresh_step "new-1"; fresh_step "old-1"])
               sample_conn 0 in
  map snd (log (fst (fst out)))
  = [ None; Some PrimaryKeyConstraint; None; Some PrimaryKeyConstraint;
      None; Some NoTransaction ] /\
  table (fst (fst out)) = [old_row] /\
  snd out = [Some PrimaryKeyConstraint; Some PrimaryKeyConstraint].
Proof. repeat split. Qed.

(** ** The plan route again *)

Lemma includes_In (xs : list string) (v : JS.value) :
  JS.includes xs v = true -> exists s, as_string v = Some s /\ In s xs.
Proof.
  destruct v; cbn; try discriminate. intros H. exists s.
  split; [reflexivity | ]. now apply (has_In xs s).
Qed.

Lemma schedule_step_valid (e : env) (deal : string) (today h : Z) (n : nat)
  (step : JS.value) (s : newStep) :
  schedule_step e deal today h n step = Pushed s ->
  valid_plan_step e deal h today s.
Proof.
  intros Hs.
  destruct (offset_ok h step) eqn:Ho;
    [ | unfold schedule_step in Hs; rewrite Ho in Hs; discriminate ].
  destruct (enums_ok step) eqn:He;
    [ | unfold schedule_step in Hs; rewrite Ho, He in Hs; discriminate ].
  destruct (schedule_step_accepted e deal today h n step Ho He)
    as (days & _ & Hrange & Heq).
  rewrite Heq in Hs.
  destruct (due_date (tz e) today days) as [d |] eqn:Hd; [ | discriminate ].
  injection Hs as <-.
  unfold enums_ok in He. apply negb_true_iff in He.
  apply orb_false_iff in He. destruct He as [Hch Hi].
  apply negb_false_iff in Hch, Hi.
  apply includes_In in Hch, Hi.
  destruct Hch as (ch & Hch & Hchin). destruct Hi as (i & Hi & Hiin).
  unfold valid_plan_step. cbn.
  split; [reflexivity | ].
  split; [now exists ch | ].
  split; [now exists i | ].
  split; [reflexivity | ].
  exists days, d. repeat split; try assumption; lia.
Qed.

Lemma collect_steps_valid (e : env) (deal : string) (today h : Z) :
  forall steps acc n n' out,
    Forall (valid_plan_step e deal h today) acc ->
    collect_steps e deal today h steps acc n = (n', Some out) ->
    Forall (valid_plan_step e deal h today) out.
Proof.
  induction steps as [| step rest IH]; intros acc n n' out Hacc Hcol; cbn in Hcol.
  - now injection Hcol as <- <-.
  - destruct (schedule_step e deal today h n step) as [ | s | ] eqn:Hs.
    + eapply IH; eauto.
    + eapply IH; [ | exact Hcol ]. apply Forall_app. split; [assumption | ].
      constructor; [ | constructor ]. eapply schedule_step_valid; eauto.
    + discriminate.
Qed.

Lemma bind_step_valid_row (e : env) (deal : string) (h today : Z)
  (gen : uuidGen) (k : nat) (s : newStep) (r : row) :
  valid_plan_step e deal h today s ->
  row_of_params (fst (bind_step gen today k s)) today = Some r ->
  valid_plan_row e deal h today r.
Proof.
  intros (Hd & (ch & Hch & Hchin) & (i & Hi & Hiin) & Hst & off & d & Hoff & Hdue & Hsd).
  unfold bind_step, row_of_params. rewrite Hst, Hd, Hch, Hi, Hsd.
  destruct (step_id s) as [[ | ? ?] | ]; cbn; intros [= <-]; cbn;
    (repeat split; try assumption; exists off; split; [lia | assumption]).
Qed.

Lemma bind_steps_valid_rows (e : env) (deal : string) (h today : Z) (gen : uuidGen) :
  forall steps k,
    Forall (valid_plan_step e deal h today) steps ->
    forall p r, In p (fst (bind_steps gen today k steps)) ->
                row_of_params p today = Some r ->
                valid_plan_row e deal h today r.
Proof.
  induction steps as [| s rest IH]; intros k Hall p r Hin Hr; cbn [bind_steps] in Hin.
  - contradiction.
  - inversion Hall as [| ? ? Hs Hrest]; subst.
    pose proof (bind_step_valid_row e deal h today gen k s) as Hone.
    destruct (bind_step gen today k s) as [p0 k1].
    specialize (IH k1 Hrest p r).
    destruct (bind_steps gen today k1 rest) as [ps k2]. cbn [fst] in *.
    destruct Hin as [<- | Hin]; [now apply Hone | now apply IH].
Qed.

(** What one call of [buildAndStoreSteps] appends to the table. *)
Lemma buildAndStoreSteps_batch (e : env) (deal : string) (context : dealContext)
  (hasAnyContact : bool) (h today : Z) (modelSteps : JS.value) (w : world) :
  txn (db w) = None ->
  let w' := fst (buildAndStoreSteps e deal context hasAnyContact h today modelSteps w) in
  let res := snd (buildAndStoreSteps e deal context hasAnyContact h today modelSteps w) in
  txn (db w') = None /\
  res <> Pending /\
  exists batch,
    table (db w') = (table (db w) ++ batch)%list /\
    Forall (valid_plan_row e deal h today) batch /\
    (batch <> [] -> exists rows, res = Resolved (Some rows)).
Proof.
  intros Htxn. unfold buildAndStoreSteps.
  assert (Hnone : forall n r, r <> Pending ->
            txn (db (mkWorld (db w) n)) = None /\ r <> Pending /\
            exists batch,
              table (db (mkWorld (db w) n)) = (table (db w) ++ batch)%list /\
              Forall (valid_plan_row e deal h today) batch /\
              (batch <> [] -> exists rows, r = Resolved (Some rows))).
  { intros n r Hr. cbn [db]. repeat split; try assumption.
    exists []. rewrite app_nil_r. repeat split; [constructor | congruence]. }
  assert (Hw : w = mkWorld (db w) (uuidCalls w)) by now destruct w.
  destruct (JS.or_else modelSteps (JS.Arr [])) as [ | | | | | | elems | ];
    try (cbn [fst snd]; rewrite Hw; apply Hnone; discriminate).
  destruct (map_throw (normalize_step (ctx_stage context) hasAnyContact) elems)
    as [normalizedSteps |];
    [ | cbn [fst snd]; rewrite Hw; apply Hnone; discriminate ].
  destruct (collect_steps e deal today h normalizedSteps [] (uuidCalls w))
    as [n [stepsToInsert |]] eqn:Hcol;
    [ | cbn [fst snd]; apply Hnone; discriminate ].
  destruct stepsToInsert as [| s0 rest];
    [ cbn [fst snd List.length Nat.eqb]; apply Hnone; discriminate | ].
  cbn [List.length Nat.eqb].
  pose proof (collect_steps_valid e deal today h _ _ _ _ _ (Forall_nil _) Hcol) as Hvalid.
  destruct (createOutreachSteps_outcome (uuid e) today (s0 :: rest) (db w) n
              ltac:(discriminate) Htxn)
    as (c' & l2 & Heq & Htab & Htx & _).
  rewrite Heq.
  set (ps := fst (bind_steps (uuid e) today n (s0 :: rest))) in *.
  match type of Htab with
  | context [exec_inserts today ps ?c0] =>
      destruct (exec_inserts_frame today ps c0)
        as (_ & (added & Hadd & Hrows & Hlen) & _);
      destruct (snd (exec_inserts today ps c0)) as [| e1 es]
  end; cbn [no_errors map] in *.
  - cbn [fst snd db]. split; [assumption | ]. split; [discriminate | ].
    exists added. rewrite Htab, Hadd. cbn [table].
    repeat split.
    + eapply Forall_impl; [ | exact Hrows ].
      intros r (p & Hin & Hr).
      exact (bind_steps_valid_rows e deal h today (uuid e) _ n Hvalid p r Hin Hr).
    + intros _. eexists. reflexivity.
  - cbn [fst snd db]. split; [assumption | ]. split; [discriminate | ].
    exists []. rewrite app_nil_r. repeat split; [assumption | constructor | congruence].
Qed.

(** What a request to the plan route comes to. *)
Lemma outreachPlanRoute_effect (e : env) (today : Z) (req : planRequest)
  (found : lookupResult) (activityRows : list JS.value)
  (generator : generatorOutcome) (w : world) :
  txn (db w) = None ->
  let w' := fst (outreachPlanRoute e today req found activityRows generator w) in
  txn (db w') = None /\
  exists r batch,
    snd (outreachPlanRoute e today req found activityRows generator w) = Some r /\
    In (code r) [200; 400; 404; 500] /\
    table (db w') = (table (db w) ++ batch)%list /\
    (code r <> 200 -> batch = []) /\
    forall deal, req_dealId req = Some deal ->
                 Forall (valid_plan_row e deal (parseHorizon (req_horizonDays req)) today)
                        batch.
Proof.
  intros Htxn. unfold outreachPlanRoute.
  assert (Hstay : forall r, In (code r) [200; 400; 404; 500] -> code r <> 200 ->
            txn (db w) = None /\
            exists r0 batch,
              Some r = Some r0 /\ In (code r0) [200; 400; 404; 500] /\
              table (db w) = (table (db w) ++ batch)%list /\
              (code r0 <> 200 -> batch = []) /\
              forall deal, req_dealId req = Some deal ->
                Forall (valid_plan_row e deal (parseHorizon (req_horizonDays req)) today)
                       batch).
  { intros r Hin Hne. split; [assumption | ]. exists r, [].
    rewrite app_nil_r. repeat split; try assumption. intros; constructor. }
  destruct (req_dealId req) as [d |] eqn:Hreq;
    [ | cbn [fst snd]; apply Hstay; cbn; [tauto | discriminate] ].
  destruct (d =? "")%string;
    [ cbn [fst snd]; apply Hstay; cbn; [tauto | discriminate] | ].
  destruct found as [ | | context];
    try (cbn [fst snd]; apply Hstay; cbn; [tauto | discriminate]).
  set (hasAnyContact := (JS.truthy (ctx_lastActivityDate context)
                         || Nat.ltb 0 (List.length activityRows))%bool).
  set (h := parseHorizon (req_horizonDays req)).
  (* the fallback, from a world whose table is that of [w] *)
  assert (Hfb : forall w1,
             txn (db w1) = None -> table (db w1) = table (db w) ->
             let out := respond_with_stub e d context hasAnyContact h today w1 in
             txn (db (fst out)) = None /\
             exists r batch,
               snd out = Some r /\ In (code r) [200; 400; 404; 500] /\
               table (db (fst out)) = (table (db w) ++ batch)%list /\
               (code r <> 200 -> batch = []) /\
               forall deal, Some d = Some deal ->
                            Forall (valid_plan_row e deal h today) batch).
  { intros w1 Ht1 Htab1. unfold respond_with_stub, handleStubResponse.
    pose proof (buildAndStoreSteps_batch e d context hasAnyContact h today stub w1 Ht1)
      as (Ht2 & Hpend & batch & Htab2 & Hvalid & Hres).
    destruct (buildAndStoreSteps e d context hasAnyContact h today stub w1)
      as [w2 [err | rows | ]]; cbn [fst snd] in *; try congruence.
    - split; [assumption | ]. eexists; exists batch.
      split; [reflexivity | ]. cbn [code]. rewrite Htab2, Htab1.
      repeat split; try (cbn; tauto).
      + intros _. destruct batch as [| r0 b]; [reflexivity | ].
        destruct (Hres ltac:(discriminate)) as [rows Hrows]. discriminate Hrows.
      + now intros deal [= <-].
    - split; [assumption | ]. eexists; exists batch.
      split; [reflexivity | ]. cbn [code]. rewrite Htab2, Htab1.
      repeat split; try (cbn; tauto); try assumption;
        try (now intros deal [= <-]); try (intros Hne; now elim Hne). }
  destruct (negb (hasApiKey e)); [ now apply Hfb | ].
  destruct generator as [ | parsed]; [ now apply Hfb | ].
  pose proof (buildAndStoreSteps_batch e d context hasAnyContact h today
                (JS.get_opt parsed "steps") w Htxn)
    as (Ht1 & Hpend1 & b1 & Htab1 & Hvalid1 & Hres1).
  destruct (buildAndStoreSteps e d context hasAnyContact h today
              (JS.get_opt parsed "steps") w) as [w1 res1].
  cbn [fst snd] in Ht1, Hpend1, Htab1, Hres1.
  assert (Hb1 : (forall rows, res1 <> Resolved (Some rows)) ->
                table (db w1) = table (db w)).
  { intros Hno. destruct b1 as [| r0 b]; [now rewrite app_nil_r in Htab1 | ].
    destruct (Hres1 ltac:(discriminate)) as [rows Hrows]. now contradiction (Hno rows). }
  destruct res1 as [err | [created |] | ]; try congruence.
  - apply Hfb; [assumption | ]. apply Hb1. discriminate.
  - cbn [fst snd]. split; [assumption | ]. eexists; exists b1.
    split; [reflexivity | ]. cbn [code].
    repeat split; try (cbn; tauto); try assumption;
        try (now intros deal [= <-]); try (intros Hne; now elim Hne).
  - assert (Htab1' : table (db w1) = table (db w)) by (apply Hb1; discriminate).
    unfold handleStubResponse.
    pose proof (buildAndStoreSteps_batch e d context hasAnyContact h today stub w1 Ht1)
      as (Ht2 & Hpend2 & b2 & Htab2 & Hvalid2 & Hres2).
    destruct (buildAndStoreSteps e d context hasAnyContact h today stub w1)
      as [w2 res2].
    cbn [fst snd] in Ht2, Hpend2, Htab2, Hres2.
    destruct res2 as [err | rows2 | ]; try congruence.
    + apply Hfb; [assumption | ].
      destruct b2 as [| r0 b]; [rewrite app_nil_r in Htab2; congruence | ].
      destruct (Hres2 ltac:(discriminate)) as [rows Hrows]. discriminate Hrows.
    + cbn [fst snd]. split; [assumption | ]. eexists; exists b2.
      split; [reflexivity | ]. cbn [code]. rewrite Htab2, Htab1'.
      repeat split; try (cbn; tauto); try assumption;
        try (now intros deal [= <-]); try (intros Hne; now elim Hne).
Qed.

(** X8. Whatever the generator replies, whatever the request, the plan
    route only ever appends steps to the table, and every step it appends
    is a well-formed step of the requested deal: its channel is one of
    the four channels, its intent one of the ten intents, it is pending
    with no completion time, and it is due on an offset between 0 and the
    horizon of the request.  Nothing the generator sends reaches the table
    unchecked. *)
Theorem plan_route_stores_only_valid_steps :
  forall (e : env) (today : Z) (req : planRequest) (found : lookupResult)
         (activityRows : list JS.value) (generator : generatorOutcome)
         (w : world) (deal : string),
    txn (db w) = None ->
    req_dealId req = Some deal ->
    exists batch,
      table (db (fst (outreachPlanRoute e today req found activityRows generator w)))
        = (table (db w) ++ batch)%list /\
      Forall (valid_plan_row e deal (parseHorizon (req_horizonDays req)) today) batch.
Proof.
  intros e today req found activityRows generator w deal Htxn Hreq.
  destruct (outreachPlanRoute_effect e today req found activityRows generator w Htxn)
    as (_ & r & batch & _ & _ & Htab & _ & Hvalid).
  exists batch. split; [exact Htab | now apply Hvalid].
Qed.

Lemma plan_route_stores_only_valid_steps_witness :
  exists batch,
    table (db (fst (outreachPlanRoute keyed_env sample_today sample_request
                      (DealFound sample_context) [] mixed_reply sample_world)))
      = (table (db sample_world) ++ batch)%list /\
    Forall (valid_plan_row keyed_env "deal-1" 14 sample_today) batch.
Proof.
  apply (plan_route_stores_only_valid_steps keyed_env sample_today sample_request
           (DealFound sample_context) [] mixed_reply sample_world "deal-1");
    reflexivity.
Defined.

(** The sample reply of the witness: of its four candidates two are
    stored, the second with the default intent. *)
Example mixed_reply_stored :
  map (fun r => (channel r, intent r))
      (table (db (fst (outreachPlanRoute keyed_env sample_today sample_request
                         (DealFound sample_context) [] mixed_reply sample_world))))
  = [ ("email", "first_contact");
      ("sms", "meeting_reminder");
      ("call_script", "nurture_checkin") ].
Proof. vm_compute. reflexivity. Qed.

(** X9. A plan request that runs alone on the connection, started with no
    transaction open and with no statement of another request between its
    own, is answered, with 200, 400, 404 or 500; unless the answer is 200
    the table of steps is exactly as it was, so a failed request leaves no
    part of a plan behind; and the request leaves no transaction open. *)
Theorem plan_route_answers_and_leaves_no_partial_plan :
  forall (e : env) (today : Z) (req : planRequest) (found : lookupResult)
         (activityRows : list JS.value) (generator : generatorOutcome) (w : world),
    txn (db w) = None ->
    let out := outreachPlanRoute e today req found activityRows generator w in
    exists r,
      snd out = Some r /\
      In (code r) [200; 400; 404; 500] /\
      (code r <> 200 -> table (db (fst out)) = table (db w)) /\
      txn (db (fst out)) = None.
Proof.
  intros e today req found activityRows generator w Htxn out.
  destruct (outreachPlanRoute_effect e today req found activityRows generator w Htxn)
    as (Htx & r & batch & Hr & Hcode & Htab & Hempty & _).
  exists r. repeat split; try assumption.
  intros Hne. fold out in Htab. rewrite Htab, (Hempty Hne). apply app_nil_r.
Qed.

Lemma plan_route_answers_and_leaves_no_partial_plan_witness :
  let out := outreachPlanRoute (mkEnv false (fun _ => "old-1") (fixed_zone 0))
               sample_today sample_request (DealFound sample_context) []
               GeneratorThrows sample_world in
  exists r,
    snd out = Some r /\
    In (code r) [200; 400; 404; 500] /\
    (code r <> 200 -> table (db (fst out)) = table (db sample_world)) /\
    txn (db (fst out)) = None.
Proof.
  apply (plan_route_answers_and_leaves_no_partial_plan
           (mkEnv false (fun _ => "old-1") (fixed_zone 0))
           sample_today sample_request (DealFound sample_context) []
           GeneratorThrows sample_world).
  reflexivity.
Defined.

(** The request of the witness: every identifier generated is already
    stored, the three inserts fail, and the route answers 500 with the
    table as it was. *)
Example colliding_identifiers_give_500 :
  let out := outreachPlanRoute (mkEnv false (fun _ => "old-1") (fixed_zone 0))
               sample_today sample_request (DealFound sample_context) []
               GeneratorThrows sample_world in
  option_map code (snd out) = Some 500 /\ table (db (fst out)) = [old_row].
Proof. vm_compute. split; reflexivity. Qed.

(** A plan request that comes while the transaction of another request
    is open is not answered: its [BEGIN] fails, [db.run] was given no
    callback for it, and the process exits on the ['error'] event with
    the table as it was, no [INSERT] run and the callback of
    [createOutreachSteps] never called. *)
Example plan_request_inside_a_transaction :
  let out := outreachPlanRoute sample_env sample_today sample_request
               (DealFound sample_context) [] GeneratorThrows
               (mkWorld busy_conn 0) in
  snd out = None /\
  table (db (fst out)) = [old_row] /\
  log (db (fst out)) = [(Begin, Some NestedTransaction)] /\
  snd (createOutreachSteps sample_uuid sample_today (StepArray [fresh_step "new-1"])
         busy_conn 0) = [].
Proof. vm_compute. repeat split. Qed.

Lemma patchStatusRoute_table (now : Z) (stepId : string) (statusField : JS.value)
  (c : conn) :
  table (fst (patchStatusRoute now stepId statusField c)) = table c \/
  exists st, In st allowedStatuses /\
             table (fst (patchStatusRoute now stepId statusField c))
             = map (update_status stepId st
                      (if (st =? "pending")%string then None else Some now))
                   (table c).
Proof.
  unfold patchStatusRoute.
  destruct ((stepId =? "")%string
            || negb (JS.includes allowedStatuses statusField))%bool eqn:Hg;
    [now left | ].
  apply orb_false_iff in Hg. destruct Hg as [_ Hinc].
  apply negb_false_iff in Hinc.
  destruct statusField as [ | | | | | st | | ]; try (now left).
  right. exists st. split.
  - apply (has_In allowedStatuses st). exact Hinc.
  - unfold updateOutreachStepStatus.
    destruct (Nat.eqb _ 0); cbn [notFound fst table]; reflexivity.
Qed.

(** X10. Through the two routes that write steps, every stored step keeps
    one of the statuses [pending], [done] and [skipped]: the status route
    refuses any other value, whatever its type or letter case, with a 400
    and an untouched table, and the plan route stores pending steps
    only. *)
Theorem routes_keep_statuses_allowed :
  forall (w : world),
    txn (db w) = None ->
    statuses_allowed (db w) ->
    (forall (now : Z) (stepId : string) (statusField : JS.value),
        statuses_allowed (fst (patchStatusRoute now stepId statusField (db w))) /\
        (JS.includes allowedStatuses statusField = false ->
         patchStatusRoute now stepId statusField (db w)
         = (db w, mkResponse 400 (ErrorBody "Invalid status")))) /\
    (forall (e : env) (today : Z) (req : planRequest) (found : lookupResult)
            (activityRows : list JS.value) (generator : generatorOutcome),
        statuses_allowed
          (db (fst (outreachPlanRoute e today req found activityRows generator w)))).
Proof.
  intros w Htxn Hall. split.
  - intros now stepId statusField. split.
    + unfold statuses_allowed in *.
      destruct (patchStatusRoute_table now stepId statusField (db w))
        as [-> | (st & Hst & ->)]; [assumption | ].
      apply Forall_map. eapply Forall_impl; [ | exact Hall ].
      intros r Hr. unfold update_status.
      destruct (id r =? stepId)%string; [exact Hst | exact Hr].
    + intros Hinc. unfold patchStatusRoute. rewrite Hinc.
      now rewrite orb_true_r.
  - intros e today req found activityRows generator.
    destruct (outreachPlanRoute_effect e today req found activityRows generator w Htxn)
      as (_ & r & batch & _ & _ & Htab & _ & Hvalid).
    unfold statuses_allowed in *. rewrite Htab. apply Forall_app.
    split; [assumption | ].
    destruct (req_dealId req) as [deal |] eqn:Hreq.
    + eapply Forall_impl; [ | exact (Hvalid deal eq_refl) ].
      intros r0 (_ & _ & _ & Hst & _). rewrite Hst. cbn. tauto.
    + (* without a deal the route answered 400 and stored nothing *)
      assert (Hb : table (db (fst (outreachPlanRoute e today req found activityRows
                                     generator w))) = table (db w)).
      { unfold outreachPlanRoute. now rewrite Hreq. }
      rewrite Hb in Htab. rewrite <- (app_nil_r (table (db w))) in Htab at 1.
      apply app_inv_head in Htab. subst batch. constructor.
Qed.

Lemma routes_keep_statuses_allowed_witness :
  statuses_allowed (fst (patchStatusRoute sample_today "old-1" (JS.Str "done")
                           (db sample_world))) /\
  patchStatusRoute sample_today "old-1" (JS.Str "Done") (db sample_world)
  = (db sample_world, mkResponse 400 (ErrorBody "Invalid status")) /\
  statuses_allowed
    (db (fst (outreachPlanRoute keyed_env sample_today sample_request
                (DealFound sample_context) [] mixed_reply sample_world))).
Proof.
  assert (H0 : statuses_allowed (db sample_world)).
  { repeat constructor. }
  destruct (routes_keep_statuses_allowed sample_world eq_refl H0) as [Hpatch Hplan].
  split; [ | split ].
  - apply (Hpatch sample_today "old-1" (JS.Str "done")).
  - apply (Hpatch sample_today "old-1" (JS.Str "Done")). reflexivity.
  - apply Hplan.
Defined.

(** ** The generator's plan *)










(** ** Deleting a lead *)

Lemma filter_filter_same {A : Type} (f : A -> bool) (l : list A) :
  filter f (filter f l) = filter f l.
Proof.
  induction l as [|x l IH]; cbn; [reflexivity|].
  destruct (f x) eqn:E; cbn; [rewrite E, IH|]; auto.
Qed.

Lemma filter_none {A : Type} (f : A -> bool) (l : list A) :
  filter f (filter (fun x => negb (f x)) l) = [].
Proof.
  induction l as [|x l IH]; cbn; [reflexivity|].
  destruct (f x) eqn:E; cbn; [|rewrite E]; auto.
Qed.

Lemma existsb_deal_of_lead (leadId : string) (t : tables) (k : string) :
  existsb (String.eqb k)
    (map deal_id (filter (fun d => (deal_leadId d =? leadId)%string) (deals t))) = true
  <-> deal_of_lead leadId t k.
Proof.
  rewrite existsb_exists. split.
  - intros (x & Hin & Heq). apply String.eqb_eq in Heq. subst x.
    apply in_map_iff in Hin. destruct Hin as (d & Hid & Hd).
    apply filter_In in Hd. destruct Hd as (Hd & Hl). apply String.eqb_eq in Hl.
    now exists d.
  - intros (d & Hd & Hl & Hid). exists k. split; [|apply String.eqb_refl].
    apply in_map_iff. exists d. split; [assumption|].
    apply filter_In. split; [assumption|]. now apply String.eqb_eq.
Qed.

Lemma deleteLead_activities (leadId : string) (t : tables) (a : activityRow) :
  In a (activities (fst (deleteLeadAndRelated leadId t))) <->
  In a (activities t) /\ ~ deal_of_lead leadId t (act_dealId a).
Proof.
  unfold deleteLeadAndRelated. cbn [fst activities].
  destruct (Nat.ltb 0 _) eqn:Hn.
  - rewrite filter_In, negb_true_iff, <- not_true_iff_false, existsb_deal_of_lead.
    reflexivity.
  - apply Nat.ltb_ge in Hn.
    assert (Hnil : map deal_id
              (filter (fun d => (deal_leadId d =? leadId)%string) (deals t)) = []).
    { destruct (map deal_id _); [reflexivity | cbn in Hn; lia]. }
    split; [|tauto]. intros Ha. split; [assumption|].
    intros Hd. apply existsb_deal_of_lead in Hd. rewrite Hnil in Hd. discriminate.
Qed.

(** X12. [deleteLeadAndRelated] removes the lead, every deal that names it
    and every activity of such a deal, and nothing else; it reports
    [notFound] exactly when no lead had the identifier, in which case the
    route answers 404 although deals and activities may have been removed;
    a second deletion finds nothing and changes nothing. *)
Theorem deleteLead_removes_the_lead_and_its_deals (leadId : string) (t : tables) :
  let t' := fst (deleteLeadAndRelated leadId t) in
  let result := snd (deleteLeadAndRelated leadId t) in
  (forall l, In l (leads t') <-> In l (leads t) /\ lead_id l <> leadId) /\
  (forall d, In d (deals t') <-> In d (deals t) /\ deal_leadId d <> leadId) /\
  (forall a, In a (activities t') <->
             In a (activities t) /\ ~ deal_of_lead leadId t (act_dealId a)) /\
  (notFound result = true <-> forall l, In l (leads t) -> lead_id l <> leadId) /\
  deleteLeadRoute leadId t =
    (t', if notFound result
         then mkCrmResponse 404 (CrmError "Lead not found")
         else mkCrmResponse 200 SuccessJson) /\
  deleteLeadAndRelated leadId t' = (t', {| notFound := true |}).
Proof.
  cbv zeta. split; [|split; [|split; [|split; [|split]]]].
  - intros l. cbn. rewrite filter_In, negb_true_iff, String.eqb_neq. reflexivity.
  - intros d. cbn. rewrite filter_In, negb_true_iff, String.eqb_neq. reflexivity.
  - apply deleteLead_activities.
  - cbn. rewrite Nat.eqb_eq. split.
    + intros Hlen l Hl Heq.
      assert (Hin : In l (filter (fun l => (lead_id l =? leadId)%string) (leads t))).
      { apply filter_In. split; [assumption|]. now apply String.eqb_eq. }
      destruct (filter _ (leads t)); [contradiction | discriminate].
    + intros Hno.
      destruct (filter (fun l => (lead_id l =? leadId)%string) (leads t))
        as [|l rest] eqn:E; [reflexivity|].
      assert (Hin : In l (l :: rest)) by now left.
      rewrite <- E in Hin. apply filter_In in Hin. destruct Hin as (Hl & Heq).
      apply String.eqb_eq in Heq. now elim (Hno l Hl).
  - unfold deleteLeadRoute.
    destruct (deleteLeadAndRelated leadId t) as [t1 result]. cbn.
    now destruct (notFound result).
  - unfold deleteLeadAndRelated. cbn [fst leads deals activities].
    rewrite !filter_filter_same.
    rewrite (filter_none (fun d => (deal_leadId d =? leadId)%string)).
    rewrite (filter_none (fun l => (lead_id l =? leadId)%string)).
    reflexivity.
Qed.

(** An answer 404 that removed a deal and its activity: the deal named a
    lead that is not stored. *)
Example delete_unknown_lead_removes_its_deals :
  deleteLeadRoute "lead-9"
    (mkTables [sample_lead "lead-1"]
              [sample_deal "deal-7" "lead-9" "New"]
              [mkActivity "act-7" "deal-7" "call" "Intro call" "2026-11-01T10:00:00.000Z"])
  = (mkTables [sample_lead "lead-1"] [] [],
     mkCrmResponse 404 (CrmError "Lead not found")).
Proof. reflexivity. Qed.

(** X13. Deleting a lead leaves no dangling reference behind: when every
    deal names a stored lead and every activity a stored deal, the same
    holds after [deleteLeadAndRelated]. *)
Theorem deleteLead_keeps_references_sound (leadId : string) (t : tables)
  (Hsound : references_sound t) :
  references_sound (fst (deleteLeadAndRelated leadId t)).
Proof.
  destruct Hsound as (Hdeals & Hacts). split.
  - intros d Hd. cbn in Hd. apply filter_In in Hd. destruct Hd as (Hd & Hne).
    apply negb_true_iff, String.eqb_neq in Hne.
    destruct (Hdeals d Hd) as (l & Hl & Heq). exists l. split; [|assumption].
    cbn. apply filter_In. split; [assumption|].
    apply negb_true_iff, String.eqb_neq. congruence.
  - intros a Ha. apply deleteLead_activities in Ha. destruct Ha as (Ha & Hnot).
    destruct (Hacts a Ha) as (d & Hd & Heq). exists d. split; [|assumption].
    cbn. apply filter_In. split; [assumption|].
    apply negb_true_iff, String.eqb_neq. intros Hl. apply Hnot. now exists d.
Qed.

Lemma sample_tables_sound : references_sound sample_tables.
Proof.
  split.
  - intros d [<-|[<-|[<-|[]]]]; cbn;
      [exists (sample_lead "lead-1") | exists (sample_lead "lead-2")
       | exists (sample_lead "lead-1")]; cbn; tauto.
  - intros a [<-|[<-|[<-|[]]]]; cbn;
      [exists (sample_deal "deal-1" "lead-1" "New")
       | exists (sample_deal "deal-2" "lead-2" "Qualified")
       | exists (sample_deal "deal-3" "lead-1" "Lost")]; cbn; tauto.
Qed.

Lemma deleteLead_keeps_references_sound_witness :
  references_sound sample_tables /\
  references_sound (fst (deleteLeadAndRelated "lead-1" sample_tables)).
Proof.
  split; [exact sample_tables_sound|].
  apply (deleteLead_keeps_references_sound "lead-1" sample_tables).
  exact sample_tables_sound.
Defined.

(** ** The activities of a deal *)

Lemma datetime_ge_total (a b : option Z) :
  datetime_ge a b = false -> datetime_ge b a = true.
Proof.
  destruct a as [x|], b as [y|]; cbn; try congruence; try reflexivity.
  intros H. apply Z.leb_gt in H. apply Z.leb_le. lia.
Qed.

Lemma datetime_ge_trans (a b c : option Z) :
  datetime_ge a b = true -> datetime_ge b c = true -> datetime_ge a c = true.
Proof.
  destruct a as [x|], b as [y|], c as [z|]; cbn; try congruence; try reflexivity.
  rewrite !Z.leb_le. lia.
Qed.

Lemma insert_recent_perm (dt : string -> option Z) (a : activityRow)
  (l : list activityRow) :
  Permutation (insert_recent dt a l) (a :: l).
Proof.
  induction l as [|x l IH]; cbn; [reflexivity|].
  destruct (datetime_ge _ _); [reflexivity|].
  rewrite IH. apply perm_swap.
Qed.

Lemma most_recent_first_perm (dt : string -> option Z) (l : list activityRow) :
  Permutation (most_recent_first dt l) l.
Proof.
  induction l as [|x l IH]; cbn; [reflexivity|].
  rewrite insert_recent_perm. now apply perm_skip.
Qed.

Lemma insert_recent_sorted (dt : string -> option Z) (a : activityRow)
  (l : list activityRow) :
  StronglySorted (no_older dt) l ->
  StronglySorted (no_older dt) (insert_recent dt a l).
Proof.
  induction 1 as [|x l Hs IH Hall]; cbn.
  - constructor; constructor.
  - destruct (datetime_ge (dt (act_createdAt a)) (dt (act_createdAt x))) eqn:E.
    + constructor; [now constructor|].
      constructor; [exact E|].
      apply Forall_forall. intros y Hy.
      rewrite Forall_forall in Hall.
      apply (datetime_ge_trans _ (dt (act_createdAt x))); [exact E | now apply Hall].
    + constructor; [exact IH|].
      apply Forall_forall. intros y Hy.
      apply (Permutation_in _ (insert_recent_perm dt a l)) in Hy.
      destruct Hy as [<-|Hy].
      * now apply datetime_ge_total.
      * rewrite Forall_forall in Hall. now apply Hall.
Qed.

Lemma most_recent_first_sorted (dt : string -> option Z) (l : list activityRow) :
  StronglySorted (no_older dt) (most_recent_first dt l).
Proof.
  induction l as [|x l IH]; cbn; [constructor|].
  now apply insert_recent_sorted.
Qed.




Lemma filter_app_one {A : Type} (f : A -> bool) (l : list A) (x : A) :
  filter f (l ++ [x]) = (filter f l ++ (if f x then [x] else []))%list.
Proof. now rewrite filter_app. Qed.

(** X16. An activity posted with a type and a note is stored under a new
    identifier and is from then on in the listing of its deal, which grows
    by one; the listings of the other deals, the leads and the deals are
    as before.  Its date is the one of the body, or the clock's when the
    body gives none.  The identifier that [uuidv4()] returns is not the
    identifier of a stored activity; the route does not look whether the
    deal is stored. *)
Theorem posted_activity_is_listed :
  forall (e : env) (dt : string -> option Z) (nowIso dealId : string)
         (b : activityBody) (type note : string) (t : tables) (n : nat),
    body_type b = Some type -> type <> "" ->
    body_note b = Some note -> note <> "" ->
    (forall a, In a (activities t) -> act_id a <> uuid e n) ->
    let activity :=
      mkActivity (uuid e n) dealId type note (str_or (body_createdAt b) nowIso) in
    exists t',
      postActivityRoute e nowIso dealId b t n =
        (t', S n, mkCrmResponse 201 (ActivityJson activity)) /\
      leads t' = leads t /\ deals t' = deals t /\
      In activity (getActivitiesForDeal dt dealId t') /\
      List.length (getActivitiesForDeal dt dealId t') =
        S (List.length (getActivitiesForDeal dt dealId t)) /\
      forall other, other <> dealId ->
        getActivitiesForDeal dt other t' = getActivitiesForDeal dt other t.
Proof.
  intros e dt nowIso dealId b type note t n Htype Hty Hnote Hno Hfresh activity.
  assert (Hex : existsb (fun a => (act_id a =? uuid e n)%string) (activities t) = false).
  { apply not_true_iff_false. intros H. apply existsb_exists in H.
    destruct H as (a & Ha & Heq). apply String.eqb_eq in Heq.
    now apply (Hfresh a Ha). }
  exists (mkTables (leads t) (deals t) (activities t ++ [activity])%list).
  split; [|split; [reflexivity|split; [reflexivity|split; [|split]]]].
  - unfold postActivityRoute, or_null. rewrite Htype, Hnote.
    apply String.eqb_neq in Hty, Hno. rewrite Hty, Hno.
    unfold createActivity. cbn [act_id]. rewrite Hex. reflexivity.
  - unfold getActivitiesForDeal. cbn [activities].
    apply (Permutation_in _ (Permutation_sym (most_recent_first_perm dt _))).
    apply filter_In. split; [apply in_or_app; right; now left|].
    cbn. apply String.eqb_refl.
  - unfold getActivitiesForDeal. cbn [activities].
    rewrite !(Permutation_length (most_recent_first_perm dt _)).
    rewrite filter_app_one. cbn [act_dealId activity].
    rewrite String.eqb_refl, length_app. cbn. lia.
  - intros other Hother. unfold getActivitiesForDeal. cbn [activities].
    rewrite filter_app_one. cbn [act_dealId activity].
    replace (dealId =? other)%string with false
      by (symmetry; apply String.eqb_neq; congruence).
    now rewrite app_nil_r.
Qed.

Lemma posted_activity_is_listed_witness :
  exists t',
    postActivityRoute sample_env "2026-11-03T09:30:00.000Z" "deal-1"
      (mkActivityBody (Some "call") (Some "Left a voicemail") None) sample_tables 0 =
      (t', 1%nat,
       mkCrmResponse 201
         (ActivityJson (mkActivity "step-0" "deal-1" "call" "Left a voicemail"
                          "2026-11-03T09:30:00.000Z"))) /\
    getActivitiesForDeal sample_datetime "deal-1" t' =
      [ mkActivity "step-0" "deal-1" "call" "Left a voicemail" "2026-11-03T09:30:00.000Z";
        mkActivity "act-1" "deal-1" "call" "Intro call" "2026-11-01T10:00:00.000Z" ].
Proof.
  destruct (posted_activity_is_listed sample_env sample_datetime
              "2026-11-03T09:30:00.000Z" "deal-1"
              (mkActivityBody (Some "call") (Some "Left a voicemail") None)
              "call" "Left a voicemail" sample_tables 0)
    as (t' & Hroute & _).
  - reflexivity.
  - discriminate.
  - reflexivity.
  - discriminate.
  - intros a [<-|[<-|[<-|[]]]]; discriminate.
  - exists t'. split; [exact Hroute|].
    vm_compute in Hroute. injection Hroute as <-. reflexivity.
Defined.

(** X17. The activity route answers 201, 400 or 500.  It answers 400
    exactly when the type or the note is missing or empty, and 500 when
    the new identifier is the one of a stored activity; in both cases the
    tables are as before. *)
Theorem activity_route_rejections :
  forall (e : env) (nowIso dealId : string) (b : activityBody) (t : tables) (n : nat),
    let '(t', n', r) := postActivityRoute e nowIso dealId b t n in
    (crm_code r = 201 \/ crm_code r = 400 \/ crm_code r = 500) /\
    (crm_code r = 400 <-> or_null (body_type b) = None \/ or_null (body_note b) = None) /\
    (crm_code r = 400 -> n' = n) /\
    (crm_code r = 500 <->
       or_null (body_type b) <> None /\ or_null (body_note b) <> None /\
       exists a, In a (activities t) /\ act_id a = uuid e n) /\
    (crm_code r <> 201 -> t' = t).
Proof.
  intros e nowIso dealId b t n. unfold postActivityRoute.
  destruct (or_null (body_type b)) as [type|];
    [destruct (or_null (body_note b)) as [note|]|].
  - unfold createActivity. cbn [act_id].
    destruct (existsb _ (activities t)) eqn:Hex.
    + apply existsb_exists in Hex. destruct Hex as (a & Ha & Heq).
      apply String.eqb_eq in Heq. cbn.
      repeat split; try tauto; try discriminate; try (intros [?|?]; discriminate).
      now exists a.
    + cbn. repeat split; try tauto; try discriminate;
        try (intros [?|?]; discriminate); try (intros; exfalso; lia).
      intros (_ & _ & a & Ha & Heq). exfalso.
      apply not_true_iff_false in Hex. apply Hex, existsb_exists.
      exists a. split; [assumption | now apply String.eqb_eq].
  - cbn. repeat split; try tauto; try discriminate; try (intros; exfalso; lia).
  - cbn. repeat split; try tauto; try discriminate; try (intros; exfalso; lia).
Qed.

(** ** Trimming *)

Lemma reverse_involutive (s : string) : reverse (reverse s) = s.
Proof.
  unfold reverse.
  now rewrite list_ascii_of_string_of_list_ascii, rev_involutive,
    string_of_list_ascii_of_string.
Qed.

Lemma list_ascii_of_string_app (p q : string) :
  list_ascii_of_string (p ++ q) = (list_ascii_of_string p ++ list_ascii_of_string q)%list.
Proof. induction p as [|c p IH]; cbn; [reflexivity | now rewrite IH]. Qed.

Lemma string_of_list_ascii_app (l1 l2 : list ascii) :
  string_of_list_ascii (l1 ++ l2) = string_of_list_ascii l1 ++ string_of_list_ascii l2.
Proof. induction l1 as [|c l IH]; cbn; [reflexivity | now rewrite IH]. Qed.

Lemma reverse_app (p q : string) : reverse (p ++ q) = reverse q ++ reverse p.
Proof.
  unfold reverse.
  now rewrite list_ascii_of_string_app, rev_app_distr, string_of_list_ascii_app.
Qed.

(** Stripping leaves a suffix, which starts with no white space. *)
Lemma strip_spaces_spec (b : bool) (n : nat) :
  forall s, (String.length s <= n)%nat ->
    starts_with_space b (strip_spaces b s) = false /\
    exists p, s = p ++ strip_spaces b s.
Proof.
  induction n as [|n IH]; intros s Hn.
  - destruct s; [|cbn in Hn; lia]. split; [reflexivity | now exists ""].
  - destruct s as [|c1 r1]; [split; [reflexivity | now exists ""]|].
    cbn in Hn. cbn [strip_spaces].
    destruct (is_space1 c1) eqn:E1.
    { destruct (IH r1 ltac:(lia)) as [H (p & Hp)]. split; [exact H|].
      exists (String c1 p). cbn. now rewrite <- Hp. }
    destruct r1 as [|c2 r2].
    { split; [exact E1 | now exists ""]. }
    cbn in Hn.
    destruct (if b then is_space2 c2 c1 else is_space2 c1 c2) eqn:E2.
    { destruct (IH r2 ltac:(lia)) as [H (p & Hp)]. split; [exact H|].
      exists (String c1 (String c2 p)). cbn. now rewrite <- Hp. }
    destruct r2 as [|c3 r3].
    { split; [cbn [starts_with_space]; now rewrite E1, E2 | now exists ""]. }
    cbn in Hn.
    destruct (if b then is_space3 c3 c2 c1 else is_space3 c1 c2 c3) eqn:E3.
    { destruct (IH r3 ltac:(lia)) as [H (p & Hp)]. split; [exact H|].
      exists (String c1 (String c2 (String c3 p))). cbn. now rewrite <- Hp. }
    split; [cbn [starts_with_space]; now rewrite E1, E2, E3 | now exists ""].
Qed.

Lemma strip_spaces_fixed (b : bool) (s : string) :
  starts_with_space b s = false -> strip_spaces b s = s.
Proof.
  destruct s as [|c1 [|c2 [|c3 r3]]]; cbn [starts_with_space strip_spaces];
    intros H; [reflexivity | now rewrite H | | ].
  - apply orb_false_iff in H. destruct H as [H1 H2]. now rewrite H1, H2.
  - apply orb_false_iff in H. destruct H as [H H3].
    apply orb_false_iff in H. destruct H as [H1 H2]. now rewrite H1, H2, H3.
Qed.

(** A string that starts with white space still does so when it is
    extended. *)
Lemma starts_with_space_app (b : bool) (t q : string) :
  starts_with_space b t = true -> starts_with_space b (t ++ q) = true.
Proof.
  destruct t as [|c1 [|c2 [|c3 r3]]];
    cbn [starts_with_space append]; try discriminate.
  - intros H. destruct q as [|d1 [|d2 q]]; now rewrite ?H.
  - intros H. destruct q as [|d1 q]; [exact H|]. now rewrite H.
  - intros H. exact H.
Qed.

Lemma trimEnd_prefix (s : string) : exists q, s = trimEnd s ++ q.
Proof.
  destruct (strip_spaces_spec true _ (reverse s) (le_n _)) as [_ (p & Hp)].
  exists (reverse p). unfold trimEnd.
  rewrite <- reverse_app, <- Hp. now rewrite reverse_involutive.
Qed.

Lemma trim_no_outer_space (s : string) : no_outer_space (trim s).
Proof.
  unfold trim. split.
  - destruct (starts_with_space false (trimEnd (trimStart s))) eqn:E; [|reflexivity].
    destruct (trimEnd_prefix (trimStart s)) as (q & Hq).
    apply (starts_with_space_app false _ q) in E. rewrite <- Hq in E.
    unfold trimStart in E.
    now rewrite (proj1 (strip_spaces_spec false _ s (le_n _))) in E.
  - unfold trimEnd. rewrite reverse_involutive.
    apply (strip_spaces_spec true _ _ (le_n _)).
Qed.

Lemma trim_fixed (s : string) : no_outer_space s -> trim s = s.
Proof.
  intros [Hf Hl]. unfold trim, trimStart, trimEnd.
  rewrite (strip_spaces_fixed false s Hf), (strip_spaces_fixed true _ Hl).
  apply reverse_involutive.
Qed.

Lemma trim_idempotent (s : string) : trim (trim s) = trim s.
Proof. apply trim_fixed, trim_no_outer_space. Qed.

Example trim_keeps_inner_space :
  trim (String "009" "  Proposal Sent " ++ String "010" "") = "Proposal Sent".
Proof. reflexivity. Qed.

(** U+00A0 and U+3000 around a stage, and a stage that is U+00A0 alone. *)
Example trim_strips_unicode_space :
  trim (String "194" (String "160" "Won")
        ++ String "227" (String "128" (String "128" ""))) = "Won" /\
  trim (String "194" (String "160" "")) = "".
Proof. split; reflexivity. Qed.

(** ** The stage and the details of a deal *)

Lemma deal_by_id_Some (k : string) (l : list dealRow) (d : dealRow) :
  deal_by_id k l = Some d -> In d l /\ deal_id d = k.
Proof.
  intros H. apply find_some in H. destruct H as [Hin Heq].
  split; [assumption | now apply String.eqb_eq].
Qed.

Lemma deal_by_id_None (k : string) (l : list dealRow) :
  deal_by_id k l = None <-> forall d, In d l -> deal_id d <> k.
Proof.
  split.
  - intros H d Hd. apply String.eqb_neq. exact (find_none _ _ H d Hd).
  - intros H. destruct (deal_by_id k l) as [d|] eqn:E; [|reflexivity].
    apply deal_by_id_Some in E. destruct E as [Hin Heq]. now elim (H d Hin).
Qed.

Lemma deal_by_id_map (f : dealRow -> dealRow) (k : string) (l : list dealRow) :
  (forall x, deal_id (f x) = deal_id x) ->
  deal_by_id k (map f l) = option_map f (deal_by_id k l).
Proof.
  intros Hf. induction l as [|x l IH]; cbn; [reflexivity|].
  rewrite Hf. destruct (deal_id x =? k)%string; [reflexivity | exact IH].
Qed.

Lemma map_other_ids (f : dealRow -> dealRow) (k : string) (l : list dealRow) :
  (forall x, deal_id x <> k -> f x = x) ->
  deal_by_id k l = None -> map f l = l.
Proof.
  intros Hf Hnone. rewrite deal_by_id_None in Hnone.
  induction l as [|x l IH]; cbn; [reflexivity|].
  rewrite Hf by (apply Hnone; now left).
  rewrite IH; [reflexivity|]. intros d Hd. apply Hnone. now right.
Qed.

Lemma tables_eta (t : tables) : mkTables (leads t) (deals t) (activities t) = t.
Proof. now destruct t. Qed.

Lemma set_stage_id (k st : string) (d : dealRow) : deal_id (set_stage k st d) = deal_id d.
Proof. unfold set_stage. now destruct (deal_id d =? k)%string. Qed.

Lemma set_stage_other (k st : string) (d : dealRow) :
  deal_id d <> k -> set_stage k st d = d.
Proof. intros H. unfold set_stage. apply String.eqb_neq in H. now rewrite H. Qed.

Lemma set_stage_columns (k st : string) (d : dealRow) :
  columns_but_stage (set_stage k st d) = columns_but_stage d.
Proof. unfold set_stage. now destruct (deal_id d =? k)%string. Qed.

Lemma set_stage_stage (k st : string) (d : dealRow) :
  deal_id d = k -> deal_stage (set_stage k st d) = st.
Proof. intros H. unfold set_stage. apply String.eqb_eq in H. now rewrite H. Qed.

(** X18. A stage given as a string that is not blank is stored trimmed,
    so without white space at either end, on the deal of the identifier:
    the other columns of the deal and the other deals are as before, the
    answer is 200 with the deal as it is stored, and the history of the
    deal gains one [status_change] activity that names the new stage.
    The deal is stored and the identifier that [uuidv4()] returns is not
    the one of a stored activity. *)
Theorem stage_route_sets_the_stage_and_logs_it :
  forall (e : env) (dt : string -> option Z) (nowIso dealId s : string)
         (t : tables) (n : nat) (d : dealRow),
    trim s <> "" ->
    deal_by_id dealId (deals t) = Some d ->
    (forall a, In a (activities t) -> act_id a <> uuid e n) ->
    let logged :=
      mkActivity (uuid e n) dealId "status_change"
                 ("Status updated to " ++ trim s) nowIso in
    exists t' d',
      postStageRoute e nowIso dealId (JS.Str s) t n =
        (t', S n, mkCrmResponse 200 (DealJson d')) /\
      deal_by_id dealId (deals t') = Some d' /\
      deal_stage d' = trim s /\
      columns_but_stage d' = columns_but_stage d /\
      no_outer_space (deal_stage d') /\
      (forall x, In x (deals t') -> deal_id x = dealId -> deal_stage x = trim s) /\
      (forall x, deal_id x <> dealId -> (In x (deals t') <-> In x (deals t))) /\
      map columns_but_stage (deals t') = map columns_but_stage (deals t) /\
      leads t' = leads t /\
      activities t' = (activities t ++ [logged])%list /\
      In logged (getActivitiesForDeal dt dealId t').
Proof.
  intros e dt nowIso dealId s t n d Htrim Hd Hfresh logged.
  destruct (deal_by_id_Some _ _ _ Hd) as [Hin Hid].
  assert (Hs : s <> "") by (intros ->; now apply Htrim).
  assert (Hex : existsb (fun a => (act_id a =? uuid e n)%string) (activities t) = false).
  { apply not_true_iff_false. intros H. apply existsb_exists in H.
    destruct H as (a & Ha & Heq). apply String.eqb_eq in Heq.
    now apply (Hfresh a Ha). }
  exists (mkTables (leads t) (map (set_stage dealId (trim s)) (deals t))
                   (activities t ++ [logged])%list),
         (set_stage dealId (trim s) d).
  assert (Hfound : deal_by_id dealId (map (set_stage dealId (trim s)) (deals t))
                   = Some (set_stage dealId (trim s) d)).
  { rewrite (deal_by_id_map _ _ _ (set_stage_id dealId (trim s))), Hd. reflexivity. }
  cbn [leads deals activities].
  split; [|split; [exact Hfound|split; [|split; [|split; [|split;
    [|split; [|split; [|split; [reflexivity|split; [reflexivity|]]]]]]]]]].
  - unfold postStageRoute. cbn [JS.truthy].
    apply String.eqb_neq in Hs, Htrim. rewrite Hs, Htrim. cbn [negb orb].
    unfold updateDealStage. rewrite Hfound.
    unfold createActivity. cbn [activities act_id]. rewrite Hex.
    cbn [leads deals activities].
    rewrite (set_stage_stage _ _ _ Hid). reflexivity.
  - now apply set_stage_stage.
  - apply set_stage_columns.
  - rewrite (set_stage_stage _ _ _ Hid). apply trim_no_outer_space.
  - intros x Hx Hxid. apply in_map_iff in Hx. destruct Hx as (y & <- & Hy).
    rewrite set_stage_id in Hxid. now apply set_stage_stage.
  - intros x Hx. rewrite in_map_iff. split.
    + intros (y & Hy & Hyin).
      assert (Hyid : deal_id y <> dealId).
      { rewrite <- (set_stage_id dealId (trim s) y), Hy. exact Hx. }
      rewrite (set_stage_other _ _ _ Hyid) in Hy. now subst y.
    + intros Hxin. exists x. split; [now apply set_stage_other | assumption].
  - rewrite map_map. apply map_ext. intros x. apply set_stage_columns.
  - unfold getActivitiesForDeal. cbn [activities].
    apply (Permutation_in _ (Permutation_sym (most_recent_first_perm dt _))).
    apply filter_In. split; [apply in_or_app; right; now left|].
    cbn. apply String.eqb_refl.
Qed.

Lemma stage_route_sets_the_stage_and_logs_it_witness :
  exists t' d',
    postStageRoute sample_env "2026-11-03T09:30:00.000Z" "deal-1"
      (JS.Str "  Proposal Sent ") sample_tables 0 =
      (t', 1%nat, mkCrmResponse 200 (DealJson d')) /\
    d' = sample_deal "deal-1" "lead-1" "Proposal Sent" /\
    getActivitiesForDeal sample_datetime "deal-1" t' =
      [ mkActivity "step-0" "deal-1" "status_change"
                   "Status updated to Proposal Sent" "2026-11-03T09:30:00.000Z";
        mkActivity "act-1" "deal-1" "call" "Intro call" "2026-11-01T10:00:00.000Z" ].
Proof.
  destruct (stage_route_sets_the_stage_and_logs_it sample_env sample_datetime
              "2026-11-03T09:30:00.000Z" "deal-1" "  Proposal Sent "
              sample_tables 0 (sample_deal "deal-1" "lead-1" "New"))
    as (t' & d' & Hroute & _).
  - discriminate.
  - reflexivity.
  - intros a [<-|[<-|[<-|[]]]]; discriminate.
  - exists t', d'. vm_compute in Hroute. injection Hroute as <- <-.
    repeat split; reflexivity.
Defined.

(** X19. The stage route answers 200, 400 or 404.  It answers 400 exactly
    when the stage is not a string or is blank, and 404 exactly when the
    stage is usable and no deal has the identifier; in both cases the
    tables are as before and no identifier is drawn.  When the identifier
    drawn for the activity is the one of a stored activity the answer is
    200 all the same, and the history is as before. *)
Theorem stage_route_rejections :
  forall (e : env) (nowIso dealId : string) (stage : JS.value) (t : tables) (n : nat),
    let '(t', n', r) := postStageRoute e nowIso dealId stage t n in
    (crm_code r = 200 \/ crm_code r = 400 \/ crm_code r = 404) /\
    (crm_code r = 400 <-> forall s, stage = JS.Str s -> trim s = "") /\
    (crm_code r = 404 <->
       (exists s, stage = JS.Str s /\ trim s <> "") /\
       forall d, In d (deals t) -> deal_id d <> dealId) /\
    (crm_code r <> 200 -> t' = t /\ n' = n) /\
    (crm_code r = 200 ->
       n' = S n /\
       ((exists a, In a (activities t) /\ act_id a = uuid e n) ->
        activities t' = activities t)).
Proof.
  intros e nowIso dealId stage t n. unfold postStageRoute.
  destruct stage as [| |b|z|m k|s|l|l];
    try (cbn; repeat split; try tauto; try discriminate;
         try (intros (s' & H & _); discriminate H);
         try (intros [(s' & H & _) _]; discriminate H);
         intros; exfalso; lia).
  cbn [JS.truthy].
  destruct (trim s =? "")%string eqn:Htrim.
  - apply String.eqb_eq in Htrim. rewrite orb_true_r. cbn.
    repeat split; try tauto; try discriminate; try (intros; exfalso; lia).
    + intros _ s' [= <-]. exact Htrim.
    + intros [(s' & [= <-] & H) _]. now elim H.
  - apply String.eqb_neq in Htrim.
    assert (Hs : (s =? "")%string = false).
    { apply String.eqb_neq. intros ->. now apply Htrim. }
    rewrite Hs. cbn [negb orb]. unfold updateDealStage.
    rewrite (deal_by_id_map _ _ _ (set_stage_id dealId (trim s))).
    destruct (deal_by_id dealId (deals t)) as [d|] eqn:Hd; cbn [option_map].
    + destruct (deal_by_id_Some _ _ _ Hd) as [Hin Hid].
      unfold createActivity. cbn [activities act_id].
      destruct (existsb _ (activities t)) eqn:Hex; cbn;
        (repeat split; try tauto; try discriminate; try (intros; exfalso; lia));
        try (intros H; exfalso; apply Htrim; now apply (H s));
        try (intros [_ H]; now elim (H d Hin)).
      intros (a & Ha & Heq). exfalso.
      apply not_true_iff_false in Hex. apply Hex, existsb_exists.
      exists a. split; [assumption | now apply String.eqb_eq].
    + rewrite (map_other_ids _ dealId (deals t)
                 (set_stage_other dealId (trim s)) Hd), tables_eta.
      cbn. repeat split; try tauto; try discriminate; try (intros; exfalso; lia).
      * intros H. exfalso. apply Htrim. now apply (H s).
      * now exists s.
      * now apply deal_by_id_None.
Qed.

Lemma set_details_id (k : string) (det : dealDetails) (d : dealRow) :
  deal_id (set_details k det d) = deal_id d.
Proof. unfold set_details. now destruct (deal_id d =? k)%string. Qed.

Lemma set_details_other (k : string) (det : dealDetails) (d : dealRow) :
  deal_id d <> k -> set_details k det d = d.
Proof. intros H. unfold set_details. apply String.eqb_neq in H. now rewrite H. Qed.

Lemma set_details_columns (k : string) (det : dealDetails) (d : dealRow) :
  columns_but_details (set_details k det d) = columns_but_details d.
Proof. unfold set_details. now destruct (deal_id d =? k)%string. Qed.

Lemma set_details_twice (k : string) (det : dealDetails) (d : dealRow) :
  set_details k det (set_details k det d) = set_details k det d.
Proof.
  unfold set_details. destruct (deal_id d =? k)%string eqn:E; cbn; rewrite E; [|reflexivity].
  destruct (det_value det), (det_nextAction det), (det_nextActionDate det); reflexivity.
Qed.

Lemma details_keys_zero (b : detailsBody) :
  details_keys (details_of_body b) = 0%nat <->
  JS.typeof (body_value b) <> "number" /\
  JS.typeof (body_nextAction b) <> "string" /\
  body_nextActionDate b = None.
Proof.
  unfold details_keys, details_of_body. cbn [det_value det_nextAction det_nextActionDate].
  destruct (body_value b), (body_nextAction b), (body_nextActionDate b); cbn;
    split; try discriminate; try (intros (H1 & H2 & H3); congruence);
    try (intros _; repeat split; discriminate).
Qed.

Lemma detail_fields_given (b : detailsBody) :
  details_keys (details_of_body b) <> 0%nat ->
  Nat.eqb (List.length (detail_fields (details_of_body b))) 0 = false.
Proof.
  unfold details_keys, detail_fields, details_of_body.
  cbn [det_value det_nextAction det_nextActionDate].
  destruct (body_value b), (body_nextAction b), (body_nextActionDate b); cbn;
    intros H; try reflexivity; now elim H.
Qed.

Lemma set_details_fields (k : string) (b : detailsBody) (d : dealRow) :
  deal_id d = k ->
  let d' := set_details k (details_of_body b) d in
  deal_value d' = (if (JS.typeof (body_value b) =? "number")%string
                   then Some (body_value b) else deal_value d) /\
  deal_nextAction d' = match body_nextAction b with
                       | JS.Str s => Some (trim s)
                       | _ => deal_nextAction d
                       end /\
  deal_nextActionDate d' = match body_nextActionDate b with
                           | Some v => or_null v
                           | None => deal_nextActionDate d
                           end.
Proof.
  intros Hid. unfold set_details, details_of_body.
  apply String.eqb_eq in Hid. rewrite Hid.
  cbn [det_value det_nextAction det_nextActionDate deal_value deal_nextAction
       deal_nextActionDate].
  destruct (body_value b), (body_nextAction b), (body_nextActionDate b);
    cbn; repeat split; reflexivity.
Qed.

(** X20. The details route changes the value, the next action and the date
    of the next action of the deal, each only when the body gives it (a
    number, whole or not, a string, a present [nextActionDate]): the next
    action is stored trimmed of the white space of Unicode and an empty
    date as [NULL].  Every other column, every
    other deal, the leads and the activities are as before.  It answers
    400 exactly when the body gives none of the three, 404 when no deal
    has the identifier, both without a change, and never 500; the same
    request again changes nothing more. *)
Theorem details_route_changes_only_given_fields :
  forall (dealId : string) (b : detailsBody) (t : tables),
    let '(t', r) := postDetailsRoute dealId b t in
    (crm_code r = 200 \/ crm_code r = 400 \/ crm_code r = 404) /\
    (crm_code r = 400 <->
       JS.typeof (body_value b) <> "number" /\
       JS.typeof (body_nextAction b) <> "string" /\
       body_nextActionDate b = None) /\
    (crm_code r = 404 -> forall d, In d (deals t) -> deal_id d <> dealId) /\
    (crm_code r <> 200 -> t' = t) /\
    leads t' = leads t /\
    activities t' = activities t /\
    map columns_but_details (deals t') = map columns_but_details (deals t) /\
    (forall x, deal_id x <> dealId -> (In x (deals t') <-> In x (deals t))) /\
    (crm_code r = 200 ->
       exists d d',
         deal_by_id dealId (deals t) = Some d /\
         crm_payload r = DealJson d' /\
         deal_by_id dealId (deals t') = Some d' /\
         deal_value d' = (if (JS.typeof (body_value b) =? "number")%string
                          then Some (body_value b) else deal_value d) /\
         deal_nextAction d' = match body_nextAction b with
                              | JS.Str s => Some (trim s)
                              | _ => deal_nextAction d
                              end /\
         deal_nextActionDate d' = match body_nextActionDate b with
                                  | Some v => or_null v
                                  | None => deal_nextActionDate d
                                  end) /\
    postDetailsRoute dealId b t' = (t', r).
Proof.
  intros dealId b t. unfold postDetailsRoute.
  destruct (Nat.eqb (details_keys (details_of_body b)) 0) eqn:Hkeys.
  - apply Nat.eqb_eq in Hkeys. pose proof (proj1 (details_keys_zero b) Hkeys) as Hz.
    cbn.
    repeat split; try tauto; try discriminate; try (intros; exfalso; lia).
  - apply Nat.eqb_neq in Hkeys.
    assert (Hnz : ~ (JS.typeof (body_value b) <> "number" /\
                     JS.typeof (body_nextAction b) <> "string" /\
                     body_nextActionDate b = None)).
    { intros H. now apply Hkeys, details_keys_zero. }
    unfold updateDealDetails. rewrite (detail_fields_given b Hkeys).
    set (det := details_of_body b) in *.
    rewrite (deal_by_id_map _ _ _ (set_details_id dealId det)).
    assert (Hcols : map columns_but_details (map (set_details dealId det) (deals t))
                    = map columns_but_details (deals t)).
    { rewrite map_map. apply map_ext. intros x. apply set_details_columns. }
    assert (Hothers : forall x, deal_id x <> dealId ->
               (In x (map (set_details dealId det) (deals t)) <-> In x (deals t))).
    { intros x Hx. rewrite in_map_iff. split.
      - intros (y & Hy & Hyin).
        assert (Hyid : deal_id y <> dealId).
        { rewrite <- (set_details_id dealId det y), Hy. exact Hx. }
        rewrite (set_details_other _ _ _ Hyid) in Hy. now subst y.
      - intros Hxin. exists x. split; [now apply set_details_other | assumption]. }
    destruct (deal_by_id dealId (deals t)) as [d|] eqn:Hd; cbn [option_map].
    + destruct (deal_by_id_Some _ _ _ Hd) as [Hin Hid].
      cbn [crm_code crm_payload leads deals activities].
      split; [now left|]. split; [split; [discriminate | tauto]|].
      split; [discriminate|]. split; [intros H; now elim H|].
      split; [reflexivity|]. split; [reflexivity|].
      split; [exact Hcols|]. split; [exact Hothers|]. split.
      * intros _. exists d, (set_details dealId det d).
        split; [reflexivity|]. split; [reflexivity|]. split.
        -- rewrite (deal_by_id_map _ _ _ (set_details_id dealId det)), Hd. reflexivity.
        -- exact (set_details_fields dealId b d Hid).
      * rewrite (deal_by_id_map _ _ _ (set_details_id dealId det)).
        rewrite (deal_by_id_map _ _ _ (set_details_id dealId det)), Hd.
        cbn [option_map]. rewrite set_details_twice.
        rewrite map_map.
        rewrite (map_ext _ (set_details dealId det)
                   (fun x => set_details_twice dealId det x)).
        reflexivity.
    + rewrite (map_other_ids _ dealId (deals t) (set_details_other dealId det) Hd).
      rewrite tables_eta.
      cbn [crm_code crm_payload].
      split; [now right; right|]. split; [split; [discriminate | tauto]|].
      split; [intros _; now apply deal_by_id_None|]. split; [reflexivity|].
      split; [reflexivity|]. split; [reflexivity|]. split; [reflexivity|].
      split; [tauto|]. split; [discriminate|].
      rewrite (map_other_ids _ dealId (deals t) (set_details_other dealId det) Hd).
      rewrite Hd, tables_eta. reflexivity.
Qed.

Example details_route_sample :
  postDetailsRoute "deal-2"
    (mkDetailsBody (JS.Str "1500") (JS.Str " Call Gemma ") (Some (Some "")))
    sample_tables
  = (mkTables (leads sample_tables)
       [ sample_deal "deal-1" "lead-1" "New";
         mkDeal "deal-2" "lead-2" "Website rebuild" "Qualified" (Some (JS.Num 1200))
                (Some "Call Gemma") None None (Some 0);
         sample_deal "deal-3" "lead-1" "Lost" ]
       (activities sample_tables),
     mkCrmResponse 200
       (DealJson (mkDeal "deal-2" "lead-2" "Website rebuild" "Qualified"
                         (Some (JS.Num 1200)) (Some "Call Gemma") None None (Some 0)))).
Proof. reflexivity. Qed.

(** ** What the plan route reads in the tables *)

Lemma existsb_filter {A : Type} (f : A -> bool) (l : list A) :
  existsb f l = Nat.ltb 0 (List.length (filter f l)).
Proof.
  induction l as [|x l IH]; cbn; [reflexivity|].
  destruct (f x); cbn; [reflexivity | exact IH].
Qed.

Lemma stage_lower_of_column (s : string) :
  stage_lower (if (s =? "")%string then JS.Null else JS.Str s)
  = Some (JS.toLowerCase s).
Proof.
  destruct (s =? "")%string eqn:E.
  - apply String.eqb_eq in E. now subst s.
  - unfold stage_lower. cbn. now rewrite E.
Qed.

Lemma plan_lookup (e : env) (dt : string -> option Z) (today : Z) (req : planRequest)
  (gen : generatorOutcome) (t : tables) (w : world) (dealId : string) (d : dealRow) :
  req_dealId req = Some dealId ->
  dealId <> "" ->
  deal_by_id dealId (deals t) = Some d ->
  exists context rows,
    outreachPlanRequest e dt today req gen t w =
      outreachPlanRoute e today req (DealFound context) rows gen w /\
    stage_lower (ctx_stage context) = Some (JS.toLowerCase (deal_stage d)) /\
    (JS.truthy (ctx_lastActivityDate context) || Nat.ltb 0 (List.length rows))%bool
      = existsb (activity_of dealId) (activities t) /\
    List.length rows =
      Nat.min 5 (List.length (filter (activity_of dealId) (activities t))) /\
    (forall s, ctx_lastActivityDate context = JS.Str s ->
       exists a, In a (activities t) /\ act_dealId a = dealId /\ act_createdAt a = s /\
                 forall b, In b (activities t) -> act_dealId b = dealId ->
                           no_older dt a b).
Proof.
  intros Hreq Hne Hd.
  unfold outreachPlanRequest, getDealContextForMessageDraft, getRecentActivitiesForDeal.
  rewrite Hreq. unfold str_or.
  apply String.eqb_neq in Hne. rewrite Hne, Hd.
  fold (activity_of dealId).
  set (stored := filter (activity_of dealId) (activities t)).
  pose proof (most_recent_first_perm dt stored) as Hperm.
  pose proof (most_recent_first_sorted dt stored) as Hsorted.
  set (sorted := most_recent_first dt stored) in *.
  eexists _, _. split; [reflexivity|].
  cbn [ctx_stage ctx_lastActivityDate].
  split; [apply stage_lower_of_column|]. split; [|split].
  - rewrite existsb_filter. fold stored.
    rewrite <- (Permutation_length Hperm), length_map.
    change (Z.to_nat 5) with 5%nat.
    destruct sorted as [|x rest]; cbn; [reflexivity|]. apply orb_true_r.
  - rewrite length_map, length_firstn, (Permutation_length Hperm). reflexivity.
  - intros s Hs. destruct sorted as [|x rest] eqn:E; cbn in Hs; [discriminate|].
    injection Hs as <-.
    assert (Hx : In x stored) by (apply (Permutation_in _ Hperm); now left).
    apply filter_In in Hx. destruct Hx as [Hx Hxd]. apply String.eqb_eq in Hxd.
    exists x. repeat split; try assumption.
    intros b Hb Hbd.
    assert (Hbs : In b (x :: rest)).
    { apply (Permutation_in _ (Permutation_sym Hperm)).
      apply filter_In. split; [assumption | now apply String.eqb_eq]. }
    inversion Hsorted as [|? ? _ Hall]; subst.
    destruct Hbs as [<-|Hbs].
    + unfold no_older. now destruct (dt (act_createdAt x)); cbn; [apply Z.leb_refl|].
    + rewrite Forall_forall in Hall. now apply Hall.
Qed.



(** ** A stage change, then a plan *)

Lemma postStageRoute_success (e : env) (nowIso dealId s : string) (t : tables)
  (n : nat) (d : dealRow) :
  trim s <> "" ->
  deal_by_id dealId (deals t) = Some d ->
  (forall a, In a (activities t) -> act_id a <> uuid e n) ->
  postStageRoute e nowIso dealId (JS.Str s) t n =
    (mkTables (leads t) (map (set_stage dealId (trim s)) (deals t))
              (activities t ++
               [mkActivity (uuid e n) dealId "status_change"
                           ("Status updated to " ++ trim s) nowIso])%list,
     S n, mkCrmResponse 200 (DealJson (set_stage dealId (trim s) d))).
Proof.
  intros Htrim Hd Hfresh.
  destruct (deal_by_id_Some _ _ _ Hd) as [Hin Hid].
  assert (Hs : s <> "") by (intros ->; now apply Htrim).
  assert (Hex : existsb (fun a => (act_id a =? uuid e n)%string) (activities t) = false).
  { apply not_true_iff_false. intros H. apply existsb_exists in H.
    destruct H as (a & Ha & Heq). apply String.eqb_eq in Heq.
    now apply (Hfresh a Ha). }
  unfold postStageRoute. cbn [JS.truthy].
  apply String.eqb_neq in Hs, Htrim. rewrite Hs, Htrim. cbn [negb orb].
  unfold updateDealStage.
  rewrite (deal_by_id_map _ _ _ (set_stage_id dealId (trim s))), Hd.
  cbn [option_map]. unfold createActivity. cbn [activities act_id]. rewrite Hex.
  cbn [leads deals activities].
  rewrite (set_stage_stage _ _ _ Hid). reflexivity.
Qed.

(** The stage route on a usable stage and a stored deal: the stage is set
    and, unless the identifier drawn is the one of a stored activity, the
    change is logged. *)
Lemma postStageRoute_found (e : env) (nowIso dealId s : string) (t : tables)
  (n : nat) (d : dealRow) :
  trim s <> "" ->
  deal_by_id dealId (deals t) = Some d ->
  postStageRoute e nowIso dealId (JS.Str s) t n =
    (mkTables (leads t) (map (set_stage dealId (trim s)) (deals t))
              (if existsb (fun a => (act_id a =? uuid e n)%string) (activities t)
               then activities t
               else (activities t ++
                     [mkActivity (uuid e n) dealId "status_change"
                                 ("Status updated to " ++ trim s) nowIso])%list),
     S n, mkCrmResponse 200 (DealJson (set_stage dealId (trim s) d))).
Proof.
  intros Htrim Hd.
  destruct (deal_by_id_Some _ _ _ Hd) as [Hin Hid].
  assert (Hs : s <> "") by (intros ->; now apply Htrim).
  unfold postStageRoute. cbn [JS.truthy].
  apply String.eqb_neq in Hs, Htrim. rewrite Hs, Htrim. cbn [negb orb].
  unfold updateDealStage.
  rewrite (deal_by_id_map _ _ _ (set_stage_id dealId (trim s))), Hd.
  cbn [option_map]. unfold createActivity. cbn [activities act_id].
  rewrite (set_stage_stage _ _ _ Hid).
  destruct (existsb _ (activities t)); reflexivity.
Qed.

Lemma normalize_by_stage_lower (s1 s2 i : JS.value) (b : bool) :
  stage_lower s1 = stage_lower s2 ->
  normalizeIntentForStage s1 i b = normalizeIntentForStage s2 i b.
Proof. intros H. unfold normalizeIntentForStage. now rewrite H. Qed.

(** X22. A stage set through the stage route is the stage the plan route
    normalizes for, whatever white space surrounded it and whatever its
    letter case: a plan asked for after a stage change normalizes every
    intent as for the trimmed stage.  The plan route takes the deal as
    contacted exactly when an activity is stored for it afterwards.  That
    is so when the identifier that [uuidv4()] returned for the
    [status_change] activity was not the one of a stored activity, the
    activity being logged then, and when the deal had an activity before;
    it is not so when the identifier was taken, the insert of the activity
    failing unnoticed, and the deal had no activity.  The deal is
    stored. *)
Theorem stage_change_counts_as_contact :
  forall (e : env) (dt : string -> option Z) (nowIso dealId s : string)
         (t : tables) (n : nat) (d : dealRow) (today : Z) (req : planRequest)
         (gen : generatorOutcome) (w : world),
    trim s <> "" ->
    deal_by_id dealId (deals t) = Some d ->
    req_dealId req = Some dealId ->
    dealId <> "" ->
    exists t' r context rows,
      postStageRoute e nowIso dealId (JS.Str s) t n = (t', S n, r) /\
      crm_code r = 200 /\
      outreachPlanRequest e dt today req gen t' w =
        outreachPlanRoute e today req (DealFound context) rows gen w /\
      stage_lower (ctx_stage context) = Some (JS.toLowerCase (trim s)) /\
      (forall i hasAnyContact,
          normalizeIntentForStage (ctx_stage context) i hasAnyContact
          = normalizeIntentForStage (JS.Str (trim s)) i hasAnyContact) /\
      let contacted :=
        (JS.truthy (ctx_lastActivityDate context)
         || Nat.ltb 0 (List.length rows))%bool in
      contacted = existsb (activity_of dealId) (activities t') /\
      ((forall a, In a (activities t) -> act_id a <> uuid e n) -> contacted = true) /\
      ((exists a, In a (activities t) /\ act_dealId a = dealId) -> contacted = true) /\
      ((exists a, In a (activities t) /\ act_id a = uuid e n) ->
       (forall a, In a (activities t) -> act_dealId a <> dealId) ->
       contacted = false).
Proof.
  intros e dt nowIso dealId s t n d today req gen w Htrim Hd Hreq Hne.
  destruct (deal_by_id_Some _ _ _ Hd) as [Hin Hid].
  set (logged := mkActivity (uuid e n) dealId "status_change"
                            ("Status updated to " ++ trim s) nowIso).
  set (taken := existsb (fun a => (act_id a =? uuid e n)%string) (activities t)).
  set (t' := mkTables (leads t) (map (set_stage dealId (trim s)) (deals t))
                      (if taken then activities t
                       else (activities t ++ [logged])%list)).
  assert (Hd' : deal_by_id dealId (deals t') = Some (set_stage dealId (trim s) d)).
  { cbn [t' deals].
    rewrite (deal_by_id_map _ _ _ (set_stage_id dealId (trim s))), Hd. reflexivity. }
  destruct (plan_lookup e dt today req gen t' w dealId _ Hreq Hne Hd')
    as (context & rows & Heq & Hstage & Hflag & _).
  rewrite (set_stage_stage _ _ _ Hid) in Hstage.
  exists t', (mkCrmResponse 200 (DealJson (set_stage dealId (trim s) d))), context, rows.
  split; [now apply postStageRoute_found|]. split; [reflexivity|].
  split; [exact Heq|]. split; [exact Hstage|]. split.
  { intros i b. apply normalize_by_stage_lower.
    rewrite Hstage. unfold stage_lower. cbn [JS.truthy JS.to_string option_map].
    apply String.eqb_neq in Htrim. now rewrite Htrim. }
  cbv zeta. split; [exact Hflag | ]. rewrite Hflag. cbn [t' activities].
  split; [ | split ].
  - intros Hfresh.
    assert (Hex : taken = false).
    { apply not_true_iff_false. intros H. apply existsb_exists in H.
      destruct H as (a & Ha & Hid'). apply String.eqb_eq in Hid'.
      now apply (Hfresh a Ha). }
    rewrite Hex, existsb_app. cbn [existsb].
    unfold activity_of at 2. cbn [logged act_dealId].
    rewrite String.eqb_refl. cbn. apply orb_true_r.
  - intros (a & Ha & Hdeal).
    assert (Hold : existsb (activity_of dealId) (activities t) = true).
    { apply existsb_exists. exists a. split; [exact Ha | ].
      now apply String.eqb_eq. }
    destruct taken; [exact Hold | ].
    rewrite existsb_app, Hold. reflexivity.
  - intros (a & Ha & Hident) Hnone.
    assert (Hex : taken = true).
    { apply existsb_exists. exists a. split; [exact Ha | now apply String.eqb_eq]. }
    rewrite Hex. apply not_true_iff_false. intros H. apply existsb_exists in H.
    destruct H as (x & Hx & Hxd). apply String.eqb_eq in Hxd.
    now apply (Hnone x Hx).
Qed.

Lemma stage_change_counts_as_contact_witness :
  exists t' r context rows,
    postStageRoute sample_env "2026-11-03T09:30:00.000Z" "deal-2"
      (JS.Str " Negotiation ") (mkTables (leads sample_tables) (deals sample_tables) []) 0
      = (t', 1%nat, r) /\
    crm_code r = 200 /\
    outreachPlanRequest sample_env sample_datetime sample_today
      (mkRequest (Some "deal-2") (JS.Num 14)) GeneratorThrows t' sample_world =
      outreachPlanRoute sample_env sample_today (mkRequest (Some "deal-2") (JS.Num 14))
        (DealFound context) rows GeneratorThrows sample_world /\
    (JS.truthy (ctx_lastActivityDate context) || Nat.ltb 0 (List.length rows))%bool
      = true /\
    normalizeIntentForStage (ctx_stage context) (JS.Str "first_contact") true
    = Some "nurture_checkin".
Proof.
  destruct (stage_change_counts_as_contact sample_env sample_datetime
              "2026-11-03T09:30:00.000Z" "deal-2" " Negotiation "
              (mkTables (leads sample_tables) (deals sample_tables) []) 0
              (sample_deal "deal-2" "lead-2" "Qualified") sample_today
              (mkRequest (Some "deal-2") (JS.Num 14)) GeneratorThrows sample_world)
    as (t' & r & context & rows & Hroute & Hcode & Heq & _ & Hnorm & _ & Hfresh & _).
  - discriminate.
  - reflexivity.
  - reflexivity.
  - discriminate.
  - exists t', r, context, rows.
    split; [exact Hroute|]. split; [exact Hcode|]. split; [exact Heq|].
    split; [apply Hfresh; intros a [] | ].
    rewrite Hnorm. reflexivity.
Defined.

(** A stage change whose activity takes an identifier that is stored
    already, for a deal without activities: the stage is set and the
    answer is 200, yet nothing is logged and the plan route takes the deal
    as never contacted. *)
Example stage_change_not_logged :
  let t := mkTables (leads sample_tables) (deals sample_tables)
             [ mkActivity "step-0" "deal-1" "call" "Intro call"
                          "2026-11-01T10:00:00.000Z" ] in
  let out := postStageRoute sample_env "2026-11-03T09:30:00.000Z" "deal-2"
               (JS.Str "Negotiation") t 0 in
  option_map deal_stage (deal_by_id "deal-2" (deals (fst (fst out))))
    = Some "Negotiation" /\
  crm_code (snd out) = 200 /\
  activities (fst (fst out)) = activities t /\
  getDealContextForMessageDraft sample_datetime "deal-2" (fst (fst out))
    = DealFound (mkContext (JS.Str "Negotiation") JS.Null).
Proof. vm_compute. repeat split. Qed.

(** ** A lead created, then deleted *)

Lemma filter_nothing {A : Type} (f : A -> bool) (l : list A) :
  Forall (fun x => f x = false) l -> filter f l = [].
Proof.
  induction 1 as [| x l Hx _ IH]; cbn; [reflexivity | ]. now rewrite Hx.
Qed.

Lemma lead_by_id_new (ident : string) (l : list leadRow) (x : leadRow) :
  (forall y, In y l -> lead_id y <> ident) ->
  lead_id x = ident ->
  lead_by_id ident (l ++ [x]) = Some x.
Proof.
  intros Hfresh Hx. unfold lead_by_id.
  induction l as [|y l IH]; cbn.
  - apply String.eqb_eq in Hx. now rewrite Hx.
  - replace (lead_id y =? ident)%string with false
      by (symmetry; apply String.eqb_neq, Hfresh; now left).
    apply IH. intros z Hz. apply Hfresh. now right.
Qed.

(** X23. A lead posted with a name and a company is stored under a new
    identifier, with the optional fields that are empty as [NULL] and the
    clock's date when the body gives none, and the answer is 201 with the
    stored lead.  Deleting that identifier afterwards answers 200 and
    gives back the tables as they were before the lead was posted.  The
    identifier that [uuidv4()] returns is neither the one of a stored
    lead nor named by a stored deal. *)
Theorem posted_lead_is_stored_and_can_be_deleted :
  forall (e : env) (nowIso : string) (lead : leadInput) (name company : string)
         (t : tables) (n : nat),
    in_name lead = Some name -> name <> "" ->
    in_company lead = Some company -> company <> "" ->
    (forall l, In l (leads t) -> lead_id l <> uuid e n) ->
    (forall d, In d (deals t) -> deal_leadId d <> uuid e n) ->
    let stored :=
      mkLead (uuid e n) name company (or_null (in_email lead)) (in_value lead)
             (or_null (in_source lead)) (Some (str_or (in_createdAt lead) nowIso))
             (or_null (in_address lead)) (or_null (in_phone lead)) in
    exists t',
      postLeadRoute e nowIso lead t n =
        (t', S n, mkCrmResponse 201 (LeadJson (Some stored))) /\
      leads t' = (leads t ++ [stored])%list /\
      deals t' = deals t /\
      activities t' = activities t /\
      deleteLeadRoute (uuid e n) t' = (t, mkCrmResponse 200 SuccessJson).
Proof.
  intros e nowIso lead name company t n Hname Hn Hcompany Hc Hfresh Hdeals stored.
  assert (Hex : existsb (fun l => (lead_id l =? uuid e n)%string) (leads t) = false).
  { apply not_true_iff_false. intros H. apply existsb_exists in H.
    destruct H as (l & Hl & Heq). apply String.eqb_eq in Heq.
    now apply (Hfresh l Hl). }
  exists (mkTables (leads t ++ [stored])%list (deals t) (activities t)).
  split; [|split; [reflexivity|split; [reflexivity|split; [reflexivity|]]]].
  - unfold postLeadRoute, or_null. rewrite Hname, Hcompany.
    apply String.eqb_neq in Hn, Hc. rewrite Hn, Hc.
    unfold createLead. rewrite Hname, Hcompany, Hex. cbn [leads].
    fold stored. now rewrite (lead_by_id_new _ _ stored Hfresh eq_refl).
  - unfold deleteLeadRoute, deleteLeadAndRelated. cbn [leads deals activities].
    assert (Hnone : filter (fun d => (deal_leadId d =? uuid e n)%string) (deals t) = []).
    { apply filter_nothing, Forall_forall. intros d Hd.
      apply String.eqb_neq. now apply Hdeals. }
    rewrite Hnone. cbn [map List.length Nat.ltb Nat.leb].
    rewrite (filter_all (fun d => negb (deal_leadId d =? uuid e n)%string) (deals t)).
    2: { apply Forall_forall. intros d Hd.
         apply negb_true_iff, String.eqb_neq. now apply Hdeals. }
    rewrite !filter_app.
    rewrite (filter_all (fun l => negb (lead_id l =? uuid e n)%string) (leads t)).
    2: { apply Forall_forall. intros l Hl.
         apply negb_true_iff, String.eqb_neq. now apply Hfresh. }
    assert (Hold : filter (fun l => (lead_id l =? uuid e n)%string) (leads t) = []).
    { apply filter_nothing, Forall_forall. intros l Hl.
      apply String.eqb_neq. now apply Hfresh. }
    rewrite Hold. cbn [filter stored lead_id]. rewrite String.eqb_refl.
    cbn. rewrite app_nil_r, tables_eta. reflexivity.
Qed.

Lemma posted_lead_is_stored_and_can_be_deleted_witness :
  exists t',
    postLeadRoute sample_env "2026-11-03T09:30:00.000Z"
      (mkLeadInput (Some "Ravi") (Some "Oak House") (Some "") (Some 0) None None None None)
      sample_tables 0 =
      (t', 1%nat,
       mkCrmResponse 201
         (LeadJson (Some (mkLead "step-0" "Ravi" "Oak House" None (Some 0) None
                                 (Some "2026-11-03T09:30:00.000Z") None None)))) /\
    deleteLeadRoute "step-0" t' = (sample_tables, mkCrmResponse 200 SuccessJson).
Proof.
  destruct (posted_lead_is_stored_and_can_be_deleted sample_env
              "2026-11-03T09:30:00.000Z"
              (mkLeadInput (Some "Ravi") (Some "Oak House") (Some "") (Some 0)
                           None None None None)
              "Ravi" "Oak House" sample_tables 0)
    as (t' & Hroute & _ & _ & _ & Hdelete).
  - reflexivity.
  - discriminate.
  - reflexivity.
  - discriminate.
  - intros l [<-|[<-|[]]]; discriminate.
  - intros d [<-|[<-|[<-|[]]]]; discriminate.
  - exists t'. split; [exact Hroute | exact Hdelete].
Defined.
